(** * Call-session server (src/app.js): shallow embedding and verification

    The development follows the layout of [src/app.js]:

    - [Js]      : the fragment of JavaScript values and operators the
                  handlers use (truthiness, property reads, [+], [||],
                  [JSON.stringify], object spread);
    - [CallData], [Server] : the session record and the three module-level
                  [Map]s ([callStorage], [activeConnections], [tokenStorage]);
    - the HTTP handler of [/sampark], the WebSocket [connection], [message]
      and [close] listeners, the four event handlers, and the read-only
      endpoints [/call-summary], [/call/:callSid] and [/health];
    - [step]/[run] : the listeners driven by a list of inputs;
    - the theorems, one group per claim of the specification.

    Conventions of the model.
    - Wall-clock reads ([new Date()], [Date.now()]) are an explicit argument
      [now], in milliseconds since the epoch; an ISO timestamp stored in a
      record is represented by the millisecond value it denotes
      ([toISOString] keeps millisecond precision and [new Date(iso)] reads
      it back unchanged).
    - [crypto.randomBytes(16).toString("hex")] is an explicit argument
      [token] of the [/sampark] handler.
    - A JavaScript number is modelled when it is an integer, as [Z]; a sum
      is rounded to the nearest double, so it is exact for safe integers
      (magnitude below [2^53]), the range the theorems about sequence
      numbers are stated for.
    - A JavaScript string is modelled as the sequence of its UTF-16 code
      units, each below 256 and held in one byte, so that [String.length]
      is the [length] property.
    - The values are those [JSON.parse] returns: their objects inherit from
      [Object.prototype] and hold no function.  Converting such a value to
      text or to a number raises [TypeError] when an object with an own
      [toString] property is reached; the template literals of the log
      lines, [%] and [+] are modelled with that outcome, and what a handler
      had assigned before it raised stays assigned.
    - Query-string parameters are strings when present ([option string]);
      repeated or bracketed keys are outside the model.
    - A frame handed to [ws.send] is represented by the JSON document that
      [JSON.stringify] writes, as a value rather than as text. *)

From Stdlib Require Import ZArith List Bool Ascii Lia.
From stdpp Require Import base option strings pretty gmap.

Local Open Scope string_scope.
Local Open Scope list_scope.
Local Open Scope Z_scope.

(** ** JavaScript values *)

Module Js.

(** Values.  [JNum n] is the number [n], an integer that is a double. *)
#[warnings="-register-all"]
Inductive JsVal : Type :=
| JUndefined
| JNull
| JBool (b : bool)
| JNum (n : Z)
| JNaN
| JStr (s : string)
| JArr (items : list JsVal)
| JObj (fields : list (string * JsVal)).

(** Uncaught or caught exceptions the listeners can see. *)
Inductive Exn : Type := SyntaxError | TypeError | ReferenceError.

(** [ToBoolean]: the falsy values are [undefined], [null], [false], [0],
    [NaN] and the empty string. *)
Definition truthy (v : JsVal) : bool :=
  match v with
  | JUndefined | JNull | JNaN => false
  | JBool b => b
  | JNum n => negb (Z.eqb n 0)
  | JStr s => negb (String.eqb s "")
  | JArr _ | JObj _ => true
  end.

Definition falsy (v : JsVal) : bool := negb (truthy v).

Definition nullish (v : JsVal) : bool :=
  match v with JUndefined | JNull => true | _ => false end.

(** Own property of an object literal; the first binding of a key is the
    property's value. *)
Fixpoint lookup_field (k : string) (fs : list (string * JsVal)) : option JsVal :=
  match fs with
  | [] => None
  | (k', v) :: rest => if String.eqb k k' then Some v else lookup_field k rest
  end.

(** [v.k] for a value [v] that is neither [null] nor [undefined] (on those
    the read raises [TypeError]; every read in the handlers is guarded,
    see [handleWebSocketEvent]).  None of the property names the handlers
    read is inherited from a prototype, except [length] on strings and
    arrays. *)
Definition prop (v : JsVal) (k : string) : JsVal :=
  match v with
  | JObj fs => default JUndefined (lookup_field k fs)
  | JStr s => if String.eqb k "length" then JNum (Z.of_nat (String.length s)) else JUndefined
  | JArr l => if String.eqb k "length" then JNum (Z.of_nat (List.length l)) else JUndefined
  | _ => JUndefined
  end.

(** [a || b] *)
Definition or_else (a b : JsVal) : JsVal := if truthy a then a else b.

(** [Number.isSafeInteger] *)
Definition isSafeInteger (n : Z) : Prop := Z.abs n ≤ 9007199254740991.

(** The double nearest to an integer: itself below [2^53] in magnitude,
    otherwise its 53 leading bits rounded to nearest, a tie going to the
    even significand. *)
Definition to_double (z : Z) : Z :=
  let a := Z.abs z in
  if a <? 2 ^ 53 then z
  else
    let e := Z.log2 a - 52 in
    let q := a / 2 ^ e in
    let r := a mod 2 ^ e in
    let h := 2 ^ (e - 1) in
    let q := if r <? h then q
             else if h <? r then q + 1
             else if Z.even q then q else q + 1 in
    Z.sgn z * (q * 2 ^ e).

(** The fewest decimal digits that denote the double [a] of [len] digits:
    the least [k] from the given one on, with digits [s], such that [s]
    followed by [len - k] zeros rounds to [a]; of two such [s] the nearer,
    then the even one. *)
Fixpoint shortest_digits (fuel : nat) (k a len : Z) : Z * Z :=
  match fuel with
  | O => (a, len)
  | S fuel =>
      let p := 10 ^ (len - k) in
      let lo := a / p in
      let hi := lo + 1 in
      let ok_lo := to_double (lo * p) =? a in
      let ok_hi := to_double (hi * p) =? a in
      if ok_lo && ok_hi then
        let below := a - lo * p in
        let above := hi * p - a in
        (if below <? above then lo
         else if above <? below then hi
         else if Z.even lo then lo else hi, k)
      else if ok_lo then (lo, k)
      else if ok_hi then (hi, k)
      else shortest_digits fuel (k + 1) a len
  end.

(** [Number.prototype.toString] on a double that is an integer: the
    fewest digits that read back as the same double, followed by zeros up
    to the units below [10^21] ([2^64] prints [18446744073709552000]), and
    in exponent form from there on ([1e+21], [1.5e+300]).  Below [2^53]
    these are the decimal digits of the integer. *)
Definition Number_toString (n : Z) : string :=
  let a := Z.abs n in
  if a <? 2 ^ 53 then pretty n
  else
    let len := Z.of_nat (String.length (pretty a)) in
    let '(s, k) := shortest_digits 17 1 a len in
    let sign := if n <? 0 then "-" else "" in
    if a <? 10 ^ 21 then sign +:+ pretty (s * 10 ^ (len - k))
    else
      let '(s, e) := if s =? 10 ^ k then (1, len) else (s, len - 1) in
      let digits := pretty s in
      let mantissa :=
        match digits with
        | String c (String c' rest) => String c ("." +:+ String c' rest)
        | _ => digits
        end in
      sign +:+ mantissa +:+ "e+" +:+ pretty e.

(** [ToString], as used by template literals, by [+] on a non-number and by
    [Array.prototype.join].  An object is converted through its [toString]
    method, then its [valueOf] method: an object that came out of
    [JSON.parse] inherits both, and prints [[object Object]], unless it has
    an own property [toString], which hides the inherited method and is not
    callable; then the inherited [valueOf] returns the object itself and
    the conversion raises [TypeError].  An array is joined, its [null] and
    [undefined] elements printing as nothing. *)
Fixpoint ToString (v : JsVal) : Exn + string :=
  match v with
  | JUndefined => inr "undefined"
  | JNull => inr "null"
  | JBool true => inr "true"
  | JBool false => inr "false"
  | JNum n => inr (Number_toString n)
  | JNaN => inr "NaN"
  | JStr s => inr s
  | JArr l =>
      (fix join (l : list JsVal) : Exn + string :=
         match l with
         | [] => inr ""
         | x :: rest =>
             match match x with JUndefined | JNull => inr "" | _ => ToString x end with
             | inl e => inl e
             | inr sx =>
                 match rest with
                 | [] => inr sx
                 | _ =>
                     match join rest with
                     | inl e => inl e
                     | inr sr => inr (sx +:+ "," +:+ sr)
                     end
                 end
             end
         end) l
  | JObj fields =>
      match lookup_field "toString" fields with
      | Some _ => inl TypeError
      | None => inr "[object Object]"
      end
  end.

(** The value converts to a primitive without raising; [ToString],
    [ToNumber] (as in [%]) and [+] raise on the same values. *)
Definition converts (v : JsVal) : bool :=
  match ToString v with
  | inr _ => true
  | inl _ => false
  end.

(** [v + k] for a number literal [k] (the only shape of [+] in the source:
    [message.sequence_number + 1] and [+ 1000]): a string, or an object or
    array through its conversion, is concatenated; anything else is added
    as a number. *)
Definition plus (v : JsVal) (k : Z) : Exn + JsVal :=
  match v with
  | JNum n => inr (JNum (to_double (n + k)))
  | JUndefined | JNaN => inr JNaN
  | JNull => inr (JNum k)
  | JBool b => inr (JNum ((if b then 1 else 0) + k))
  | JStr _ | JArr _ | JObj _ =>
      match ToString v with
      | inl e => inl e
      | inr s => inr (JStr (s +:+ Number_toString k))
      end
  end.

(** The document written by [JSON.stringify]: properties whose value is
    [undefined] are omitted, [NaN] is written [null], and so is an
    [undefined] array element. *)
Fixpoint JSON_stringify (v : JsVal) : JsVal :=
  match v with
  | JNaN => JNull
  | JArr l =>
      JArr (map (fun x => match x with JUndefined => JNull | _ => JSON_stringify x end) l)
  | JObj fs =>
      JObj ((fix go (fs : list (string * JsVal)) : list (string * JsVal) :=
               match fs with
               | [] => []
               | (k, JUndefined) :: rest => go rest
               | (k, x) :: rest => (k, JSON_stringify x) :: go rest
               end) fs)
  | _ => v
  end.

(** Keys [0], [1], ... of an array or string under spread. *)
Fixpoint indexed {A} (f : A -> JsVal) (i : nat) (l : list A) : list (string * JsVal) :=
  match l with
  | [] => []
  | x :: rest => (pretty (Z.of_nat i), f x) :: indexed f (S i) rest
  end.

Fixpoint chars (s : string) : list string :=
  match s with
  | EmptyString => []
  | String c rest => String c EmptyString :: chars rest
  end.

(** [{ ...v }]: own enumerable properties copied into a fresh object. *)
Definition spread (v : JsVal) : JsVal :=
  match v with
  | JObj fs => JObj fs
  | JArr l => JObj (indexed (fun x => x) 0 l)
  | JStr s => JObj (indexed JStr 0 (chars s))
  | _ => JObj []
  end.

End Js.
Export Js.

(** ** The session record and the module-level maps *)

(** One entry of [callData.events] (pushed by [handleWebSocketEvent]). *)
Record EventEntry : Type := {
  event : JsVal;
  sequence_number : JsVal;
  stream_sid : JsVal;
  timestamp : Z;
  payload : JsVal
}.

(** One entry of [callData.audioChunks] (pushed by [handleMediaEvent]). *)
Record AudioChunk : Type := {
  chunk : JsVal;
  chunk_timestamp : JsVal;
  payloadSize : JsVal;
  receivedAt : Z
}.

(** The object stored in [callStorage].  Properties that the [/sampark]
    handler does not create are [undefined] ([JUndefined], or [None] for
    the timestamps and the duration) until a handler assigns them. *)
Record CallData : Type := {
  callSid : JsVal;
  from : JsVal;
  to : JsVal;
  startTime : option Z;
  status : string;
  events : list EventEntry;
  audioChunks : list AudioChunk;
  wsConnectedTime : option Z;
  mediaFormat : JsVal;
  accountSid : JsVal;
  stopReason : JsVal;
  transferReason : JsVal;
  endTime : option Z;
  duration : option Z
}.

(** Assignment to one property of the record ([callData.f = x]). *)
Definition set_callSid (x : JsVal) (d : CallData) : CallData :=
  {| callSid := x; from := from d; to := to d; startTime := startTime d;
     status := status d; events := events d; audioChunks := audioChunks d;
     wsConnectedTime := wsConnectedTime d; mediaFormat := mediaFormat d;
     accountSid := accountSid d; stopReason := stopReason d;
     transferReason := transferReason d; endTime := endTime d;
     duration := duration d |}.

Definition set_from (x : JsVal) (d : CallData) : CallData :=
  {| callSid := callSid d; from := x; to := to d; startTime := startTime d;
     status := status d; events := events d; audioChunks := audioChunks d;
     wsConnectedTime := wsConnectedTime d; mediaFormat := mediaFormat d;
     accountSid := accountSid d; stopReason := stopReason d;
     transferReason := transferReason d; endTime := endTime d;
     duration := duration d |}.

Definition set_to (x : JsVal) (d : CallData) : CallData :=
  {| callSid := callSid d; from := from d; to := x; startTime := startTime d;
     status := status d; events := events d; audioChunks := audioChunks d;
     wsConnectedTime := wsConnectedTime d; mediaFormat := mediaFormat d;
     accountSid := accountSid d; stopReason := stopReason d;
     transferReason := transferReason d; endTime := endTime d;
     duration := duration d |}.

Definition set_status (x : string) (d : CallData) : CallData :=
  {| callSid := callSid d; from := from d; to := to d;
     startTime := startTime d; status := x; events := events d;
     audioChunks := audioChunks d; wsConnectedTime := wsConnectedTime d;
     mediaFormat := mediaFormat d; accountSid := accountSid d;
     stopReason := stopReason d; transferReason := transferReason d;
     endTime := endTime d; duration := duration d |}.

Definition set_events (x : list EventEntry) (d : CallData) : CallData :=
  {| callSid := callSid d; from := from d; to := to d;
     startTime := startTime d; status := status d; events := x;
     audioChunks := audioChunks d; wsConnectedTime := wsConnectedTime d;
     mediaFormat := mediaFormat d; accountSid := accountSid d;
     stopReason := stopReason d; transferReason := transferReason d;
     endTime := endTime d; duration := duration d |}.

Definition set_audioChunks (x : list AudioChunk) (d : CallData) : CallData :=
  {| callSid := callSid d; from := from d; to := to d;
     startTime := startTime d; status := status d; events := events d;
     audioChunks := x; wsConnectedTime := wsConnectedTime d;
     mediaFormat := mediaFormat d; accountSid := accountSid d;
     stopReason := stopReason d; transferReason := transferReason d;
     endTime := endTime d; duration := duration d |}.

Definition set_wsConnectedTime (x : option Z) (d : CallData) : CallData :=
  {| callSid := callSid d; from := from d; to := to d;
     startTime := startTime d; status := status d; events := events d;
     audioChunks := audioChunks d; wsConnectedTime := x;
     mediaFormat := mediaFormat d; accountSid := accountSid d;
     stopReason := stopReason d; transferReason := transferReason d;
     endTime := endTime d; duration := duration d |}.

Definition set_mediaFormat (x : JsVal) (d : CallData) : CallData :=
  {| callSid := callSid d; from := from d; to := to d;
     startTime := startTime d; status := status d; events := events d;
     audioChunks := audioChunks d; wsConnectedTime := wsConnectedTime d;
     mediaFormat := x; accountSid := accountSid d;
     stopReason := stopReason d; transferReason := transferReason d;
     endTime := endTime d; duration := duration d |}.

Definition set_accountSid (x : JsVal) (d : CallData) : CallData :=
  {| callSid := callSid d; from := from d; to := to d;
     startTime := startTime d; status := status d; events := events d;
     audioChunks := audioChunks d; wsConnectedTime := wsConnectedTime d;
     mediaFormat := mediaFormat d; accountSid := x;
     stopReason := stopReason d; transferReason := transferReason d;
     endTime := endTime d; duration := duration d |}.

Definition set_stopReason (x : JsVal) (d : CallData) : CallData :=
  {| callSid := callSid d; from := from d; to := to d;
     startTime := startTime d; status := status d; events := events d;
     audioChunks := audioChunks d; wsConnectedTime := wsConnectedTime d;
     mediaFormat := mediaFormat d; accountSid := accountSid d;
     stopReason := x; transferReason := transferReason d;
     endTime := endTime d; duration := duration d |}.

Definition set_transferReason (x : JsVal) (d : CallData) : CallData :=
  {| callSid := callSid d; from := from d; to := to d;
     startTime := startTime d; status := status d; events := events d;
     audioChunks := audioChunks d; wsConnectedTime := wsConnectedTime d;
     mediaFormat := mediaFormat d; accountSid := accountSid d;
     stopReason := stopReason d; transferReason := x; endTime := endTime d;
     duration := duration d |}.

Definition set_endTime (x : option Z) (d : CallData) : CallData :=
  {| callSid := callSid d; from := from d; to := to d;
     startTime := startTime d; status := status d; events := events d;
     audioChunks := audioChunks d; wsConnectedTime := wsConnectedTime d;
     mediaFormat := mediaFormat d; accountSid := accountSid d;
     stopReason := stopReason d; transferReason := transferReason d;
     endTime := x; duration := duration d |}.

Definition set_duration (x : option Z) (d : CallData) : CallData :=
  {| callSid := callSid d; from := from d; to := to d;
     startTime := startTime d; status := status d; events := events d;
     audioChunks := audioChunks d; wsConnectedTime := wsConnectedTime d;
     mediaFormat := mediaFormat d; accountSid := accountSid d;
     stopReason := stopReason d; transferReason := transferReason d;
     endTime := endTime d; duration := x |}.

(** The three module-level [Map]s.  A WebSocket object is identified by a
    number. *)
Record Server : Type := {
  callStorage : gmap string CallData;
  activeConnections : gmap string nat;
  tokenStorage : gmap string string
}.

Definition set_callStorage (m : gmap string CallData) (σ : Server) : Server :=
  {| callStorage := m; activeConnections := activeConnections σ;
     tokenStorage := tokenStorage σ |}.

Definition set_activeConnections (m : gmap string nat) (σ : Server) : Server :=
  {| callStorage := callStorage σ; activeConnections := m;
     tokenStorage := tokenStorage σ |}.

Definition set_tokenStorage (m : gmap string string) (σ : Server) : Server :=
  {| callStorage := callStorage σ; activeConnections := activeConnections σ;
     tokenStorage := m |}.

(** [callStorage.get(callSid)] returns the stored object itself, so an
    assignment to one of its properties is an update of the map entry. *)
Definition store (callSid : string) (d : CallData) (σ : Server) : Server :=
  set_callStorage (<[callSid := d]> (callStorage σ)) σ.

Definition empty_server : Server :=
  {| callStorage := ∅; activeConnections := ∅; tokenStorage := ∅ |}.

(** What a handler does to a socket. *)
Inductive WsAction : Type :=
| ws_send (ws : nat) (data : JsVal)
| ws_close (ws : nat) (code : Z) (reason : string)
| setTimeout_ws_close (ws : nat) (delay : Z) (code : Z) (reason : string).

(** What an HTTP handler answers: [res.status(code).json(body)]. *)
Inductive HttpResponse : Type :=
| res_json (code : Z) (body : JsVal).

(** ** HTTP: [GET /sampark] *)

(** Truthiness of a query-string parameter. *)
Definition qtruthy (q : option string) : bool :=
  match q with
  | Some s => negb (String.eqb s "")
  | None => false
  end.

(** [generateWebSocketEndpoint], with [HOST] and [PORT] unset in the
    environment; [token] is the value drawn from [crypto.randomBytes]. *)
Definition generateWebSocketEndpoint (callSid token : string) (σ : Server)
  : string * Server :=
  ("wss://localhost:3000/connection?token=" +:+ token +:+ "&callSid=" +:+ callSid,
   set_tokenStorage (<[token := callSid]> (tokenStorage σ)) σ).

Definition sampark (CallSid From To : option string) (token : string) (now : Z)
    (σ : Server) : Server * HttpResponse :=
  match CallSid, From, To with
  | Some c, Some f, Some t =>
      if negb (qtruthy CallSid) || negb (qtruthy From) || negb (qtruthy To) then
        (σ, res_json 400
              (JObj [("error", JStr "Missing required parameters: CallSid, From, To")]))
      else
        let callData :=
          {| callSid := JStr c; from := JStr f; to := JStr t;
             startTime := Some now; status := "initiated";
             events := []; audioChunks := [];
             wsConnectedTime := None; mediaFormat := JUndefined;
             accountSid := JUndefined; stopReason := JUndefined;
             transferReason := JUndefined; endTime := None; duration := None |} in
        let σ1 := store c callData σ in
        let '(wsEndpoint, σ2) := generateWebSocketEndpoint c token σ1 in
        (σ2, res_json 200 (JObj [("websocket_url", JStr wsEndpoint)]))
  | _, _, _ =>
      (σ, res_json 400
            (JObj [("error", JStr "Missing required parameters: CallSid, From, To")]))
  end.

(** ** Outcomes *)

(** The result of running a handler or a listener: the maps afterwards,
    what was done to sockets, and the exception that left it, if any.  A
    handler that raises keeps what it had assigned; every conversion that
    can raise in a handler comes before its [ws.send]. *)
Record Outcome : Type := {
  server : Server;
  actions : list WsAction;
  uncaught : option Exn
}.

Definition returns (r : Server * list WsAction) : Outcome :=
  {| server := r.1; actions := r.2; uncaught := None |}.

Definition raise (e : Exn) (σ : Server) : Outcome :=
  {| server := σ; actions := []; uncaught := Some e |}.

(** [ws.send(JSON.stringify(envelope))], then [rest]; when building the
    envelope raises, nothing is sent. *)
Definition send_then (ws : nat) (envelope : Exn + JsVal) (rest : list WsAction)
    (σ : Server) : Outcome :=
  match envelope with
  | inl e => raise e σ
  | inr v => returns (σ, ws_send ws (JSON_stringify v) :: rest)
  end.

(** ** Event handlers *)

Definition error_envelope (message : JsVal) (callSid : string) (error : string)
  : Exn + JsVal :=
  match plus (prop message "sequence_number") 1 with
  | inl e => inl e
  | inr sequence_number =>
      inr (JObj [("event", JStr "error");
                 ("sequence_number", sequence_number);
                 ("stream_sid", JStr callSid);
                 ("error", JStr error)])
  end.

(** [v === s] for a string literal [s]. *)
Definition is_str (v : JsVal) (s : string) : bool :=
  match v with
  | JStr s' => String.eqb s' s
  | _ => false
  end.

(** The condition of the [if] that rejects a start payload. *)
Definition invalid_start (message : JsVal) : bool :=
  let start := prop message "start" in
  falsy start
  || falsy (prop start "stream_sid")
  || falsy (prop start "call_sid")
  || falsy (prop start "account_sid")
  || falsy (prop start "from")
  || falsy (prop start "to")
  || falsy (prop start "media_format")
  || falsy (prop (prop start "media_format") "encoding")
  || falsy (prop (prop start "media_format") "sample_rate")
  || falsy (prop (prop start "media_format") "bit_rate").

(** The assignments to [callData] made for a valid start payload.  (The
    labelled statement [upperCase: message.start.call_sid;] assigns
    nothing.) *)
Definition start_assignments (message : JsVal) (callData : CallData) : CallData :=
  let start := prop message "start" in
  set_to (prop start "to")
    (set_from (prop start "from")
       (set_accountSid (prop start "account_sid")
          (set_mediaFormat (prop start "media_format")
             (set_status "started" callData)))).

Definition start_response (message : JsVal) : Exn + JsVal :=
  let start := prop message "start" in
  match plus (prop message "sequence_number") 1 with
  | inl e => inl e
  | inr sequence_number =>
      inr (JObj [("event", JStr "start");
                 ("sequence_number", sequence_number);
                 ("stream_sid", prop message "stream_sid");
                 ("start",
                  JObj [("stream_sid", prop start "stream_sid");
                        ("call_sid", prop start "call_sid");
                        ("account_sid", prop start "account_sid");
                        ("from", prop start "from");
                        ("to", prop start "to");
                        ("custom_parameters",
                         or_else (prop start "custom_parameters") (JObj []));
                        ("media_format", prop start "media_format")])])
  end.

(** The first placeholder of a [console.log] format that takes an
    argument, after [formatWithOptions] of Node's [util]: the text is
    scanned for [%] followed by a character; [s], [j], [d], [O], [o], [i],
    [f] and [c] take the next argument, [%%] and any other pair are passed
    over. *)
Fixpoint first_placeholder (format : string) : option ascii :=
  match format with
  | String "%" (String c rest) =>
      if existsb (Ascii.eqb c) ["s"; "j"; "d"; "O"; "o"; "i"; "f"; "c"]%char
      then Some c
      else first_placeholder rest
  | String _ rest => first_placeholder rest
  | EmptyString => None
  end.

(** Whether [console.log(format, arg)] raises, for an argument taken from
    a parsed JSON document (Node 12 and later, the versions that run the
    [?.] of the listener): [%d], [%i] and [%f] convert the argument with
    [Number], [parseInt] and [parseFloat]; [%s] inspects an object whose
    [toString] is inherited or is not a function, and so do [%o] and [%O];
    [%j] writes it as JSON; [%c] drops it; an argument no placeholder takes
    is inspected.  Inspecting and writing such a value do not raise. *)
Definition console_log_raises (format : string) (arg : JsVal) : bool :=
  match first_placeholder format with
  | Some c => existsb (Ascii.eqb c) ["d"; "i"; "f"]%char && negb (converts arg)
  | None => false
  end.

Definition handleStartEvent (callSid : string) (message : JsVal) (ws : nat)
    (σ : Server) : Outcome :=
  match callStorage σ !! callSid with
  | None => returns (σ, [])
  | Some callData =>
      if invalid_start message then
        send_then ws (error_envelope message callSid "Invalid start payload") [] σ
      else
        let σ := store callSid (start_assignments message callData) σ in
        if console_log_raises ("[" +:+ callSid +:+ "] Call started with media format:")
             (prop (prop message "start") "media_format")
        then raise TypeError σ
        else send_then ws (start_response message) [] σ
  end.

(** The condition of the [if] that rejects a media payload. *)
Definition invalid_media (message : JsVal) : bool :=
  let media := prop message "media" in
  falsy media
  || falsy (prop media "payload")
  || falsy (prop media "chunk")
  || falsy (prop media "timestamp").

(** A canonical array index: decimal digits without a leading zero. *)
Fixpoint index_value (acc : Z) (s : string) : option Z :=
  match s with
  | EmptyString => Some acc
  | String c rest =>
      let n := Z.of_nat (nat_of_ascii c) in
      if (48 <=? n) && (n <=? 57) then index_value (10 * acc + (n - 48)) rest else None
  end.

Definition array_index (k : string) : option Z :=
  match k with
  | EmptyString => None
  | String "0" EmptyString => Some 0
  | String "0" _ => None
  | _ => index_value 0 k
  end.

(** Whether [Buffer.from(payload, "base64")] returns (otherwise it raises
    [TypeError], which the handler catches), for a truthy [payload] taken
    from a parsed JSON document, after [Buffer.from] and [fromObject] of
    Node's [lib/buffer.js]: a string is decoded (characters outside the
    alphabet are skipped, nothing is refused); an array is copied, each
    element converted to a number; an object is accepted when it is
    array-like ([length] is defined; its elements below a numeric [length]
    are converted to numbers) or the JSON form of a buffer; an own
    [valueOf] property that is truthy is called and is not a function, one
    that is the empty string is decoded; every other value is refused.
    Allocation failures are not modelled. *)
Definition Buffer_from_returns (payload : JsVal) : bool :=
  match payload with
  | JStr _ => true
  | JArr l => forallb converts l
  | JObj fields =>
      let fromObject :=
        match prop payload "length" with
        | JUndefined =>
            is_str (prop payload "type") "Buffer"
            && match prop payload "data" with
               | JArr l => forallb converts l
               | _ => false
               end
        | JNum n =>
            forallb (fun '(k, _) =>
                       match array_index k with
                       | Some i => if i <? n then converts (prop payload k) else true
                       | None => true
                       end) fields
        | _ => true
        end in
      match lookup_field "valueOf" fields with
      | Some valueOf =>
          if truthy valueOf then false
          else is_str valueOf "" || fromObject
      | None => fromObject
      end
  | _ => false
  end.

(** The entry pushed on [callData.audioChunks]. *)
Definition audioChunk (message : JsVal) (now : Z) : AudioChunk :=
  let media := prop message "media" in
  {| chunk := prop media "chunk";
     chunk_timestamp := prop media "timestamp";
     payloadSize := prop (prop media "payload") "length";
     receivedAt := now |}.

Definition media_assignments (message : JsVal) (now : Z) (callData : CallData)
  : CallData :=
  set_audioChunks (audioChunks callData ++ [audioChunk message now]) callData.

Definition echoResponse (callSid : string) (message : JsVal) (now : Z) : Exn + JsVal :=
  let media := prop message "media" in
  match plus (prop message "sequence_number") 1000 with
  | inl e => inl e
  | inr sequence_number =>
      inr (JObj [("event", JStr "media");
                 ("sequence_number", sequence_number);
                 ("stream_sid", JStr callSid);
                 ("media",
                  JObj [("chunk", prop media "chunk");
                        ("timestamp", JStr (Number_toString now));
                        ("payload", prop media "payload")])])
  end.

(** The [try] block of the media handler: [Buffer.from], then the echo. *)
Definition media_try (callSid : string) (message : JsVal) (now : Z) : Exn + JsVal :=
  if Buffer_from_returns (prop (prop message "media") "payload")
  then echoResponse callSid message now
  else inl TypeError.

(** [handleMediaEvent].  Between the push of the chunk and the [try] block,
    [message.media.chunk % 100] converts the chunk index to a number (and
    the log line that follows for a multiple of 100 converts it to text). *)
Definition handleMediaEvent (callSid : string) (message : JsVal) (ws : nat)
    (now : Z) (σ : Server) : Outcome :=
  match callStorage σ !! callSid with
  | None => returns (σ, [])
  | Some callData =>
      if invalid_media message then
        send_then ws (error_envelope message callSid "Invalid media payload") [] σ
      else
        let σ := store callSid (media_assignments message now callData) σ in
        if negb (converts (prop (prop message "media") "chunk")) then raise TypeError σ
        else
          match media_try callSid message now with
          | inr echo => send_then ws (inr echo) [] σ
          | inl _ =>
              send_then ws
                (error_envelope message callSid "Failed to process audio chunk") [] σ
          end
  end.

(** The condition shared, up to the property name, by the stop and the
    xfer handlers. *)
Definition invalid_end (kind : string) (message : JsVal) : bool :=
  let p := prop message kind in
  falsy p
  || falsy (prop p "call_sid")
  || falsy (prop p "account_sid")
  || falsy (prop p "reason").

Definition invalid_stop : JsVal -> bool := invalid_end "stop".
Definition invalid_xfer : JsVal -> bool := invalid_end "xfer".

(** The assignments made for a valid stop payload. *)
Definition stop_assignments (message : JsVal) (now : Z) (callData : CallData)
  : CallData :=
  let stop := prop message "stop" in
  set_endTime (Some now)
    (set_accountSid (prop stop "account_sid")
       (set_callSid (prop stop "call_sid")
          (set_stopReason (prop stop "reason")
             (set_status "stopped" callData)))).

(** The acknowledgement of a stop ([kind = "stop"]) or of a transfer
    ([kind = "xfer"]): the two object literals differ in that name only. *)
Definition end_response (kind : string) (message : JsVal) : Exn + JsVal :=
  let p := prop message kind in
  match plus (prop message "sequence_number") 1 with
  | inl e => inl e
  | inr sequence_number =>
      inr (JObj [("event", JStr kind);
                 ("sequence_number", sequence_number);
                 ("stream_sid", prop message "stream_sid");
                 (kind,
                  JObj [("call_sid", prop p "call_sid");
                        ("account_sid", prop p "account_sid");
                        ("reason", prop p "reason")])])
  end.

(** [handleStopEvent].  The log line between the assignments and the
    acknowledgement prints [message.stop.reason]. *)
Definition handleStopEvent (callSid : string) (message : JsVal) (ws : nat)
    (now : Z) (σ : Server) : Outcome :=
  match callStorage σ !! callSid with
  | None => returns (σ, [])
  | Some callData =>
      if invalid_stop message then
        send_then ws (error_envelope message callSid "Invalid stop payload") [] σ
      else
        let σ := store callSid (stop_assignments message now callData) σ in
        if negb (converts (prop (prop message "stop") "reason")) then raise TypeError σ
        else
          send_then ws (end_response "stop" message)
            [setTimeout_ws_close ws 1000 1000 "Call ended"] σ
  end.

(** The assignments made for a valid xfer payload. *)
Definition xfer_assignments (message : JsVal) (now : Z) (callData : CallData)
  : CallData :=
  let xfer := prop message "xfer" in
  set_endTime (Some now)
    (set_accountSid (prop xfer "account_sid")
       (set_callSid (prop xfer "call_sid")
          (set_transferReason (prop xfer "reason")
             (set_status "transferred" callData)))).

(** [handleXferEvent].  The log line between the assignments and the
    acknowledgement prints the reason, the call sid and the account sid of
    the payload. *)
Definition handleXferEvent (callSid : string) (message : JsVal) (ws : nat)
    (now : Z) (σ : Server) : Outcome :=
  match callStorage σ !! callSid with
  | None => returns (σ, [])
  | Some callData =>
      if invalid_xfer message then
        send_then ws (error_envelope message callSid "Invalid xfer payload") [] σ
      else
        let xfer := prop message "xfer" in
        let σ := store callSid (xfer_assignments message now callData) σ in
        if negb (converts (prop xfer "reason") && converts (prop xfer "call_sid")
                 && converts (prop xfer "account_sid"))
        then raise TypeError σ
        else
          send_then ws (end_response "xfer" message)
            [setTimeout_ws_close ws 1000 1000 "Call transferred"] σ
  end.

(** The reply of the [default] case of the dispatcher. *)
Definition unknown_event_envelope (message : JsVal) (callSid : string) : Exn + JsVal :=
  match ToString (prop message "event") with
  | inl e => inl e
  | inr kind => error_envelope message callSid ("Unknown event type: " +:+ kind)
  end.

(** [handleWebSocketEvent].  [message] is whatever [JSON.parse] returned;
    when it is [null], reading [message.event] raises [TypeError] before
    anything is pushed or sent (the template of the [console.error] call in
    the first branch, the object literal passed to [push] in the second).
    After the push, the log line prints [message.event] and
    [message.sequence_number]: their conversion comes before the
    [switch]. *)
Definition handleWebSocketEvent (callSid : string) (message : JsVal) (ws : nat)
    (now : Z) (σ : Server) : Outcome :=
  match callStorage σ !! callSid with
  | None =>
      if nullish message then raise TypeError σ
      else if negb (converts (prop message "event")) then raise TypeError σ
      else send_then ws (error_envelope message callSid "Call data not found") [] σ
  | Some callData =>
      if nullish message then raise TypeError σ
      else
        let entry :=
          {| event := prop message "event";
             sequence_number := prop message "sequence_number";
             stream_sid := prop message "stream_sid";
             timestamp := now;
             payload := spread message |} in
        let σ := store callSid (set_events (events callData ++ [entry]) callData) σ in
        let kind := prop message "event" in
        if negb (converts kind && converts (prop message "sequence_number"))
        then raise TypeError σ
        else if is_str kind "start" then handleStartEvent callSid message ws σ
        else if is_str kind "media" then handleMediaEvent callSid message ws now σ
        else if is_str kind "stop" then handleStopEvent callSid message ws now σ
        else if is_str kind "xfer" then handleXferEvent callSid message ws now σ
        else send_then ws (unknown_event_envelope message callSid) [] σ
  end.

(** ** WebSocket listeners *)

(** [wss.on("connection")]: the admission check, then the bookkeeping.
    [tokenStorage.get(token) !== callSid] compares the stored session id,
    or [undefined], with the string of the query. *)
Definition on_connection (ws : nat) (callSid token : option string) (now : Z)
    (σ : Server) : Server * list WsAction :=
  match callSid, token with
  | Some c, Some t =>
      if negb (qtruthy callSid) || negb (qtruthy token)
         || negb (bool_decide (tokenStorage σ !! t = Some c)) then
        (σ, [ws_close ws 1008 "Invalid callSid or token"])
      else
        let σ := set_tokenStorage (delete t (tokenStorage σ)) σ in
        let σ := set_activeConnections (<[c := ws]> (activeConnections σ)) σ in
        match callStorage σ !! c with
        | Some callData =>
            (store c (set_wsConnectedTime (Some now) (set_status "connected" callData)) σ, [])
        | None => (σ, [])
        end
  | _, _ => (σ, [ws_close ws 1008 "Invalid callSid or token"])
  end.

(** The raw frame handed to the [message] listener, by what
    [JSON.parse(data.toString())] makes of it. *)
Inductive RawFrame : Type :=
| NotJSON (text : string)
| JSONText (document : JsVal).

Definition JSON_parse (data : RawFrame) : Exn + JsVal :=
  match data with
  | NotJSON _ => inl SyntaxError
  | JSONText v => inr v
  end.

(** The [catch] block of the [message] listener, given the binding of the
    identifier [message] that is visible there, if there is one:
    evaluating an identifier without a binding raises [ReferenceError],
    also under [?.], and that happens while the argument of [ws.send] is
    built, before anything is sent. *)
Definition message_catch (ws : nat) (callSid : string) (message : option JsVal)
    (σ : Server) : Outcome :=
  match message with
  | None => raise ReferenceError σ
  | Some m =>
      let seq := if nullish m then JUndefined else prop m "sequence_number" in
      send_then ws
        (match (if truthy seq then plus seq 1 else inr (JNum 0)) with
         | inl e => inl e
         | inr sequence_number =>
             inr (JObj [("event", JStr "error");
                        ("sequence_number", sequence_number);
                        ("stream_sid", JStr callSid);
                        ("error", JStr "Invalid JSON format")])
         end) [] σ
  end.

(** [ws.on("message")].  [const message] is declared inside the [try]
    block and is block-scoped; no enclosing scope of the [catch] block (the
    listener, the connection callback, the module, the global object)
    declares [message], so the [catch] block runs without a binding for it,
    on what [handleWebSocketEvent] had written and sent when it raised. *)
Definition on_message (ws : nat) (callSid : string) (data : RawFrame) (now : Z)
    (σ : Server) : Outcome :=
  match JSON_parse data with
  | inl _ => message_catch ws callSid None σ
  | inr message =>
      let o := handleWebSocketEvent callSid message ws now σ in
      match uncaught o with
      | None => o
      | Some _ =>
          let c := message_catch ws callSid None (server o) in
          {| server := server c; actions := actions o ++ actions c;
             uncaught := uncaught c |}
      end
  end.

(** [Math.round(num / den)] for an integer [num] and [den > 0]: the integer
    nearest to the quotient, a tie going up. *)
Definition Math_round_div (num den : Z) : Z := (2 * num + den) / (2 * den).

(** [ws.on("close")] *)
Definition on_close (callSid : string) (now : Z) (σ : Server) : Server :=
  let σ := set_activeConnections (delete callSid (activeConnections σ)) σ in
  match callStorage σ !! callSid with
  | None => σ
  | Some callData =>
      let callData := set_endTime (Some now) (set_status "disconnected" callData) in
      let callData :=
        match startTime callData with
        | Some startTime => set_duration (Some (Math_round_div (now - startTime) 1000)) callData
        | None => callData
        end in
      store callSid callData σ
  end.

(** ** The server driven by its inputs *)

(** The server together with the listeners registered on accepted sockets
    (each [message]/[close] listener is a closure over the [callSid] of its
    connection), everything done to sockets so far, and the exception that
    ended the process, if one left a listener. *)
Record Runtime : Type := {
  maps : Server;
  listeners : gmap nat string;
  log : list WsAction;
  failure : option Exn
}.

Definition boot : Runtime :=
  {| maps := empty_server; listeners := ∅; log := []; failure := None |}.

Inductive Input : Type :=
| GET_sampark (CallSid From To : option string) (token : string) (now : Z)
| WS_connection (ws : nat) (callSid token : option string) (now : Z)
| WS_message (ws : nat) (data : RawFrame) (now : Z)
| WS_close (ws : nat) (now : Z).

(** Whether the connection handler got past the admission check. *)
Definition passes_admission (callSid token : option string) (σ : Server) : bool :=
  match callSid, token with
  | Some c, Some t =>
      qtruthy callSid && qtruthy token && bool_decide (tokenStorage σ !! t = Some c)
  | _, _ => false
  end.

Definition step (i : Input) (r : Runtime) : Runtime :=
  match failure r with
  | Some _ => r
  | None =>
      match i with
      | GET_sampark c f t token now =>
          {| maps := (sampark c f t token now (maps r)).1;
             listeners := listeners r; log := log r; failure := None |}
      | WS_connection ws c t now =>
          let '(σ, acts) := on_connection ws c t now (maps r) in
          {| maps := σ;
             listeners := if passes_admission c t (maps r)
                          then <[ws := default "" c]> (listeners r)
                          else listeners r;
             log := log r ++ acts; failure := None |}
      | WS_message ws data now =>
          match listeners r !! ws with
          | None => r
          | Some callSid =>
              let o := on_message ws callSid data now (maps r) in
              {| maps := server o; listeners := listeners r;
                 log := log r ++ actions o; failure := uncaught o |}
          end
      | WS_close ws now =>
          match listeners r !! ws with
          | None => r
          | Some callSid =>
              {| maps := on_close callSid now (maps r);
                 listeners := delete ws (listeners r);
                 log := log r; failure := None |}
          end
      end
  end.

Definition run (inputs : list Input) (r : Runtime) : Runtime :=
  fold_left (fun r i => step i r) inputs r.

(** ** HTTP: the read-only endpoints *)

(** [callStorage.get(key)] for a key taken from a JSON body: the keys of
    [callStorage] are strings, and [Map] finds a key only under the same
    value. *)
Definition callStorage_get (key : JsVal) (σ : Server) : option CallData :=
  match key with
  | JStr s => callStorage σ !! s
  | _ => None
  end.

(** One element of [events_summary]. *)
Record EventSummary : Type := {
  summary_event : JsVal;
  summary_timestamp : Z;
  summary_sequence_number : JsVal;
  summary_payload : JsVal
}.

(** The object [summary] of [POST /call-summary]. *)
Record Summary : Type := {
  call_sid : JsVal;
  summary_from : JsVal;
  summary_to : JsVal;
  start_time : option Z;
  end_time : Z;
  summary_duration : Z;
  total_events : nat;
  audio_chunks_received : nat;
  final_status : string;
  events_summary : list EventSummary
}.

(** What [POST /call-summary] answers: [{status: "success", summary}], or
    a status code with [{error}]. *)
Inductive SummaryResponse : Type :=
| summary_success (summary : Summary)
| summary_error (code : Z) (error : string).

(** [POST /call-summary], given the parsed body.  Destructuring a body that
    is [undefined] raises, which the handler's [catch] turns into a 500. *)
Definition call_summary (body : JsVal) (now : Z) (σ : Server) : SummaryResponse :=
  if nullish body then summary_error 500 "Internal server error"
  else
    let CallSid := prop body "CallSid" in
    if falsy CallSid then summary_error 400 "Missing required parameter: CallSid"
    else
      match callStorage_get CallSid σ with
      | None => summary_error 404 "Call data not found"
      | Some callData =>
          summary_success
            {| call_sid := CallSid;
               summary_from := from callData;
               summary_to := to callData;
               start_time := startTime callData;
               end_time := default now (endTime callData);
               summary_duration := default 0 (duration callData);
               total_events := length (events callData);
               audio_chunks_received := length (audioChunks callData);
               final_status := status callData;
               events_summary :=
                 map (fun e =>
                        {| summary_event := event e;
                           summary_timestamp := timestamp e;
                           summary_sequence_number := sequence_number e;
                           summary_payload := payload e |})
                     (events callData) |}
      end.

(** The body of [GET /health]. *)
Record Health : Type := {
  health_timestamp : Z;
  active_calls : nat;
  total_calls : nat
}.

Definition health (now : Z) (σ : Server) : Health :=
  {| health_timestamp := now;
     active_calls := size (activeConnections σ);
     total_calls := size (callStorage σ) |}.

(** The body of [GET /call/:callSid]: the properties of the record, with
    [audioChunks] replaced by a text and [events] by a copy of the log. *)
Record CallDetails : Type := {
  details_callData : CallData;
  details_audioChunks : string;
  details_events : list EventEntry
}.

Inductive DetailsResponse : Type :=
| details_json (details : CallDetails)
| details_error (code : Z) (error : string).

(** [GET /call/:callSid]; a route parameter is a string. *)
Definition call_details (callSid : string) (σ : Server) : DetailsResponse :=
  match callStorage σ !! callSid with
  | None => details_error 404 "Call not found"
  | Some callData =>
      details_json
        {| details_callData := callData;
           details_audioChunks :=
             pretty (Z.of_nat (length (audioChunks callData))) +:+ " chunks received";
           details_events :=
             map (fun e =>
                    {| event := event e;
                       sequence_number := sequence_number e;
                       stream_sid := stream_sid e;
                       timestamp := timestamp e;
                       payload := payload e |})
                 (events callData) |}
  end.

(** ** A worked scenario

    The session of the specification's example: set-up of session [C1],
    its connection on socket 7, then envelopes built by the functions
    below. *)

Module Scenario.

Definition format (encoding : string) : JsVal :=
  JObj [("encoding", JStr encoding); ("sample_rate", JNum 8000); ("bit_rate", JNum 64000)].

Definition start_event (seq : Z) (media_format : JsVal) : JsVal :=
  JObj [("event", JStr "start"); ("sequence_number", JNum seq); ("stream_sid", JStr "S1");
        ("start",
         JObj [("stream_sid", JStr "S1"); ("call_sid", JStr "C1");
               ("account_sid", JStr "A1"); ("from", JStr "+1"); ("to", JStr "+2");
               ("media_format", media_format)])].

Definition media_event (seq chunk : Z) : JsVal :=
  JObj [("event", JStr "media"); ("sequence_number", JNum seq); ("stream_sid", JStr "S1");
        ("media",
         JObj [("chunk", JNum chunk); ("timestamp", JStr "1"); ("payload", JStr "QQ==")])].

Definition end_event (kind : string) (seq : Z) : JsVal :=
  JObj [("event", JStr kind); ("sequence_number", JNum seq); ("stream_sid", JStr "S1");
        (kind,
         JObj [("call_sid", JStr "C1"); ("account_sid", JStr "A1");
               ("reason", JStr "completed")])].

(** The properties of a media envelope with sequence number 1. *)
Definition media_fields : list (string * JsVal) :=
  [("event", JStr "media"); ("sequence_number", JNum 1);
   ("media", JObj [("chunk", JNum 1); ("timestamp", JStr "1"); ("payload", JStr "QQ==")])].

(** A media envelope with sequence number 4 whose chunk index and payload
    are any values. *)
Definition media_event_with (chunk payload : JsVal) : JsVal :=
  JObj [("event", JStr "media"); ("sequence_number", JNum 4);
        ("media", JObj [("chunk", chunk); ("timestamp", JStr "1"); ("payload", payload)])].

(** A start envelope whose sequence number is any value. *)
Definition start_event_with (seq : JsVal) (media_format : JsVal) : JsVal :=
  JObj [("event", JStr "start"); ("sequence_number", seq); ("stream_sid", JStr "S1");
        ("start",
         JObj [("stream_sid", JStr "S1"); ("call_sid", JStr "C1");
               ("account_sid", JStr "A1"); ("from", JStr "+1"); ("to", JStr "+2");
               ("media_format", media_format)])].

(** A start envelope that lacks [start.media_format]. *)
Definition start_event_without_format (seq : Z) : JsVal :=
  JObj [("event", JStr "start"); ("sequence_number", JNum seq); ("stream_sid", JStr "S1");
        ("start",
         JObj [("stream_sid", JStr "S1"); ("call_sid", JStr "C1");
               ("account_sid", JStr "A1"); ("from", JStr "+1"); ("to", JStr "+2")])].

Definition setup : list Input :=
  [GET_sampark (Some "C1") (Some "+1") (Some "+2") "t1" 0;
   WS_connection 7 (Some "C1") (Some "t1") 10].

(** The call of the example: start, one media chunk, stop. *)
Definition call : list Input :=
  [WS_message 7 (JSONText (start_event 0 (format "pcmu"))) 20;
   WS_message 7 (JSONText (media_event 1 1)) 30;
   WS_message 7 (JSONText (end_event "stop" 2)) 40].

(** The session record once socket 7 is connected. *)
Definition connected_record : CallData :=
  {| callSid := JStr "C1"; from := JStr "+1"; to := JStr "+2";
     startTime := Some 0; status := "connected";
     events := []; audioChunks := [];
     wsConnectedTime := Some 10; mediaFormat := JUndefined;
     accountSid := JUndefined; stopReason := JUndefined;
     transferReason := JUndefined; endTime := None; duration := None |}.

(** Two set-up requests for the same session, each drawing its own token,
    then a connection with the first token. *)
Definition two_tokens : list Input :=
  [GET_sampark (Some "C1") (Some "+1") (Some "+2") "t1" 0;
   GET_sampark (Some "C1") (Some "+1") (Some "+2") "t2" 5;
   WS_connection 7 (Some "C1") (Some "t1") 10].

(** The session record after [setup] and [call]. *)
Definition stopped_record : CallData :=
  Eval vm_compute in
    default connected_record (callStorage (maps (run (setup ++ call) boot)) !! "C1").

(** Three envelopes with their arrival times: a start, a media envelope
    whose chunk index is 0 (so it fails the check), a valid media
    envelope. *)
Definition mixed : list (JsVal * Z) :=
  [(start_event 0 (format "pcmu"), 20); (media_event 1 0, 30); (media_event 2 1, 35)].

End Scenario.

(** * Verification *)

(** ** Reading the model *)

Definition status_of (callSid : string) (σ : Server) : option string :=
  status <$> callStorage σ !! callSid.

Definition mediaFormat_of (callSid : string) (σ : Server) : option JsVal :=
  mediaFormat <$> callStorage σ !! callSid.

(** The entry that [handleWebSocketEvent] appends to the event log. *)
Definition log_entry (message : JsVal) (now : Z) : EventEntry :=
  {| event := prop message "event";
     sequence_number := prop message "sequence_number";
     stream_sid := prop message "stream_sid";
     timestamp := now;
     payload := spread message |}.

Definition logged (message : JsVal) (now : Z) (d : CallData) : CallData :=
  set_events (events d ++ [log_entry message now]) d.

(** An inbound envelope of a given kind that passes the handler's check. *)
Definition valid_start (m : JsVal) : bool :=
  is_str (prop m "event") "start" && negb (invalid_start m).
Definition valid_media (m : JsVal) : bool :=
  is_str (prop m "event") "media" && negb (invalid_media m).
Definition valid_stop (m : JsVal) : bool :=
  is_str (prop m "event") "stop" && negb (invalid_stop m).
Definition valid_xfer (m : JsVal) : bool :=
  is_str (prop m "event") "xfer" && negb (invalid_xfer m).

(** The log line of the dispatcher prints the kind and the sequence
    number of the envelope: the [switch] is reached when both convert to
    text. *)
Definition dispatched (m : JsVal) : bool :=
  converts (prop m "event") && converts (prop m "sequence_number").

(** What the [message] listener leaves in the session record, by cases on
    the envelope (shown to be so in [on_message_record]), whether it
    returns or raises. *)
Definition record_after (m : JsVal) (now : Z) (d : CallData) : CallData :=
  if negb (dispatched m) then logged m now d
  else if valid_start m then start_assignments m (logged m now d)
  else if valid_media m then media_assignments m now (logged m now d)
  else if valid_stop m then stop_assignments m now (logged m now d)
  else if valid_xfer m then xfer_assignments m now (logged m now d)
  else logged m now d.

(** A document on which the listener evaluates no conversion that raises:
    it is not [null], its kind and sequence number convert to text, and so
    does what the handler of a valid envelope prints or computes with (the
    media format of a start, the chunk index of a media envelope, the
    reason of a stop, the reason and the two ids of an xfer). *)
Definition plain (m : JsVal) : bool :=
  negb (nullish m) && dispatched m
  && (if valid_start m then converts (prop (prop m "start") "media_format")
      else if valid_media m then converts (prop (prop m "media") "chunk")
      else if valid_stop m then converts (prop (prop m "stop") "reason")
      else if valid_xfer m then
        converts (prop (prop m "xfer") "reason")
        && converts (prop (prop m "xfer") "call_sid")
        && converts (prop (prop m "xfer") "account_sid")
      else true).

(** What an expression evaluates to when it does not raise. *)
Definition value (r : Exn + JsVal) : JsVal :=
  match r with
  | inr v => v
  | inl _ => JUndefined
  end.

(** The inputs that deliver a list of timed envelopes on one socket. *)
Definition deliver (ws : nat) (envelopes : list (JsVal * Z)) : list Input :=
  map (fun e => WS_message ws (JSONText e.1) e.2) envelopes.

(** Socket [ws] carries the listeners of session [callSid], the process is
    running, and the session has a record. *)
Definition bound (r : Runtime) (ws : nat) (callSid : string) : Prop :=
  failure r = None
  ∧ listeners r !! ws = Some callSid
  ∧ is_Some (callStorage (maps r) !! callSid).

(** Input [i] is a set-up request for which the token drawn is [t]. *)
Definition issues (t : string) (i : Input) : Prop :=
  match i with
  | GET_sampark _ _ _ t' _ => t' = t
  | _ => False
  end.

(** The statuses the code assigns. *)
Definition statuses : list string :=
  ["initiated"; "connected"; "started"; "stopped"; "transferred"; "disconnected"].

Definition well_formed (d : CallData) : Prop :=
  status d ∈ statuses ∧ is_Some (startTime d).

(** Records are never removed, and stay well formed. *)
Definition evolves (m m' : gmap string CallData) : Prop :=
  (∀ c, is_Some (m !! c) → is_Some (m' !! c))
  ∧ ((∀ c d, m !! c = Some d → well_formed d) → ∀ c d, m' !! c = Some d → well_formed d).

(** What holds of the server however it was driven: a token, and the
    listeners of a socket, refer to a session that has a record, and every
    record is well formed. *)
Definition consistent (r : Runtime) : Prop :=
  (∀ t c, tokenStorage (maps r) !! t = Some c → is_Some (callStorage (maps r) !! c))
  ∧ (∀ ws c, listeners r !! ws = Some c → is_Some (callStorage (maps r) !! c))
  ∧ (∀ c d, callStorage (maps r) !! c = Some d → well_formed d).

(** [path] read from [v] with [?.] at every step. *)
Fixpoint read_path (v : JsVal) (path : list string) : JsVal :=
  match path with
  | [] => v
  | k :: rest => if nullish v then JUndefined else read_path (prop v k) rest
  end.

(** The property paths each handler's check reads, by event kind. *)
Definition required (kind : string) : list (list string) :=
  if String.eqb kind "start" then
    [["start"; "stream_sid"]; ["start"; "call_sid"]; ["start"; "account_sid"];
     ["start"; "from"]; ["start"; "to"];
     ["start"; "media_format"; "encoding"];
     ["start"; "media_format"; "sample_rate"];
     ["start"; "media_format"; "bit_rate"]]
  else if String.eqb kind "media" then
    [["media"; "chunk"]; ["media"; "payload"]; ["media"; "timestamp"]]
  else if String.eqb kind "stop" then
    [["stop"; "call_sid"]; ["stop"; "account_sid"]; ["stop"; "reason"]]
  else if String.eqb kind "xfer" then
    [["xfer"; "call_sid"]; ["xfer"; "account_sid"]; ["xfer"; "reason"]]
  else [].

(** The handler's check for an event kind. *)
Definition invalid (kind : string) (message : JsVal) : bool :=
  if String.eqb kind "start" then invalid_start message
  else if String.eqb kind "media" then invalid_media message
  else if String.eqb kind "stop" then invalid_stop message
  else if String.eqb kind "xfer" then invalid_xfer message
  else false.

Definition frames_sent (acts : list WsAction) : list JsVal :=
  omap (fun a => match a with ws_send _ data => Some data | _ => None end) acts.

(** Input [i] is a set-up request for session [c]. *)
Definition sets_up (c : string) (i : Input) : Prop :=
  match i with
  | GET_sampark (Some c') _ _ _ _ => c' = c
  | _ => False
  end.

(** Every connection in [inputs], run from [r], is made on a socket that
    carries no listeners yet (a connection creates its socket). *)
Fixpoint fresh_sockets (inputs : list Input) (r : Runtime) : Prop :=
  match inputs with
  | [] => True
  | i :: rest =>
      match i with
      | WS_connection ws _ _ _ => listeners r !! ws = None
      | _ => True
      end
      ∧ fresh_sockets rest (step i r)
  end.

(** What follows the reply to an envelope: the scheduled close of the
    socket after a valid stop or xfer. *)
Definition scheduled_close (ws : nat) (m : JsVal) : list WsAction :=
  if valid_stop m then [setTimeout_ws_close ws 1000 1000 "Call ended"]
  else if valid_xfer m then [setTimeout_ws_close ws 1000 1000 "Call transferred"]
  else [].

(** Record [d'] continues record [d]: the event log and the chunk list of
    [d] are the beginning of those of [d'], and the start time is the
    same. *)
Definition continues (d d' : CallData) : Prop :=
  events d `prefix_of` events d'
  ∧ audioChunks d `prefix_of` audioChunks d'
  ∧ startTime d' = startTime d.

(** The registry holds only sockets that carry the listeners of the
    session they are registered for. *)
Definition registry_bound (r : Runtime) : Prop :=
  ∀ c ws, activeConnections (maps r) !! c = Some ws → listeners r !! ws = Some c.

(** The action sends the error envelope of the dispatcher's first branch,
    "Call data not found". *)
Definition reports_missing_record (a : WsAction) : Prop :=
  match a with
  | ws_send _ e => prop e "error" = JStr "Call data not found"
  | _ => False
  end.

(** ** Basic facts *)

Lemma is_str_true v s : is_str v s = true ↔ v = JStr s.
Proof.
  destruct v; simpl; split; try discriminate.
  - intros H. apply String.eqb_eq in H. by subst.
  - intros [= ->]. apply String.eqb_refl.
Qed.

Lemma prop_event_not_nullish m s : prop m "event" = JStr s → nullish m = false.
Proof. by destruct m. Qed.

Lemma callStorage_store c d σ :
  callStorage (store c d σ) = <[c := d]> (callStorage σ).
Proof. reflexivity. Qed.

Lemma lookup_store c d σ : callStorage (store c d σ) !! c = Some d.
Proof. rewrite callStorage_store. apply lookup_insert_eq. Qed.

Lemma lookup_store_ne c c' d σ :
  c ≠ c' → callStorage (store c d σ) !! c' = callStorage σ !! c'.
Proof. intros. rewrite callStorage_store. by apply lookup_insert_ne. Qed.

Lemma store_store c d d' σ : store c d' (store c d σ) = store c d' σ.
Proof.
  unfold store, set_callStorage; simpl. f_equal. apply insert_insert_eq.
Qed.

Lemma tokenStorage_store c d σ : tokenStorage (store c d σ) = tokenStorage σ.
Proof. reflexivity. Qed.

Lemma to_double_safe z : isSafeInteger z → to_double z = z.
Proof.
  unfold isSafeInteger, to_double. intros H. cbv zeta.
  destruct (Z.ltb_spec (Z.abs z) (2 ^ 53)) as [|Hge]; [done|].
  change (2 ^ 53) with 9007199254740992 in Hge. lia.
Qed.

(** Past the safe range the sum is rounded: [2^53 + 1] is [2^53]. *)
Example plus_unsafe : plus (JNum 9007199254740992) 1 = inr (JNum 9007199254740992).
Proof. reflexivity. Qed.

(** On safe integers [+] is the sum. *)
Lemma plus_safe n k : isSafeInteger (n + k) → plus (JNum n) k = inr (JNum (n + k)).
Proof. intros H. unfold plus. by rewrite to_double_safe. Qed.

(** From [10^21] on a number prints in exponent form. *)
Example Number_toString_exponent :
  Number_toString (10 ^ 21) = "1e+21"
  ∧ Number_toString (2 ^ 64) = "18446744073709552000"
  ∧ Number_toString (- 2 ^ 70) = "-1.1805916207174113e+21"
  ∧ Number_toString (2 ^ 53) = "9007199254740992".
Proof. repeat split; vm_compute; reflexivity. Qed.

(** An object with an own [toString] property does not convert, nor does
    an array that holds one; an object without, and an array of
    primitives, do. *)
Example converts_examples :
  converts (JObj [("toString", JNum 1)]) = false
  ∧ converts (JArr [JNum 1; JObj [("toString", JNull)]]) = false
  ∧ ToString (JObj [("a", JNum 1)]) = inr "[object Object]"
  ∧ ToString (JArr [JNum 1; JNull; JStr "a"]) = inr "1,,a".
Proof. repeat split. Qed.

Lemma converts_ToString v : converts v = true → ∃ s, ToString v = inr s.
Proof. unfold converts. destruct (ToString v); [done|by eexists]. Qed.

(** [v + k] raises exactly when [v] does not convert. *)
Lemma plus_converts v k : converts v = true → plus v k = inr (value (plus v k)).
Proof.
  intros [s Hs]%converts_ToString. unfold plus.
  destruct v; try reflexivity; by rewrite Hs.
Qed.

Lemma plus_inr_converts v k w : plus v k = inr w → converts v = true.
Proof.
  unfold plus, converts. destruct v as [| |[]| | | | |]; try done;
    by destruct (ToString _).
Qed.

(** [+] never yields [undefined], so [JSON.stringify] keeps the
    [sequence_number] of every envelope. *)
Lemma plus_defined v k : value (plus v k) = JUndefined → converts v = false.
Proof.
  unfold plus, converts. destruct v as [| |[]| | | | |]; try discriminate;
    by destruct (ToString _).
Qed.

Lemma stringify_field k v rest :
  v ≠ JUndefined →
  JSON_stringify (JObj ((k, v) :: rest)) =
    JObj ((k, JSON_stringify v)
            :: match JSON_stringify (JObj rest) with JObj l => l | _ => [] end).
Proof. intros H. by destruct v. Qed.

Lemma error_envelope_converts message callSid error :
  converts (prop message "sequence_number") = true →
  error_envelope message callSid error =
    inr (JObj [("event", JStr "error");
               ("sequence_number", value (plus (prop message "sequence_number") 1));
               ("stream_sid", JStr callSid);
               ("error", JStr error)]).
Proof. intros H. unfold error_envelope. by rewrite (plus_converts _ _ H). Qed.

Lemma stringify_error_envelope message callSid error :
  converts (prop message "sequence_number") = true →
  JSON_stringify (value (error_envelope message callSid error)) =
  JObj [("event", JStr "error");
        ("sequence_number", JSON_stringify (value (plus (prop message "sequence_number") 1)));
        ("stream_sid", JStr callSid);
        ("error", JStr error)].
Proof.
  intros H. rewrite error_envelope_converts by done. cbn [value].
  destruct (value (plus (prop message "sequence_number") 1)) eqn:E; try reflexivity.
  apply plus_defined in E. congruence.
Qed.

Lemma start_response_converts m :
  converts (prop m "sequence_number") = true →
  start_response m = inr (value (start_response m)).
Proof. intros H. unfold start_response. by rewrite (plus_converts _ _ H). Qed.

Lemma echoResponse_converts callSid m now :
  converts (prop m "sequence_number") = true →
  echoResponse callSid m now = inr (value (echoResponse callSid m now)).
Proof. intros H. unfold echoResponse. by rewrite (plus_converts _ _ H). Qed.

Lemma end_response_converts kind m :
  converts (prop m "sequence_number") = true →
  end_response kind m = inr (value (end_response kind m)).
Proof. intros H. unfold end_response. by rewrite (plus_converts _ _ H). Qed.

Lemma dispatched_inv m :
  dispatched m = true →
  converts (prop m "event") = true ∧ converts (prop m "sequence_number") = true.
Proof. unfold dispatched. by intros ?%andb_true_iff. Qed.

Lemma dispatched_kind m kind :
  prop m "event" = JStr kind →
  dispatched m = converts (prop m "sequence_number").
Proof. intros H. unfold dispatched. by rewrite H. Qed.

(** No placeholder of [console.log] raises on a value that converts. *)
Lemma console_log_converts format arg :
  converts arg = true → console_log_raises format arg = false.
Proof.
  intros H. unfold console_log_raises. rewrite H.
  destruct (first_placeholder format); [apply andb_false_r|done].
Qed.

(** ** Outcomes of [send_then] and [raise] *)

Lemma server_send_then ws e rest σ : server (send_then ws e rest σ) = σ.
Proof. by destruct e. Qed.

Lemma send_then_inr ws v rest σ :
  send_then ws (inr v) rest σ =
    {| server := σ; actions := ws_send ws (JSON_stringify v) :: rest; uncaught := None |}.
Proof. reflexivity. Qed.

(** A handler that raises has sent nothing. *)
Lemma send_then_raises ws e rest σ :
  uncaught (send_then ws e rest σ) ≠ None → actions (send_then ws e rest σ) = [].
Proof. by destruct e. Qed.

(** ** The handlers, case by case *)

Section Handlers.
Context (callSid : string) (ws : nat) (now : Z) (σ : Server) (d : CallData).
Hypothesis Hrecord : callStorage σ !! callSid = Some d.

Lemma handleStartEvent_invalid m :
  invalid_start m = true →
  handleStartEvent callSid m ws σ =
    send_then ws (error_envelope m callSid "Invalid start payload") [] σ.
Proof. intros H. unfold handleStartEvent. by rewrite Hrecord, H. Qed.

Lemma handleMediaEvent_invalid m :
  invalid_media m = true →
  handleMediaEvent callSid m ws now σ =
    send_then ws (error_envelope m callSid "Invalid media payload") [] σ.
Proof. intros H. unfold handleMediaEvent. by rewrite Hrecord, H. Qed.

Lemma handleStopEvent_invalid m :
  invalid_stop m = true →
  handleStopEvent callSid m ws now σ =
    send_then ws (error_envelope m callSid "Invalid stop payload") [] σ.
Proof. intros H. unfold handleStopEvent. by rewrite Hrecord, H. Qed.

Lemma handleXferEvent_invalid m :
  invalid_xfer m = true →
  handleXferEvent callSid m ws now σ =
    send_then ws (error_envelope m callSid "Invalid xfer payload") [] σ.
Proof. intros H. unfold handleXferEvent. by rewrite Hrecord, H. Qed.

Lemma handleStartEvent_valid m :
  invalid_start m = false →
  handleStartEvent callSid m ws σ =
    let σ' := store callSid (start_assignments m d) σ in
    if console_log_raises ("[" +:+ callSid +:+ "] Call started with media format:")
         (prop (prop m "start") "media_format")
    then raise TypeError σ'
    else send_then ws (start_response m) [] σ'.
Proof. intros H. unfold handleStartEvent. by rewrite Hrecord, H. Qed.

Lemma handleMediaEvent_valid m :
  invalid_media m = false →
  handleMediaEvent callSid m ws now σ =
    let σ' := store callSid (media_assignments m now d) σ in
    if negb (converts (prop (prop m "media") "chunk")) then raise TypeError σ'
    else
      match media_try callSid m now with
      | inr echo => send_then ws (inr echo) [] σ'
      | inl _ => send_then ws (error_envelope m callSid "Failed to process audio chunk") [] σ'
      end.
Proof. intros H. unfold handleMediaEvent. by rewrite Hrecord, H. Qed.

Lemma handleStopEvent_valid m :
  invalid_stop m = false →
  handleStopEvent callSid m ws now σ =
    let σ' := store callSid (stop_assignments m now d) σ in
    if negb (converts (prop (prop m "stop") "reason")) then raise TypeError σ'
    else
      send_then ws (end_response "stop" m)
        [setTimeout_ws_close ws 1000 1000 "Call ended"] σ'.
Proof. intros H. unfold handleStopEvent. by rewrite Hrecord, H. Qed.

Lemma handleXferEvent_valid m :
  invalid_xfer m = false →
  handleXferEvent callSid m ws now σ =
    let σ' := store callSid (xfer_assignments m now d) σ in
    if negb (converts (prop (prop m "xfer") "reason")
             && converts (prop (prop m "xfer") "call_sid")
             && converts (prop (prop m "xfer") "account_sid"))
    then raise TypeError σ'
    else
      send_then ws (end_response "xfer" m)
        [setTimeout_ws_close ws 1000 1000 "Call transferred"] σ'.
Proof. intros H. unfold handleXferEvent. by rewrite Hrecord, H. Qed.

(** With a record in place and a message that is not [null], the
    dispatcher logs the envelope, prints its log line and returns what the
    kind's handler returns. *)
Lemma handleWebSocketEvent_logged m :
  nullish m = false →
  handleWebSocketEvent callSid m ws now σ =
    let σ1 := store callSid (logged m now d) σ in
    let kind := prop m "event" in
    if negb (dispatched m) then raise TypeError σ1
    else if is_str kind "start" then handleStartEvent callSid m ws σ1
    else if is_str kind "media" then handleMediaEvent callSid m ws now σ1
    else if is_str kind "stop" then handleStopEvent callSid m ws now σ1
    else if is_str kind "xfer" then handleXferEvent callSid m ws now σ1
    else send_then ws (unknown_event_envelope m callSid) [] σ1.
Proof. intros H. unfold handleWebSocketEvent. by rewrite Hrecord, H. Qed.
End Handlers.

(** The [message] listener on a document: what [handleWebSocketEvent]
    wrote and sent, and a [ReferenceError] from the [catch] block if it
    raised. *)
Lemma on_message_parsed ws callSid m now σ :
  on_message ws callSid (JSONText m) now σ =
    let o := handleWebSocketEvent callSid m ws now σ in
    {| server := server o; actions := actions o;
       uncaught := match uncaught o with
                   | None => None
                   | Some _ => Some ReferenceError
                   end |}.
Proof.
  unfold on_message, JSON_parse. cbv zeta.
  destruct (handleWebSocketEvent callSid m ws now σ) as [s a [e|]]; cbn; [|done].
  by rewrite app_nil_r.
Qed.

(** ** Validation failures (C9, C10) *)

Lemma nullish_falsy v : nullish v = true → falsy v = true.
Proof. by destruct v. Qed.

Lemma undefined_falsy v : v = JUndefined → falsy v = true.
Proof. by intros ->. Qed.

Lemma prop_nullish v k : nullish v = true → prop v k = JUndefined.
Proof. by destruct v. Qed.

(** A required property that is absent makes the handler's check fire,
    wherever on its path the chain of reads breaks. *)
Lemma missing_is_invalid kind m path :
  path ∈ required kind → read_path m path = JUndefined → invalid kind m = true.
Proof.
  unfold required, invalid.
  repeat (destruct (String.eqb kind _));
    intros Hin Hread;
    repeat (apply elem_of_cons in Hin as [-> | Hin]);
    try (by apply elem_of_nil in Hin);
    unfold invalid_start, invalid_media, invalid_stop, invalid_xfer, invalid_end;
    cbn [read_path] in Hread;
    repeat match type of Hread with
      | (if nullish ?v then _ else _) = _ =>
          let E := fresh "E" in
          destruct (nullish v) eqn:E;
          [ first [ rewrite (nullish_falsy v E)
                  | rewrite (prop_nullish _ _ E); cbn [prop falsy truthy negb] ]
          | ]
      end;
    try rewrite (undefined_falsy _ Hread);
    rewrite ?orb_true_r; reflexivity.
Qed.

Lemma on_message_invalid ws callSid now σ d kind m :
  callStorage σ !! callSid = Some d →
  kind ∈ ["start"; "media"; "stop"; "xfer"] →
  prop m "event" = JStr kind →
  invalid kind m = true →
  converts (prop m "sequence_number") = true →
  on_message ws callSid (JSONText m) now σ =
    {| server := store callSid (logged m now d) σ;
       actions := [ws_send ws
                     (JSON_stringify
                        (value
                           (error_envelope m callSid ("Invalid " +:+ kind +:+ " payload"))))];
       uncaught := None |}.
Proof.
  intros Hd Hkind Hev Hinv Hseq.
  rewrite on_message_parsed.
  rewrite (handleWebSocketEvent_logged _ _ _ _ d Hd) by (by eapply prop_event_not_nullish).
  cbv zeta. rewrite (dispatched_kind m kind Hev), Hseq, Hev. cbn [negb].
  repeat (apply elem_of_cons in Hkind as [-> | Hkind]);
    try (by apply elem_of_nil in Hkind);
    cbn [is_str String.eqb Ascii.eqb Bool.eqb]; cbv beta iota;
    unfold invalid in Hinv; cbn in Hinv.
  - rewrite (handleStartEvent_invalid _ _ _ (logged m now d)) by (apply lookup_store || done).
    by rewrite !error_envelope_converts by done.
  - rewrite (handleMediaEvent_invalid _ _ _ _ (logged m now d)) by (apply lookup_store || done).
    by rewrite !error_envelope_converts by done.
  - rewrite (handleStopEvent_invalid _ _ _ _ (logged m now d)) by (apply lookup_store || done).
    by rewrite !error_envelope_converts by done.
  - rewrite (handleXferEvent_invalid _ _ _ _ (logged m now d)) by (apply lookup_store || done).
    by rewrite !error_envelope_converts by done.
Qed.

(** C9.  A well-formed envelope of one of the four kinds with a required
    property missing: the listener returns normally, sends exactly one
    frame, an error envelope whose sequence number is the inbound one plus
    1 (the inbound number being an integer [S] with [S + 1] safe), and the
    only change to the session record is the new entry at the end of its
    event log (status and media format are as before). *)
Theorem validation_error_reply ws callSid now σ d kind m S path :
  callStorage σ !! callSid = Some d →
  kind ∈ ["start"; "media"; "stop"; "xfer"] →
  prop m "event" = JStr kind →
  path ∈ required kind →
  read_path m path = JUndefined →
  prop m "sequence_number" = JNum S →
  isSafeInteger (S + 1) →
  let o := on_message ws callSid (JSONText m) now σ in
  uncaught o = None
  ∧ actions o =
      [ws_send ws
         (JObj [("event", JStr "error");
                ("sequence_number", JNum (S + 1));
                ("stream_sid", JStr callSid);
                ("error", JStr ("Invalid " +:+ kind +:+ " payload"))])]
  ∧ ∃ d', callStorage (server o) !! callSid = Some d'
      ∧ status d' = status d
      ∧ mediaFormat d' = mediaFormat d
      ∧ events d' = (events d ++ [log_entry m now])%list.
Proof.
  intros Hd Hkind Hev Hpath Hmiss Hseq Hsafe o. subst o.
  rewrite (on_message_invalid ws callSid now σ d kind m Hd Hkind Hev)
    by ((by eapply missing_is_invalid) || by rewrite Hseq).
  cbn [uncaught actions server].
  rewrite stringify_error_envelope by (by rewrite Hseq).
  rewrite Hseq, plus_safe by done. cbn [value JSON_stringify].
  split; [done|]. split; [done|].
  exists (logged m now d). by rewrite lookup_store.
Qed.

Lemma present_falsy_is_invalid_media m media k v :
  prop m "media" = JObj media →
  k ∈ ["payload"; "chunk"; "timestamp"] →
  lookup_field k media = Some v →
  truthy v = false →
  invalid_media m = true.
Proof.
  intros Hm Hk Hv Hf. unfold invalid_media. rewrite Hm.
  assert (falsy (prop (JObj media) k) = true) as Hfalsy.
  { unfold falsy, prop. rewrite Hv. simpl. by rewrite Hf. }
  repeat (apply elem_of_cons in Hk as [-> | Hk]);
    try (by apply elem_of_nil in Hk);
    rewrite Hfalsy, ?orb_true_r; reflexivity.
Qed.

(** C10.  A media envelope whose [media.chunk], [media.payload] or
    [media.timestamp] is present with a falsy value (the number 0, the
    empty string, ...), and whose sequence number converts to text (as
    every number does), is answered with the "Invalid media payload" error
    envelope and nothing is recorded as an audio chunk: the check tests
    truthiness, not presence. *)
Theorem falsy_media_field_rejected ws callSid now σ d m media k v :
  callStorage σ !! callSid = Some d →
  prop m "event" = JStr "media" →
  converts (prop m "sequence_number") = true →
  prop m "media" = JObj media →
  k ∈ ["payload"; "chunk"; "timestamp"] →
  lookup_field k media = Some v →
  truthy v = false →
  let o := on_message ws callSid (JSONText m) now σ in
  uncaught o = None
  ∧ (∃ e, actions o = [ws_send ws e]
        ∧ prop e "event" = JStr "error"
        ∧ prop e "error" = JStr "Invalid media payload")
  ∧ ∃ d', callStorage (server o) !! callSid = Some d'
      ∧ audioChunks d' = audioChunks d
      ∧ status d' = status d.
Proof.
  intros Hd Hev Hseq Hm Hk Hv Hf o. subst o.
  rewrite (on_message_invalid ws callSid now σ d "media" m Hd) ; try done.
  - cbn [uncaught actions server]. split; [done|]. split.
    + eexists. split; [reflexivity|]. by rewrite stringify_error_envelope.
    + exists (logged m now d). by rewrite lookup_store.
  - apply list_elem_of_further, list_elem_of_here.
  - unfold invalid; cbn. by eapply present_falsy_is_invalid_media.
Qed.

Lemma validation_error_reply_witness :
  let o := on_message 7 "C1" (JSONText (Scenario.start_event_without_format 4)) 20
             (maps (run Scenario.setup boot)) in
  uncaught o = None
  ∧ actions o =
      [ws_send 7
         (JObj [("event", JStr "error");
                ("sequence_number", JNum (4 + 1));
                ("stream_sid", JStr "C1");
                ("error", JStr ("Invalid " +:+ "start" +:+ " payload"))])]
  ∧ ∃ d', callStorage (server o) !! "C1" = Some d'
      ∧ status d' = status Scenario.connected_record
      ∧ mediaFormat d' = mediaFormat Scenario.connected_record
      ∧ events d' =
          (events Scenario.connected_record
             ++ [log_entry (Scenario.start_event_without_format 4) 20])%list.
Proof.
  apply (validation_error_reply 7 "C1" 20 (maps (run Scenario.setup boot))
           Scenario.connected_record "start"
           (Scenario.start_event_without_format 4) 4
           ["start"; "media_format"; "encoding"]).
  - vm_compute. reflexivity.
  - apply list_elem_of_here.
  - reflexivity.
  - vm_compute. do 5 apply list_elem_of_further. apply list_elem_of_here.
  - reflexivity.
  - reflexivity.
  - unfold isSafeInteger. simpl. lia.
Defined.

Lemma falsy_media_field_rejected_witness :
  let o := on_message 7 "C1" (JSONText (Scenario.media_event 5 0)) 20
             (maps (run Scenario.setup boot)) in
  uncaught o = None
  ∧ (∃ e, actions o = [ws_send 7 e]
        ∧ prop e "event" = JStr "error"
        ∧ prop e "error" = JStr "Invalid media payload")
  ∧ ∃ d', callStorage (server o) !! "C1" = Some d'
      ∧ audioChunks d' = audioChunks Scenario.connected_record
      ∧ status d' = status Scenario.connected_record.
Proof.
  apply (falsy_media_field_rejected 7 "C1" 20 (maps (run Scenario.setup boot))
           Scenario.connected_record (Scenario.media_event 5 0)
           [("chunk", JNum 0); ("timestamp", JStr "1"); ("payload", JStr "QQ==")]
           "chunk" (JNum 0)).
  - vm_compute. reflexivity.
  - reflexivity.
  - reflexivity.
  - reflexivity.
  - apply list_elem_of_further, list_elem_of_here.
  - reflexivity.
  - reflexivity.
Defined.

(** The check of C10 comes after the dispatcher's log line: when the
    sequence number of such an envelope does not convert to text, the
    listener raises and sends nothing. *)
Example falsy_media_field_unanswered :
  let o := on_message 7 "C1"
             (JSONText (JObj [("event", JStr "media");
                              ("sequence_number", JObj [("toString", JNum 1)]);
                              ("media", JObj [("chunk", JNum 0); ("timestamp", JStr "1");
                                              ("payload", JStr "QQ==")])]))
             20 (maps (run Scenario.setup boot)) in
  uncaught o = Some ReferenceError ∧ actions o = [].
Proof. split; vm_compute; reflexivity. Qed.

(** ** The [message] listener on a valid envelope *)

Lemma valid_start_inv m :
  valid_start m = true → prop m "event" = JStr "start" ∧ invalid_start m = false.
Proof.
  unfold valid_start. intros [H1 H2]%andb_true_iff.
  apply is_str_true in H1. by apply negb_true_iff in H2.
Qed.

Lemma valid_media_inv m :
  valid_media m = true → prop m "event" = JStr "media" ∧ invalid_media m = false.
Proof.
  unfold valid_media. intros [H1 H2]%andb_true_iff.
  apply is_str_true in H1. by apply negb_true_iff in H2.
Qed.

Lemma valid_stop_inv m :
  valid_stop m = true → prop m "event" = JStr "stop" ∧ invalid_stop m = false.
Proof.
  unfold valid_stop. intros [H1 H2]%andb_true_iff.
  apply is_str_true in H1. by apply negb_true_iff in H2.
Qed.

Lemma valid_xfer_inv m :
  valid_xfer m = true → prop m "event" = JStr "xfer" ∧ invalid_xfer m = false.
Proof.
  unfold valid_xfer. intros [H1 H2]%andb_true_iff.
  apply is_str_true in H1. by apply negb_true_iff in H2.
Qed.

Lemma plain_inv m :
  plain m = true →
  nullish m = false ∧ dispatched m = true
  ∧ (valid_start m = true → converts (prop (prop m "start") "media_format") = true)
  ∧ (valid_media m = true → converts (prop (prop m "media") "chunk") = true)
  ∧ (valid_stop m = true → converts (prop (prop m "stop") "reason") = true)
  ∧ (valid_xfer m = true →
       converts (prop (prop m "xfer") "reason")
       && converts (prop (prop m "xfer") "call_sid")
       && converts (prop (prop m "xfer") "account_sid") = true).
Proof.
  unfold plain. intros [[Hn Hd]%andb_true_iff H]%andb_true_iff.
  apply negb_true_iff in Hn. split; [done|]. split; [done|].
  pose proof (valid_start_inv m) as Hs. pose proof (valid_media_inv m) as Hm.
  pose proof (valid_stop_inv m) as Ht. pose proof (valid_xfer_inv m) as Hx.
  destruct (valid_start m).
  { destruct (Hs eq_refl) as [Hev _].
    unfold valid_media, valid_stop, valid_xfer. rewrite Hev. by cbn. }
  destruct (valid_media m).
  { destruct (Hm eq_refl) as [Hev _].
    unfold valid_stop, valid_xfer. rewrite Hev. by cbn. }
  destruct (valid_stop m).
  { destruct (Ht eq_refl) as [Hev _].
    unfold valid_xfer. rewrite Hev. by cbn. }
  by destruct (valid_xfer m).
Qed.

Section Listener.
Context (callSid : string) (ws : nat) (now : Z) (σ : Server) (d : CallData).
Hypothesis Hrecord : callStorage σ !! callSid = Some d.

(** Enter the dispatcher with an envelope whose kind is known and whose
    sequence number converts. *)
Ltac dispatch Hev Hseq :=
  rewrite on_message_parsed;
  rewrite (handleWebSocketEvent_logged _ _ _ _ d Hrecord)
    by (by eapply prop_event_not_nullish);
  cbv zeta; rewrite (dispatched_kind _ _ Hev), Hseq, Hev;
  cbn [negb is_str String.eqb Ascii.eqb Bool.eqb]; cbv beta iota.

Lemma on_message_start m :
  valid_start m = true →
  converts (prop m "sequence_number") = true →
  converts (prop (prop m "start") "media_format") = true →
  on_message ws callSid (JSONText m) now σ =
    {| server := store callSid (start_assignments m (logged m now d)) σ;
       actions := [ws_send ws (JSON_stringify (value (start_response m)))];
       uncaught := None |}.
Proof.
  intros [Hev Hok]%valid_start_inv Hseq Hfmt. dispatch Hev Hseq.
  rewrite (handleStartEvent_valid _ _ _ (logged m now d)) by (apply lookup_store || done).
  cbv zeta. rewrite console_log_converts by done.
  rewrite start_response_converts by done. rewrite send_then_inr. cbn.
  by rewrite store_store.
Qed.

Lemma on_message_media m :
  valid_media m = true →
  converts (prop m "sequence_number") = true →
  converts (prop (prop m "media") "chunk") = true →
  on_message ws callSid (JSONText m) now σ =
    {| server := store callSid (media_assignments m now (logged m now d)) σ;
       actions :=
         [ws_send ws
            (JSON_stringify
               (value
                  (if Buffer_from_returns (prop (prop m "media") "payload")
                   then echoResponse callSid m now
                   else error_envelope m callSid "Failed to process audio chunk")))];
       uncaught := None |}.
Proof.
  intros [Hev Hok]%valid_media_inv Hseq Hchunk. dispatch Hev Hseq.
  rewrite (handleMediaEvent_valid _ _ _ _ (logged m now d)) by (apply lookup_store || done).
  cbv zeta. rewrite Hchunk. cbn [negb]. unfold media_try.
  destruct (Buffer_from_returns _).
  - rewrite echoResponse_converts by done. rewrite send_then_inr. cbn.
    by rewrite store_store.
  - rewrite error_envelope_converts by done. rewrite send_then_inr. cbn.
    by rewrite store_store.
Qed.

Lemma on_message_stop m :
  valid_stop m = true →
  converts (prop m "sequence_number") = true →
  converts (prop (prop m "stop") "reason") = true →
  on_message ws callSid (JSONText m) now σ =
    {| server := store callSid (stop_assignments m now (logged m now d)) σ;
       actions := [ws_send ws (JSON_stringify (value (end_response "stop" m)));
                   setTimeout_ws_close ws 1000 1000 "Call ended"];
       uncaught := None |}.
Proof.
  intros [Hev Hok]%valid_stop_inv Hseq Hreason. dispatch Hev Hseq.
  rewrite (handleStopEvent_valid _ _ _ _ (logged m now d)) by (apply lookup_store || done).
  cbv zeta. rewrite Hreason. cbn [negb].
  rewrite end_response_converts by done. rewrite send_then_inr. cbn.
  by rewrite store_store.
Qed.

Lemma on_message_xfer m :
  valid_xfer m = true →
  converts (prop m "sequence_number") = true →
  converts (prop (prop m "xfer") "reason")
  && converts (prop (prop m "xfer") "call_sid")
  && converts (prop (prop m "xfer") "account_sid") = true →
  on_message ws callSid (JSONText m) now σ =
    {| server := store callSid (xfer_assignments m now (logged m now d)) σ;
       actions := [ws_send ws (JSON_stringify (value (end_response "xfer" m)));
                   setTimeout_ws_close ws 1000 1000 "Call transferred"];
       uncaught := None |}.
Proof.
  intros [Hev Hok]%valid_xfer_inv Hseq Hprinted. dispatch Hev Hseq.
  rewrite (handleXferEvent_valid _ _ _ _ (logged m now d)) by (apply lookup_store || done).
  cbv zeta. rewrite Hprinted. cbn [negb].
  rewrite end_response_converts by done. rewrite send_then_inr. cbn.
  by rewrite store_store.
Qed.
(** Without the hypothesis on what the handler prints: it has sent the
    acknowledgement, or nothing. *)
Lemma on_message_start_actions m :
  valid_start m = true →
  converts (prop m "sequence_number") = true →
  actions (on_message ws callSid (JSONText m) now σ) = []
  ∨ actions (on_message ws callSid (JSONText m) now σ)
    = [ws_send ws (JSON_stringify (value (start_response m)))].
Proof.
  intros [Hev Hok]%valid_start_inv Hseq. dispatch Hev Hseq. cbn [actions].
  rewrite (handleStartEvent_valid _ _ _ (logged m now d)) by (apply lookup_store || done).
  cbv zeta. destruct (console_log_raises _ _); [by left|right].
  by rewrite start_response_converts by done.
Qed.

Lemma on_message_media_actions m :
  valid_media m = true →
  converts (prop m "sequence_number") = true →
  actions (on_message ws callSid (JSONText m) now σ) = []
  ∨ actions (on_message ws callSid (JSONText m) now σ)
    = [ws_send ws
         (JSON_stringify
            (value
               (if Buffer_from_returns (prop (prop m "media") "payload")
                then echoResponse callSid m now
                else error_envelope m callSid "Failed to process audio chunk")))].
Proof.
  intros Hv Hseq. destruct (converts (prop (prop m "media") "chunk")) eqn:Hchunk.
  - right. by rewrite (on_message_media m Hv Hseq Hchunk).
  - left. apply valid_media_inv in Hv as [Hev Hok]. dispatch Hev Hseq. cbn [actions].
    rewrite (handleMediaEvent_valid _ _ _ _ (logged m now d)) by (apply lookup_store || done).
    cbv zeta. by rewrite Hchunk.
Qed.

Lemma on_message_end_actions kind m :
  kind = "stop" ∧ valid_stop m = true ∨ kind = "xfer" ∧ valid_xfer m = true →
  converts (prop m "sequence_number") = true →
  frames_sent (actions (on_message ws callSid (JSONText m) now σ)) = []
  ∨ frames_sent (actions (on_message ws callSid (JSONText m) now σ))
    = [JSON_stringify (value (end_response kind m))].
Proof.
  intros [[-> Hv] | [-> Hv]] Hseq.
  - destruct (converts (prop (prop m "stop") "reason")) eqn:Hreason.
    + right. by rewrite (on_message_stop m Hv Hseq Hreason).
    + left. apply valid_stop_inv in Hv as [Hev Hok]. dispatch Hev Hseq. cbn [actions].
      rewrite (handleStopEvent_valid _ _ _ _ (logged m now d))
        by (apply lookup_store || done).
      cbv zeta. by rewrite Hreason.
  - destruct (converts (prop (prop m "xfer") "reason")
              && converts (prop (prop m "xfer") "call_sid")
              && converts (prop (prop m "xfer") "account_sid")) eqn:Hprinted.
    + right. by rewrite (on_message_xfer m Hv Hseq Hprinted).
    + left. apply valid_xfer_inv in Hv as [Hev Hok]. dispatch Hev Hseq. cbn [actions].
      rewrite (handleXferEvent_valid _ _ _ _ (logged m now d))
        by (apply lookup_store || done).
      cbv zeta. by rewrite Hprinted.
Qed.
End Listener.

(** ** Sequence numbers of acknowledgements (C3) *)

Lemma prop_start_response m S :
  prop m "sequence_number" = JNum S →
  isSafeInteger (S + 1) →
  prop (JSON_stringify (value (start_response m))) "event" = JStr "start"
  ∧ prop (JSON_stringify (value (start_response m))) "sequence_number" = JNum (S + 1).
Proof. intros H Hs. unfold start_response. rewrite H, plus_safe by done. by cbn. Qed.

Lemma prop_end_response kind m S :
  kind = "stop" ∨ kind = "xfer" →
  prop m "sequence_number" = JNum S →
  isSafeInteger (S + 1) →
  prop (JSON_stringify (value (end_response kind m))) "event" = JStr kind
  ∧ prop (JSON_stringify (value (end_response kind m))) "sequence_number" = JNum (S + 1).
Proof.
  intros [-> | ->] H Hs; unfold end_response; rewrite H, plus_safe by done; by cbn.
Qed.

Lemma prop_echoResponse callSid m now S :
  prop m "sequence_number" = JNum S →
  isSafeInteger (S + 1000) →
  prop (JSON_stringify (value (echoResponse callSid m now))) "event" = JStr "media"
  ∧ prop (JSON_stringify (value (echoResponse callSid m now))) "sequence_number"
    = JNum (S + 1000).
Proof. intros H Hs. unfold echoResponse. rewrite H, plus_safe by done. by cbn. Qed.

(** C3.  On a session with a record, for an inbound envelope whose
    sequence number is the integer [S] (non-negative, with [S + 1000] still
    a safe integer) and which passes its kind's field check.  Whatever
    frame the listener sends for a media envelope, if it is the media
    acknowledgement its sequence number is [S + 1000]; whatever frame it
    sends for a start, stop or xfer envelope is the acknowledgement of
    that kind, with sequence number [S + 1].  And when no conversion raises
    on the envelope ([plain]), exactly one frame is sent, which for a media
    envelope with a string payload is the media acknowledgement. *)
Theorem ack_sequence_numbers ws callSid now σ d m S :
  callStorage σ !! callSid = Some d →
  prop m "sequence_number" = JNum S →
  (0 ≤ S)%Z →
  isSafeInteger (S + 1000) →
  let sent := frames_sent (actions (on_message ws callSid (JSONText m) now σ)) in
  (∀ e, e ∈ sent →
     (valid_media m = true → prop e "event" = JStr "media" →
        prop e "sequence_number" = JNum (S + 1000))
     ∧ (valid_start m = true →
        prop e "event" = JStr "start" ∧ prop e "sequence_number" = JNum (S + 1))
     ∧ (valid_stop m = true →
        prop e "event" = JStr "stop" ∧ prop e "sequence_number" = JNum (S + 1))
     ∧ (valid_xfer m = true →
        prop e "event" = JStr "xfer" ∧ prop e "sequence_number" = JNum (S + 1)))
  ∧ (plain m = true →
     valid_start m || valid_media m || valid_stop m || valid_xfer m = true →
     ∃ e, sent = [e]
       ∧ (valid_media m = true →
          ∀ s, prop (prop m "media") "payload" = JStr s → prop e "event" = JStr "media")).
Proof.
  intros Hd Hseq Hpos Hsafe sent. subst sent.
  assert (isSafeInteger (S + 1)) as Hsafe1 by (unfold isSafeInteger in *; lia).
  assert (converts (prop m "sequence_number") = true) as Hconv by (by rewrite Hseq).
  split.
  - intros e He. split; [|split; [|split]]; intros Hv.
    + destruct (on_message_media_actions callSid ws now σ d Hd m Hv Hconv) as [H | H];
        rewrite H in He; cbn [frames_sent omap list_omap] in He;
        [by apply elem_of_nil in He|].
      apply list_elem_of_singleton in He as ->.
      destruct (Buffer_from_returns _).
      * by destruct (prop_echoResponse callSid m now S Hseq Hsafe).
      * rewrite stringify_error_envelope by done. cbn. discriminate.
    + destruct (on_message_start_actions callSid ws now σ d Hd m Hv Hconv) as [H | H];
        rewrite H in He; cbn [frames_sent omap list_omap] in He;
        [by apply elem_of_nil in He|].
      apply list_elem_of_singleton in He as ->. by apply prop_start_response.
    + destruct (on_message_end_actions callSid ws now σ d Hd "stop" m) as [H | H];
        [by left|done| |]; rewrite H in He; [by apply elem_of_nil in He|].
      apply list_elem_of_singleton in He as ->. apply prop_end_response; auto.
    + destruct (on_message_end_actions callSid ws now σ d Hd "xfer" m) as [H | H];
        [by right|done| |]; rewrite H in He; [by apply elem_of_nil in He|].
      apply list_elem_of_singleton in He as ->. apply prop_end_response; auto.
  - intros Hplain Hvalid.
    destruct (plain_inv m Hplain) as (_ & _ & Hfmt & Hchunk & Hreason & Hprinted).
    destruct (valid_start m) eqn:H1.
    { rewrite (on_message_start callSid ws now σ d Hd m H1 Hconv (Hfmt eq_refl)).
      cbn [actions frames_sent omap list_omap]. eexists. split; [reflexivity|].
      destruct (valid_start_inv m H1) as [E _].
      intros [E' _]%valid_media_inv. congruence. }
    destruct (valid_media m) eqn:H2.
    { rewrite (on_message_media callSid ws now σ d Hd m H2 Hconv (Hchunk eq_refl)).
      cbn [actions frames_sent omap list_omap]. eexists. split; [reflexivity|].
      intros _ s Hs. rewrite Hs. cbn [Buffer_from_returns].
      by destruct (prop_echoResponse callSid m now S Hseq Hsafe). }
    destruct (valid_stop m) eqn:H3.
    { rewrite (on_message_stop callSid ws now σ d Hd m H3 Hconv (Hreason eq_refl)).
      cbn [actions frames_sent omap list_omap]. eexists. split; [reflexivity|].
      discriminate. }
    destruct (valid_xfer m) eqn:H4; [|discriminate].
    rewrite (on_message_xfer callSid ws now σ d Hd m H4 Hconv (Hprinted eq_refl)).
    cbn [actions frames_sent omap list_omap]. eexists. split; [reflexivity|].
    discriminate.
Qed.

Lemma ack_sequence_numbers_witness :
  let m := Scenario.media_event 1 1 in
  let sent :=
    frames_sent
      (actions (on_message 7 "C1" (JSONText m) 30 (maps (run Scenario.setup boot)))) in
  (∀ e, e ∈ sent →
     (valid_media m = true → prop e "event" = JStr "media" →
        prop e "sequence_number" = JNum (1 + 1000))
     ∧ (valid_start m = true →
        prop e "event" = JStr "start" ∧ prop e "sequence_number" = JNum (1 + 1))
     ∧ (valid_stop m = true →
        prop e "event" = JStr "stop" ∧ prop e "sequence_number" = JNum (1 + 1))
     ∧ (valid_xfer m = true →
        prop e "event" = JStr "xfer" ∧ prop e "sequence_number" = JNum (1 + 1)))
  ∧ (plain m = true →
     valid_start m || valid_media m || valid_stop m || valid_xfer m = true →
     ∃ e, sent = [e]
       ∧ (valid_media m = true →
          ∀ s, prop (prop m "media") "payload" = JStr s → prop e "event" = JStr "media")).
Proof.
  apply (ack_sequence_numbers 7 "C1" 30 (maps (run Scenario.setup boot))
           Scenario.connected_record (Scenario.media_event 1 1) 1).
  - vm_compute. reflexivity.
  - reflexivity.
  - lia.
  - unfold isSafeInteger. simpl. lia.
Defined.

(** No frame at all is sent for a stop envelope that passes the field
    check, with sequence number 2, and whose reason is an object with an
    own [toString] property: the handler raises on its log line after it
    has set the status, and the listener is left by an exception. *)
Example valid_stop_unacknowledged :
  let m := JObj [("event", JStr "stop"); ("sequence_number", JNum 2);
                 ("stream_sid", JStr "S1");
                 ("stop", JObj [("call_sid", JStr "C1"); ("account_sid", JStr "A1");
                                ("reason", JObj [("toString", JNum 1)])])] in
  let o := on_message 7 "C1" (JSONText m) 40 (maps (run Scenario.setup boot)) in
  valid_stop m = true
  ∧ frames_sent (actions o) = []
  ∧ uncaught o = Some ReferenceError
  ∧ status_of "C1" (server o) = Some "stopped".
Proof. repeat split; vm_compute; reflexivity. Qed.

(** ** A frame that is not JSON (C5) *)

(** When [JSON.parse] raises, the [catch] block raises in turn. *)
Lemma on_message_malformed ws callSid text now σ :
  on_message ws callSid (NotJSON text) now σ =
    {| server := σ; actions := []; uncaught := Some ReferenceError |}.
Proof. reflexivity. Qed.

(** The same happens on the JSON document [null], on which
    [handleWebSocketEvent] raises [TypeError]. *)
Lemma null_frame_raises ws callSid now σ :
  on_message ws callSid (JSONText JNull) now σ =
    {| server := σ; actions := []; uncaught := Some ReferenceError |}.
Proof. unfold on_message, handleWebSocketEvent; simpl. by destruct (_ !! _). Qed.

Lemma nullish_frame_raises ws callSid m now σ :
  nullish m = true →
  on_message ws callSid (JSONText m) now σ =
    {| server := σ; actions := []; uncaught := Some ReferenceError |}.
Proof.
  intros Hm. rewrite on_message_parsed. unfold handleWebSocketEvent. rewrite Hm.
  by destruct (_ !! _).
Qed.

(** Had [message] been visible in the [catch] block, the block would send
    the envelope the specification describes. *)
Lemma message_catch_bound ws callSid m σ S :
  prop m "sequence_number" = JNum S → S ≠ 0 → isSafeInteger (S + 1) →
  actions (message_catch ws callSid (Some m) σ) =
    [ws_send ws
       (JObj [("event", JStr "error");
              ("sequence_number", JNum (S + 1));
              ("stream_sid", JStr callSid);
              ("error", JStr "Invalid JSON format")])].
Proof.
  intros Hseq HS Hsafe. unfold message_catch.
  assert (nullish m = false) as -> by (by destruct m).
  rewrite Hseq. cbn [truthy]. destruct (Z.eqb_spec S 0) as [|_]; [done|]. cbn [negb].
  by rewrite plus_safe.
Qed.

(** ** What the listeners leave in the session record *)

Section Record.
Context (callSid : string) (ws : nat) (now : Z) (σ : Server) (d : CallData).
Hypothesis Hrecord : callStorage σ !! callSid = Some d.

(** The listener leaves [record_after] in the session's entry on every
    document but [null], whether it returns or raises. *)
Lemma on_message_record m :
  nullish m = false →
  server (on_message ws callSid (JSONText m) now σ)
    = store callSid (record_after m now d) σ.
Proof.
  intros Hm. rewrite on_message_parsed. cbv zeta. cbn [server].
  rewrite (handleWebSocketEvent_logged _ _ _ _ d Hrecord) by done. cbv zeta.
  unfold record_after, valid_start, valid_media, valid_stop, valid_xfer.
  destruct (dispatched m); cbn [negb]; [|done].
  destruct (is_str (prop m "event") "start") eqn:E1.
  { apply is_str_true in E1. rewrite E1. cbn [is_str String.eqb Ascii.eqb Bool.eqb andb].
    unfold handleStartEvent. rewrite lookup_store.
    destruct (invalid_start m); cbn [negb].
    - apply server_send_then.
    - destruct (console_log_raises _ _); [|rewrite server_send_then];
        cbn [raise server]; apply store_store. }
  destruct (is_str (prop m "event") "media") eqn:E2.
  { apply is_str_true in E2. rewrite E2. cbn [is_str String.eqb Ascii.eqb Bool.eqb andb].
    unfold handleMediaEvent. rewrite lookup_store.
    destruct (invalid_media m); cbn [negb].
    - apply server_send_then.
    - destruct (negb (converts _)); [cbn [raise server]; apply store_store|].
      destruct (media_try _ _ _); rewrite server_send_then; apply store_store. }
  destruct (is_str (prop m "event") "stop") eqn:E3.
  { apply is_str_true in E3. rewrite E3. cbn [is_str String.eqb Ascii.eqb Bool.eqb andb].
    unfold handleStopEvent. rewrite lookup_store.
    destruct (invalid_stop m); cbn [negb].
    - apply server_send_then.
    - destruct (negb (converts _)); [|rewrite server_send_then];
        cbn [raise server]; apply store_store. }
  destruct (is_str (prop m "event") "xfer") eqn:E4.
  { apply is_str_true in E4. rewrite ?E4. cbn [is_str String.eqb Ascii.eqb Bool.eqb andb].
    unfold handleXferEvent. rewrite lookup_store.
    destruct (invalid_xfer m); cbn [negb].
    - apply server_send_then.
    - cbv zeta. destruct (negb (_ && _ && _)); [|rewrite server_send_then];
        cbn [raise server]; apply store_store. }
  cbn [andb]. apply server_send_then.
Qed.

(** On a plain document the listener returns. *)
Lemma on_message_returns m :
  plain m = true → uncaught (on_message ws callSid (JSONText m) now σ) = None.
Proof.
  intros Hplain.
  destruct (plain_inv m Hplain) as (Hm & Hdisp & Hfmt & Hchunk & Hreason & Hprinted).
  destruct (dispatched_inv m Hdisp) as [Hkind Hseq].
  destruct (valid_start m) eqn:H1.
  { by rewrite (on_message_start _ _ _ _ d Hrecord m H1 Hseq (Hfmt eq_refl)). }
  destruct (valid_media m) eqn:H2.
  { by rewrite (on_message_media _ _ _ _ d Hrecord m H2 Hseq (Hchunk eq_refl)). }
  destruct (valid_stop m) eqn:H3.
  { by rewrite (on_message_stop _ _ _ _ d Hrecord m H3 Hseq (Hreason eq_refl)). }
  destruct (valid_xfer m) eqn:H4.
  { by rewrite (on_message_xfer _ _ _ _ d Hrecord m H4 Hseq (Hprinted eq_refl)). }
  rewrite on_message_parsed. cbv zeta. cbn [uncaught].
  rewrite (handleWebSocketEvent_logged _ _ _ _ d Hrecord) by done. cbv zeta.
  rewrite Hdisp. cbn [negb].
  unfold valid_start, valid_media, valid_stop, valid_xfer in H1, H2, H3, H4.
  destruct (is_str (prop m "event") "start"); cbn [andb negb] in H1.
  { apply negb_false_iff in H1.
    rewrite (handleStartEvent_invalid _ _ _ (logged m now d))
      by (apply lookup_store || done).
    by rewrite error_envelope_converts. }
  destruct (is_str (prop m "event") "media"); cbn [andb negb] in H2.
  { apply negb_false_iff in H2.
    rewrite (handleMediaEvent_invalid _ _ _ _ (logged m now d))
      by (apply lookup_store || done).
    by rewrite error_envelope_converts. }
  destruct (is_str (prop m "event") "stop"); cbn [andb negb] in H3.
  { apply negb_false_iff in H3.
    rewrite (handleStopEvent_invalid _ _ _ _ (logged m now d))
      by (apply lookup_store || done).
    by rewrite error_envelope_converts. }
  destruct (is_str (prop m "event") "xfer"); cbn [andb negb] in H4.
  { apply negb_false_iff in H4.
    rewrite (handleXferEvent_invalid _ _ _ _ (logged m now d))
      by (apply lookup_store || done).
    by rewrite error_envelope_converts. }
  unfold unknown_event_envelope.
  destruct (converts_ToString _ Hkind) as [text ->].
  by rewrite error_envelope_converts.
Qed.
End Record.

Lemma valid_kinds_exclusive m :
  (valid_start m = true → valid_media m = false ∧ valid_stop m = false ∧ valid_xfer m = false)
  ∧ (valid_media m = true → valid_start m = false ∧ valid_stop m = false ∧ valid_xfer m = false)
  ∧ (valid_stop m = true → valid_start m = false ∧ valid_media m = false ∧ valid_xfer m = false)
  ∧ (valid_xfer m = true → valid_start m = false ∧ valid_media m = false ∧ valid_stop m = false).
Proof.
  split; [|split; [|split]]; intros Hv;
    [ apply valid_start_inv in Hv as [Hev _]
    | apply valid_media_inv in Hv as [Hev _]
    | apply valid_stop_inv in Hv as [Hev _]
    | apply valid_xfer_inv in Hv as [Hev _] ];
    unfold valid_start, valid_media, valid_stop, valid_xfer; by rewrite Hev.
Qed.

(** The record the [close] listener leaves. *)
Lemma on_close_record callSid now σ d :
  callStorage σ !! callSid = Some d →
  callStorage (on_close callSid now σ) !! callSid =
    Some (let d' := set_endTime (Some now) (set_status "disconnected" d) in
          match startTime d with
          | Some t0 => set_duration (Some (Math_round_div (now - t0) 1000)) d'
          | None => d'
          end).
Proof.
  intros Hd. unfold on_close. cbv zeta.
  change (callStorage (set_activeConnections _ σ)) with (callStorage σ).
  rewrite Hd. rewrite lookup_store. cbn [startTime set_endTime set_status].
  by destruct (startTime d).
Qed.

(** The record a session is left with by any frame. *)
Lemma on_message_lookup ws callSid data now σ d :
  callStorage σ !! callSid = Some d →
  callStorage (server (on_message ws callSid data now σ)) !! callSid
  = Some (match data with
          | JSONText m => if nullish m then d else record_after m now d
          | NotJSON _ => d
          end).
Proof.
  intros Hd. destruct data as [text|m]; [by cbn|].
  destruct (nullish m) eqn:Hm.
  - by rewrite nullish_frame_raises.
  - rewrite (on_message_record _ _ _ _ d Hd) by done. apply lookup_store.
Qed.

(** Without a record the listener changes nothing. *)
Lemma on_message_no_record ws callSid data now σ :
  callStorage σ !! callSid = None →
  server (on_message ws callSid data now σ) = σ.
Proof.
  intros Hd. destruct data as [text|m]; [done|].
  rewrite on_message_parsed. cbv zeta. cbn [server].
  unfold handleWebSocketEvent. rewrite Hd.
  destruct (nullish m); [done|]. destruct (negb _); [done|]. apply server_send_then.
Qed.

(** The maps after any frame: as before, or with the session's record
    replaced. *)
Lemma on_message_server ws callSid data now σ :
  server (on_message ws callSid data now σ) = σ
  ∨ ∃ d m, callStorage σ !! callSid = Some d
           ∧ server (on_message ws callSid data now σ)
             = store callSid (record_after m now d) σ.
Proof.
  destruct (callStorage σ !! callSid) as [d|] eqn:Hd.
  - destruct data as [text|m]; [by left|].
    destruct (nullish m) eqn:Hm.
    + left. by rewrite nullish_frame_raises.
    + right. exists d, m. split; [done|]. by apply on_message_record.
  - left. by apply on_message_no_record.
Qed.

Lemma valid_not_nullish m :
  valid_start m || valid_media m || valid_stop m || valid_xfer m = true → nullish m = false.
Proof. by destruct m. Qed.

(** ** Status transitions (C1, C2) *)

(** C2, as amended.  No status is protected.  Whatever the status of the
    record (a terminal one included), the [message] listener leaves it as
    it is on a frame that is not JSON, on an envelope whose kind or
    sequence number does not convert to text (the dispatcher raises on its
    log line, before the handler) and on an envelope that is not a valid
    start, stop or xfer (so on every media envelope, every unknown kind
    and every envelope failing its check), and overwrites it with
    [started], [stopped] or [transferred] on a valid start, stop or xfer
    that reaches its handler; the [close] listener overwrites it with
    [disconnected]. *)
Theorem status_overwritten_regardless ws callSid now σ d m text :
  callStorage σ !! callSid = Some d →
  let σ' := server (on_message ws callSid (JSONText m) now σ) in
  (dispatched m = false
   ∨ (valid_start m = false ∧ valid_stop m = false ∧ valid_xfer m = false) →
     status_of callSid σ' = Some (status d))
  ∧ (dispatched m = true → valid_start m = true →
     status_of callSid σ' = Some "started")
  ∧ (dispatched m = true → valid_stop m = true →
     status_of callSid σ' = Some "stopped")
  ∧ (dispatched m = true → valid_xfer m = true →
     status_of callSid σ' = Some "transferred")
  ∧ status_of callSid (server (on_message ws callSid (NotJSON text) now σ))
      = Some (status d)
  ∧ status_of callSid (on_close callSid now σ) = Some "disconnected".
Proof.
  intros Hd σ'. subst σ'. unfold status_of.
  destruct (valid_kinds_exclusive m) as (_ & _ & Hstop & Hxfer).
  rewrite !(on_message_lookup _ _ _ _ _ d Hd). cbn [fmap option_fmap option_map].
  repeat split.
  - intros H. f_equal. destruct (nullish m); [done|]. unfold record_after.
    destruct H as [-> | (-> & H3 & H4)]; [done|].
    destruct (dispatched m); cbn [negb]; [|done].
    rewrite H3, H4. by destruct (valid_media m).
  - intros H0 H1. rewrite (valid_not_nullish m) by (by rewrite H1).
    unfold record_after. by rewrite H0, H1.
  - intros H0 H3. destruct (Hstop H3) as (H1 & H2 & _).
    rewrite (valid_not_nullish m) by (by rewrite H3, !orb_true_r).
    unfold record_after. by rewrite H0, H1, H2, H3.
  - intros H0 H4. destruct (Hxfer H4) as (H1 & H2 & H3).
    rewrite (valid_not_nullish m) by (by rewrite H4, !orb_true_r).
    unfold record_after. by rewrite H0, H1, H2, H3, H4.
  - rewrite (on_close_record callSid now σ d Hd). cbv zeta. by destruct (startTime d).
Qed.

Lemma status_overwritten_regardless_witness :
  let σ := maps (run (Scenario.setup ++ Scenario.call) boot) in
  let m := Scenario.start_event 3 (Scenario.format "pcmu") in
  let σ' := server (on_message 7 "C1" (JSONText m) 50 σ) in
  (dispatched m = false
   ∨ (valid_start m = false ∧ valid_stop m = false ∧ valid_xfer m = false) →
     status_of "C1" σ' = Some (status Scenario.stopped_record))
  ∧ (dispatched m = true → valid_start m = true → status_of "C1" σ' = Some "started")
  ∧ (dispatched m = true → valid_stop m = true → status_of "C1" σ' = Some "stopped")
  ∧ (dispatched m = true → valid_xfer m = true → status_of "C1" σ' = Some "transferred")
  ∧ status_of "C1" (server (on_message 7 "C1" (NotJSON "{") 50 σ))
      = Some (status Scenario.stopped_record)
  ∧ status_of "C1" (on_close "C1" 50 σ) = Some "disconnected".
Proof.
  apply (status_overwritten_regardless 7 "C1" 50
           (maps (run (Scenario.setup ++ Scenario.call) boot))
           Scenario.stopped_record
           (Scenario.start_event 3 (Scenario.format "pcmu")) "{").
  vm_compute. reflexivity.
Defined.

(** C2 as stated fails: the record of the worked scenario is [stopped]
    after the stop envelope, and a further valid start envelope on the
    same socket makes it [started]. *)
Lemma stopped_record_restarted :
  status_of "C1" (maps (run (Scenario.setup ++ Scenario.call) boot)) = Some "stopped"
  ∧ status_of "C1"
      (maps (run (Scenario.setup ++ Scenario.call
                    ++ [WS_message 7
                          (JSONText (Scenario.start_event 3 (Scenario.format "pcmu"))) 50])
               boot))
    = Some "started"
  ∧ "started" ≠ "stopped".
Proof. repeat split; try (vm_compute; reflexivity). discriminate. Qed.

(** The handler is not reached when the sequence number does not convert
    to text: a start envelope that passes the field check then leaves the
    status of a [stopped] record as it is. *)
Example stopped_record_kept_by_raising_start :
  let m := Scenario.start_event_with (JObj [("toString", JNum 1)]) (Scenario.format "pcmu") in
  let o := on_message 7 "C1" (JSONText m) 50
             (maps (run (Scenario.setup ++ Scenario.call) boot)) in
  valid_start m = true
  ∧ uncaught o = Some ReferenceError
  ∧ status_of "C1" (server o) = Some "stopped".
Proof. repeat split; vm_compute; reflexivity. Qed.

(** ** The negotiated media format (C7) *)

(** C7, as amended.  Every valid start envelope that reaches its handler
    (its sequence number converts to text) stores its
    [start.media_format], whether or not a format is already stored; the
    stored format is left as it is by every other envelope, by a frame
    that is not JSON and by the [close] listener. *)
Theorem mediaFormat_set_by_each_valid_start ws callSid now σ d m text :
  callStorage σ !! callSid = Some d →
  let σ' := server (on_message ws callSid (JSONText m) now σ) in
  (valid_start m = true → dispatched m = true →
     mediaFormat_of callSid σ' = Some (prop (prop m "start") "media_format"))
  ∧ (valid_start m = false ∨ dispatched m = false →
     mediaFormat_of callSid σ' = Some (mediaFormat d))
  ∧ mediaFormat_of callSid (server (on_message ws callSid (NotJSON text) now σ))
      = Some (mediaFormat d)
  ∧ mediaFormat_of callSid (on_close callSid now σ) = Some (mediaFormat d).
Proof.
  intros Hd σ'. subst σ'. unfold mediaFormat_of.
  rewrite !(on_message_lookup _ _ _ _ _ d Hd). cbn [fmap option_fmap option_map].
  repeat split.
  - intros H1 H0. rewrite (valid_not_nullish m) by (by rewrite H1).
    unfold record_after. by rewrite H0, H1.
  - intros H. f_equal. destruct (nullish m); [done|]. unfold record_after.
    destruct (dispatched m); cbn [negb]; [|done].
    destruct H as [-> | ?]; [|done].
    destruct (valid_media m); [done|].
    destruct (valid_stop m); [done|].
    by destruct (valid_xfer m).
  - rewrite (on_close_record callSid now σ d Hd). cbv zeta. by destruct (startTime d).
Qed.

Lemma mediaFormat_set_by_each_valid_start_witness :
  let σ := maps (run (Scenario.setup ++ Scenario.call) boot) in
  let m := Scenario.start_event 3 (Scenario.format "pcma") in
  let σ' := server (on_message 7 "C1" (JSONText m) 50 σ) in
  (valid_start m = true → dispatched m = true →
     mediaFormat_of "C1" σ' = Some (prop (prop m "start") "media_format"))
  ∧ (valid_start m = false ∨ dispatched m = false →
     mediaFormat_of "C1" σ' = Some (mediaFormat Scenario.stopped_record))
  ∧ mediaFormat_of "C1" (server (on_message 7 "C1" (NotJSON "{") 50 σ))
      = Some (mediaFormat Scenario.stopped_record)
  ∧ mediaFormat_of "C1" (on_close "C1" 50 σ)
      = Some (mediaFormat Scenario.stopped_record).
Proof.
  apply (mediaFormat_set_by_each_valid_start 7 "C1" 50
           (maps (run (Scenario.setup ++ Scenario.call) boot))
           Scenario.stopped_record
           (Scenario.start_event 3 (Scenario.format "pcma")) "{").
  vm_compute. reflexivity.
Defined.

(** C7 as stated fails: with the format [pcmu] stored by a first valid
    start envelope, a second valid start envelope carrying [pcma] replaces
    it. *)
Lemma mediaFormat_replaced_by_second_start :
  mediaFormat_of "C1"
    (maps (run (Scenario.setup
                  ++ [WS_message 7 (JSONText (Scenario.start_event 0 (Scenario.format "pcmu"))) 20])
             boot))
    = Some (Scenario.format "pcmu")
  ∧ mediaFormat_of "C1"
      (maps (run (Scenario.setup
                    ++ [WS_message 7 (JSONText (Scenario.start_event 0 (Scenario.format "pcmu"))) 20;
                        WS_message 7 (JSONText (Scenario.start_event 1 (Scenario.format "pcma"))) 30])
               boot))
    = Some (Scenario.format "pcma")
  ∧ Scenario.format "pcma" ≠ Scenario.format "pcmu".
Proof. repeat split; try (vm_compute; reflexivity). discriminate. Qed.

(** ** Runs *)

Lemma run_app inputs1 inputs2 r : run (inputs1 ++ inputs2) r = run inputs2 (run inputs1 r).
Proof. apply fold_left_app. Qed.

Lemma run_cons i inputs r : run (i :: inputs) r = run inputs (step i r).
Proof. reflexivity. Qed.

Lemma step_WS_message r ws callSid data now :
  failure r = None →
  listeners r !! ws = Some callSid →
  step (WS_message ws data now) r =
    let o := on_message ws callSid data now (maps r) in
    {| maps := server o; listeners := listeners r;
       log := log r ++ actions o; failure := uncaught o |}.
Proof. intros Hf Hl. unfold step. by rewrite Hf, Hl. Qed.

Lemma step_WS_close r ws callSid now :
  failure r = None →
  listeners r !! ws = Some callSid →
  maps (step (WS_close ws now) r) = on_close callSid now (maps r).
Proof. intros Hf Hl. unfold step. by rewrite Hf, Hl. Qed.

(** C5.  A frame that is not JSON, arriving on a bound socket of a running
    server: the [message] listener is left by a [ReferenceError] raised in
    its [catch] block; nothing is sent or closed and the three maps are as
    before.  No error envelope goes back. *)
Theorem malformed_frame_raises r ws callSid text now :
  failure r = None →
  listeners r !! ws = Some callSid →
  failure (step (WS_message ws (NotJSON text) now) r) = Some ReferenceError
  ∧ log (step (WS_message ws (NotJSON text) now) r) = log r
  ∧ maps (step (WS_message ws (NotJSON text) now) r) = maps r.
Proof.
  intros Hf Hl. rewrite (step_WS_message r ws callSid _ _ Hf Hl). cbv zeta.
  rewrite on_message_malformed. cbn [failure log maps server actions uncaught].
  by rewrite app_nil_r.
Qed.

Lemma malformed_frame_raises_witness :
  failure (step (WS_message 7 (NotJSON "not json") 20) (run Scenario.setup boot))
    = Some ReferenceError
  ∧ log (step (WS_message 7 (NotJSON "not json") 20) (run Scenario.setup boot))
    = log (run Scenario.setup boot)
  ∧ maps (step (WS_message 7 (NotJSON "not json") 20) (run Scenario.setup boot))
    = maps (run Scenario.setup boot).
Proof.
  apply (malformed_frame_raises (run Scenario.setup boot) 7 "C1" "not json" 20).
  - reflexivity.
  - vm_compute. reflexivity.
Defined.

Lemma bound_step_message r ws callSid m now :
  bound r ws callSid →
  plain m = true →
  bound (step (WS_message ws (JSONText m) now) r) ws callSid.
Proof.
  intros (Hf & Hl & [d Hd]) Hm.
  rewrite (step_WS_message r ws callSid _ _ Hf Hl). cbv zeta.
  split; [by apply (on_message_returns _ _ _ _ d)|]. split; [done|]. cbn [maps].
  rewrite (on_message_lookup _ _ _ _ _ d Hd). by eexists.
Qed.

Lemma bound_run_deliver ws callSid envelopes : ∀ r,
  bound r ws callSid →
  Forall (λ e, plain e.1 = true) envelopes →
  bound (run (deliver ws envelopes) r) ws callSid.
Proof.
  induction envelopes as [|[m t] rest IH]; intros r Hb Hall; [done|].
  apply Forall_cons in Hall as [Hm Hrest].
  cbn [deliver map]. rewrite run_cons. apply IH; [|done].
  by apply bound_step_message.
Qed.

(** C1, as amended.  On a socket bound to a session with a record, after a
    valid start envelope, any number of valid media envelopes and a valid
    stop envelope, none of which makes a conversion raise ([plain]), the
    process is still running, the status of the record is [stopped] and
    the close of the socket has been scheduled; once the [close] listener
    has run, the status is [disconnected]. *)
Theorem stopped_until_channel_close r ws callSid d start medias stop t0 t1 t2 :
  failure r = None →
  listeners r !! ws = Some callSid →
  callStorage (maps r) !! callSid = Some d →
  valid_start start = true →
  plain start = true →
  Forall (λ e, valid_media e.1 = true ∧ plain e.1 = true) medias →
  valid_stop stop = true →
  plain stop = true →
  let r1 := run (deliver ws ((start, t0) :: medias ++ [(stop, t1)])) r in
  failure r1 = None
  ∧ status_of callSid (maps r1) = Some "stopped"
  ∧ setTimeout_ws_close ws 1000 1000 "Call ended" ∈ log r1
  ∧ status_of callSid (maps (step (WS_close ws t2) r1)) = Some "disconnected".
Proof.
  intros Hf Hl Hd Hstart Hpstart Hmedias Hstop Hpstop r1. subst r1.
  assert (bound r ws callSid) as Hb by (split; [done|split; [done|by eexists]]).
  unfold deliver. rewrite map_cons, run_cons, map_app, run_app.
  fold (deliver ws medias).
  set (r0 := step (WS_message ws (JSONText (start, t0).1) (start, t0).2) r).
  assert (bound r0 ws callSid) as Hb0 by (by apply bound_step_message).
  assert (bound (run (deliver ws medias) r0) ws callSid) as (Hf1 & Hl1 & [d1 Hd1]).
  { apply bound_run_deliver; [done|].
    eapply Forall_impl; [exact Hmedias|]. by intros e [_ ?]. }
  set (rm := run (deliver ws medias) r0) in *.
  cbn [map run fold_left fst snd].
  rewrite (step_WS_message rm ws callSid _ _ Hf1 Hl1). cbv zeta.
  destruct (plain_inv stop Hpstop) as (_ & Hdisp & _ & _ & Hreason & _).
  destruct (dispatched_inv stop Hdisp) as [_ Hseq].
  rewrite (on_message_stop callSid ws t1 (maps rm) d1 Hd1 stop Hstop Hseq (Hreason Hstop)).
  cbn [server actions uncaught].
  split; [done|]. split; [|split].
  - cbn [maps]. unfold status_of. by rewrite lookup_store.
  - cbn [log]. apply elem_of_app. right. apply list_elem_of_further, list_elem_of_here.
  - erewrite step_WS_close; [|done|done]. cbn [maps]. unfold status_of.
    erewrite on_close_record by apply lookup_store.
    cbv zeta. by destruct (startTime _).
Qed.

Lemma stopped_until_channel_close_witness :
  let r1 :=
    run (deliver 7
           ((Scenario.start_event 0 (Scenario.format "pcmu"), 20)
              :: [(Scenario.media_event 1 1, 30); (Scenario.media_event 2 2, 35)]
              ++ [(Scenario.end_event "stop" 3, 40)]))
      (run Scenario.setup boot) in
  failure r1 = None
  ∧ status_of "C1" (maps r1) = Some "stopped"
  ∧ setTimeout_ws_close 7 1000 1000 "Call ended" ∈ log r1
  ∧ status_of "C1" (maps (step (WS_close 7 1040) r1)) = Some "disconnected".
Proof.
  apply (stopped_until_channel_close (run Scenario.setup boot) 7 "C1"
           Scenario.connected_record).
  - reflexivity.
  - vm_compute. reflexivity.
  - vm_compute. reflexivity.
  - reflexivity.
  - reflexivity.
  - repeat constructor.
  - reflexivity.
  - reflexivity.
Defined.

(** C1 as stated fails: in the worked scenario (start, one media chunk,
    stop), once the close scheduled by the stop handler has happened the
    status of the record is [disconnected], not [stopped]. *)
Lemma stopped_call_ends_disconnected :
  status_of "C1"
    (maps (run (Scenario.setup ++ Scenario.call ++ [WS_close 7 1040]) boot))
    = Some "disconnected"
  ∧ "disconnected" ≠ "stopped".
Proof. split; [vm_compute; reflexivity | discriminate]. Qed.

(** ** Duration (C6) *)

Lemma Math_round_div_nearest x :
  1000 * Math_round_div x 1000 - 500 ≤ x < 1000 * Math_round_div x 1000 + 500.
Proof.
  unfold Math_round_div.
  pose proof (Z.div_mod (2 * x + 1000) (2 * 1000) ltac:(lia)) as Hdiv.
  pose proof (Z.mod_pos_bound (2 * x + 1000) (2 * 1000) ltac:(lia)) as Hmod.
  lia.
Qed.

(** C6, as amended.  The duration is recorded by the [close] listener, on
    a record whose start time is set: it stamps the end time and records
    [Math.round((end - start) / 1000)], the number of seconds nearest to
    the elapsed time, half a second rounding up; it is not the floor. *)
Theorem duration_rounded_to_nearest callSid now σ d t0 :
  callStorage σ !! callSid = Some d →
  startTime d = Some t0 →
  ∃ d' q,
    callStorage (on_close callSid now σ) !! callSid = Some d'
    ∧ startTime d' = Some t0
    ∧ endTime d' = Some now
    ∧ duration d' = Some q
    ∧ q = Math_round_div (now - t0) 1000
    ∧ 1000 * q - 500 ≤ now - t0 < 1000 * q + 500.
Proof.
  intros Hd Ht0.
  eexists _, (Math_round_div (now - t0) 1000).
  rewrite (on_close_record callSid now σ d Hd). cbv zeta. rewrite Ht0.
  split; [reflexivity|]. cbn [startTime endTime duration set_duration set_endTime set_status].
  repeat split; try done; apply Math_round_div_nearest.
Qed.

Lemma duration_rounded_to_nearest_witness :
  ∃ d' q,
    callStorage (on_close "C1" 1540 (maps (run (Scenario.setup ++ Scenario.call) boot)))
      !! "C1" = Some d'
    ∧ startTime d' = Some 0
    ∧ endTime d' = Some 1540
    ∧ duration d' = Some q
    ∧ q = Math_round_div (1540 - 0) 1000
    ∧ 1000 * q - 500 ≤ 1540 - 0 < 1000 * q + 500.
Proof.
  apply (duration_rounded_to_nearest "C1" 1540
           (maps (run (Scenario.setup ++ Scenario.call) boot))
           Scenario.stopped_record 0).
  - vm_compute. reflexivity.
  - reflexivity.
Defined.

(** C6 as stated fails: a session set up at time 0 whose socket closes at
    1540 ms has both timestamps set and records a duration of 2 seconds,
    while the floor of 1.54 seconds is 1. *)
Lemma duration_not_floor :
  (startTime <$> callStorage
     (maps (run (Scenario.setup ++ Scenario.call ++ [WS_close 7 1540]) boot)) !! "C1")
    = Some (Some 0)
  ∧ (endTime <$> callStorage
       (maps (run (Scenario.setup ++ Scenario.call ++ [WS_close 7 1540]) boot)) !! "C1")
    = Some (Some 1540)
  ∧ (duration <$> callStorage
       (maps (run (Scenario.setup ++ Scenario.call ++ [WS_close 7 1540]) boot)) !! "C1")
    = Some (Some 2)
  ∧ (1540 - 0) / 1000 = 1.
Proof. repeat split; vm_compute; reflexivity. Qed.

(** A stop envelope that reaches its handler stamps the end time and
    records no duration. *)
Lemma stop_records_no_duration callSid ws now σ d m :
  callStorage σ !! callSid = Some d →
  valid_stop m = true →
  dispatched m = true →
  ∃ d', callStorage (server (on_message ws callSid (JSONText m) now σ)) !! callSid = Some d'
        ∧ endTime d' = Some now ∧ duration d' = duration d.
Proof.
  intros Hd Hv Hdisp. rewrite (on_message_lookup _ _ _ _ _ d Hd).
  rewrite (valid_not_nullish m) by (by rewrite Hv, !orb_true_r).
  destruct (valid_kinds_exclusive m) as (_ & _ & Hstop & _).
  destruct (Hstop Hv) as (H1 & H2 & _).
  unfold record_after. rewrite Hdisp, H1, H2, Hv. by eexists.
Qed.

(** ** Admission (C4, C8) *)

Lemma qtruthy_Some s : s ≠ "" → qtruthy (Some s) = true.
Proof.
  intros Hs. unfold qtruthy. apply negb_true_iff.
  destruct (String.eqb_spec s ""); [done|reflexivity].
Qed.

(** The connection handler rejects a token that is not bound to the
    session id of the request, and changes nothing. *)
Lemma on_connection_rejects ws c t now σ :
  tokenStorage σ !! t ≠ Some c →
  on_connection ws (Some c) (Some t) now σ =
    (σ, [ws_close ws 1008 "Invalid callSid or token"]).
Proof.
  intros Hne. unfold on_connection.
  rewrite (bool_decide_eq_false_2 _ Hne). cbn [negb]. by rewrite !orb_true_r.
Qed.

(** It accepts a token bound to the session id of the request: the token
    is deleted and the registry entry of the session is the new socket. *)
Lemma on_connection_accepts ws c t now σ :
  c ≠ "" → t ≠ "" →
  tokenStorage σ !! t = Some c →
  (on_connection ws (Some c) (Some t) now σ).2 = []
  ∧ activeConnections (on_connection ws (Some c) (Some t) now σ).1 !! c = Some ws
  ∧ tokenStorage (on_connection ws (Some c) (Some t) now σ).1 !! t = None.
Proof.
  intros Hc Ht Htok. unfold on_connection.
  rewrite (qtruthy_Some c Hc), (qtruthy_Some t Ht), (bool_decide_eq_true_2 _ Htok).
  cbn [negb orb]. cbv zeta.
  change (callStorage (set_activeConnections _ (set_tokenStorage _ σ)))
    with (callStorage σ).
  destruct (callStorage σ !! c);
    cbn [fst snd store set_callStorage set_activeConnections set_tokenStorage
           activeConnections tokenStorage];
    by rewrite lookup_insert_eq, lookup_delete_eq.
Qed.

(** C4, as amended.  For a session id that has a live socket in the
    registry, a further connection attempt is decided by its token alone:
    without a token, or with a token that is not bound to that session id,
    it is rejected (close code 1008) and the three maps are as before; with
    a token bound to that session id it is accepted, and the registry
    entry of the session is replaced by the new socket. *)
Theorem second_connection_decided_by_token ws0 ws c t now σ :
  activeConnections σ !! c = Some ws0 →
  on_connection ws (Some c) None now σ
    = (σ, [ws_close ws 1008 "Invalid callSid or token"])
  ∧ (tokenStorage σ !! t ≠ Some c →
     on_connection ws (Some c) (Some t) now σ
       = (σ, [ws_close ws 1008 "Invalid callSid or token"]))
  ∧ (c ≠ "" → t ≠ "" → tokenStorage σ !! t = Some c →
     (on_connection ws (Some c) (Some t) now σ).2 = []
     ∧ activeConnections (on_connection ws (Some c) (Some t) now σ).1 !! c = Some ws).
Proof.
  intros _. split; [reflexivity|]. split.
  - apply on_connection_rejects.
  - intros Hc Ht Htok.
    destruct (on_connection_accepts ws c t now σ Hc Ht Htok) as (? & ? & _). by split.
Qed.

Lemma second_connection_decided_by_token_witness :
  on_connection 8 (Some "C1") None 15 (maps (run Scenario.two_tokens boot))
    = (maps (run Scenario.two_tokens boot), [ws_close 8 1008 "Invalid callSid or token"])
  ∧ (tokenStorage (maps (run Scenario.two_tokens boot)) !! "t2" ≠ Some "C1" →
     on_connection 8 (Some "C1") (Some "t2") 15 (maps (run Scenario.two_tokens boot))
       = (maps (run Scenario.two_tokens boot), [ws_close 8 1008 "Invalid callSid or token"]))
  ∧ ("C1" ≠ "" → "t2" ≠ "" →
     tokenStorage (maps (run Scenario.two_tokens boot)) !! "t2" = Some "C1" →
     (on_connection 8 (Some "C1") (Some "t2") 15 (maps (run Scenario.two_tokens boot))).2 = []
     ∧ activeConnections
         (on_connection 8 (Some "C1") (Some "t2") 15 (maps (run Scenario.two_tokens boot))).1
         !! "C1" = Some 8%nat).
Proof.
  apply (second_connection_decided_by_token 7 8 "C1" "t2" 15
           (maps (run Scenario.two_tokens boot))).
  vm_compute. reflexivity.
Defined.

(** C4 as stated fails: session [C1] has socket 7 in the registry and a
    second unconsumed token; the connection of socket 8 with that token is
    not rejected (nothing is closed), the registry entry of [C1] becomes
    socket 8, and socket 7 keeps its listeners. *)
Lemma second_connection_accepted :
  activeConnections (maps (run Scenario.two_tokens boot)) !! "C1" = Some 7%nat
  ∧ log (run (Scenario.two_tokens ++ [WS_connection 8 (Some "C1") (Some "t2") 15]) boot) = []
  ∧ activeConnections
      (maps (run (Scenario.two_tokens ++ [WS_connection 8 (Some "C1") (Some "t2") 15]) boot))
      !! "C1" = Some 8%nat
  ∧ listeners (run (Scenario.two_tokens ++ [WS_connection 8 (Some "C1") (Some "t2") 15]) boot)
      !! 7%nat = Some "C1"
  ∧ listeners (run (Scenario.two_tokens ++ [WS_connection 8 (Some "C1") (Some "t2") 15]) boot)
      !! 8%nat = Some "C1".
Proof. repeat split; vm_compute; reflexivity. Qed.

(** The [message] listener touches neither the tokens nor the registry. *)
Lemma on_message_other_maps ws callSid data now σ :
  tokenStorage (server (on_message ws callSid data now σ)) = tokenStorage σ
  ∧ activeConnections (server (on_message ws callSid data now σ)) = activeConnections σ.
Proof.
  by destruct (on_message_server ws callSid data now σ) as [-> | (d & m & _ & ->)].
Qed.

(** It touches no record but that of its own session. *)
Lemma on_message_other_sessions ws callSid data now σ c :
  c ≠ callSid →
  callStorage (server (on_message ws callSid data now σ)) !! c = callStorage σ !! c.
Proof.
  intros Hne.
  destruct (on_message_server ws callSid data now σ) as [-> | (d & m & _ & ->)]; [done|].
  by apply lookup_store_ne.
Qed.

Lemma on_close_tokenStorage callSid now σ :
  tokenStorage (on_close callSid now σ) = tokenStorage σ.
Proof.
  unfold on_close. cbv zeta.
  change (callStorage (set_activeConnections _ σ)) with (callStorage σ).
  by destruct (callStorage σ !! callSid).
Qed.

(** Only the set-up handler adds a token, and it adds the one it drew. *)
Lemma sampark_tokenStorage c f t' token now σ t :
  token ≠ t →
  tokenStorage σ !! t = None →
  tokenStorage (sampark c f t' token now σ).1 !! t = None.
Proof.
  intros Hne Hnone. unfold sampark.
  destruct c as [c|], f as [f|], t' as [t'|]; try done.
  destruct (negb _ || negb _ || negb _); [done|].
  cbn [generateWebSocketEndpoint fst tokenStorage set_tokenStorage].
  rewrite tokenStorage_store. by rewrite lookup_insert_ne.
Qed.

Lemma on_connection_tokenStorage ws c t' now σ t :
  tokenStorage σ !! t = None →
  tokenStorage (on_connection ws c t' now σ).1 !! t = None.
Proof.
  intros Hnone. unfold on_connection.
  destruct c as [c|], t' as [t'|]; try done.
  destruct (negb _ || negb _ || negb _); [done|]. cbv zeta.
  change (callStorage (set_activeConnections _ (set_tokenStorage _ σ)))
    with (callStorage σ).
  destruct (callStorage σ !! c);
    cbn [fst store set_callStorage set_activeConnections set_tokenStorage tokenStorage];
    apply lookup_delete_None; by right.
Qed.

Lemma step_keeps_token_absent t i r :
  ¬ issues t i →
  tokenStorage (maps r) !! t = None →
  tokenStorage (maps (step i r)) !! t = None.
Proof.
  intros Hi Hnone. unfold step.
  destruct (failure r); [done|].
  destruct i as [c f t' token now|ws c t' now|ws data now|ws now].
  - cbn [maps]. apply sampark_tokenStorage; [|done]. intros ->. by apply Hi.
  - pose proof (on_connection_tokenStorage ws c t' now (maps r) t Hnone) as H.
    by destruct (on_connection ws c t' now (maps r)).
  - destruct (listeners r !! ws); [|done]. cbn [maps].
    by destruct (on_message_other_maps ws s data now (maps r)) as [-> _].
  - destruct (listeners r !! ws); [|done]. cbn [maps].
    by rewrite on_close_tokenStorage.
Qed.

Lemma run_keeps_token_absent t inputs : ∀ r,
  Forall (λ i, ¬ issues t i) inputs →
  tokenStorage (maps r) !! t = None →
  tokenStorage (maps (run inputs r)) !! t = None.
Proof.
  induction inputs as [|i rest IH]; intros r Hall Hnone; [done|].
  apply Forall_cons in Hall as [Hi Hrest]. rewrite run_cons.
  apply IH; [done|]. by apply step_keeps_token_absent.
Qed.

(** C8.  A token bound to session [c] admits the first connection that
    presents it with [c]: the socket is registered and the token deleted.
    From then on, whatever the server receives, as long as no set-up
    request draws the same token value again, every connection attempt
    presenting the token is rejected and changes nothing, for any session
    id.  And a token presented with a session id other than the one it is
    bound to is rejected, the token staying bound. *)
Theorem token_admits_one_connection r ws c t now inputs :
  failure r = None →
  c ≠ "" → t ≠ "" →
  tokenStorage (maps r) !! t = Some c →
  Forall (λ i, ¬ issues t i) inputs →
  let r1 := step (WS_connection ws (Some c) (Some t) now) r in
  activeConnections (maps r1) !! c = Some ws
  ∧ listeners r1 !! ws = Some c
  ∧ log r1 = log r
  ∧ (∀ ws' callSid' now',
       on_connection ws' callSid' (Some t) now' (maps (run inputs r1))
       = (maps (run inputs r1), [ws_close ws' 1008 "Invalid callSid or token"]))
  ∧ (∀ ws' c' now',
       c' ≠ c →
       on_connection ws' (Some c') (Some t) now' (maps r)
       = (maps r, [ws_close ws' 1008 "Invalid callSid or token"])).
Proof.
  intros Hf Hc Ht Htok Hinputs r1.
  destruct (on_connection_accepts ws c t now (maps r) Hc Ht Htok) as (Hacts & Hreg & Hgone).
  assert (passes_admission (Some c) (Some t) (maps r) = true) as Hpass.
  { unfold passes_admission.
    by rewrite (qtruthy_Some c Hc), (qtruthy_Some t Ht), (bool_decide_eq_true_2 _ Htok). }
  assert (maps r1 = (on_connection ws (Some c) (Some t) now (maps r)).1
          ∧ listeners r1 = <[ws := c]> (listeners r)
          ∧ log r1 = log r ++ (on_connection ws (Some c) (Some t) now (maps r)).2)
    as (Hmaps & Hlisteners & Hlog).
  { subst r1. unfold step. rewrite Hf, Hpass.
    by destruct (on_connection ws (Some c) (Some t) now (maps r)). }
  rewrite Hmaps, Hlisteners, Hlog, Hacts, app_nil_r.
  split; [done|]. split; [apply lookup_insert_eq|]. split; [done|]. split.
  - intros ws' callSid' now'.
    assert (tokenStorage (maps (run inputs r1)) !! t = None) as Habsent.
    { apply run_keeps_token_absent; [done|]. by rewrite Hmaps. }
    destruct callSid' as [c'|]; [|done].
    apply on_connection_rejects. by rewrite Habsent.
  - intros ws' c' now' Hne. apply on_connection_rejects. rewrite Htok. congruence.
Qed.

Lemma token_admits_one_connection_witness :
  let r1 := step (WS_connection 7 (Some "C1") (Some "t1") 10)
              (run [GET_sampark (Some "C1") (Some "+1") (Some "+2") "t1" 0] boot) in
  activeConnections (maps r1) !! "C1" = Some 7%nat
  ∧ listeners r1 !! 7%nat = Some "C1"
  ∧ log r1 = log (run [GET_sampark (Some "C1") (Some "+1") (Some "+2") "t1" 0] boot)
  ∧ (∀ ws' callSid' now',
       on_connection ws' callSid' (Some "t1") now' (maps (run Scenario.call r1))
       = (maps (run Scenario.call r1), [ws_close ws' 1008 "Invalid callSid or token"]))
  ∧ (∀ ws' c' now',
       c' ≠ "C1" →
       on_connection ws' (Some c') (Some "t1") now'
         (maps (run [GET_sampark (Some "C1") (Some "+1") (Some "+2") "t1" 0] boot))
       = (maps (run [GET_sampark (Some "C1") (Some "+1") (Some "+2") "t1" 0] boot),
          [ws_close ws' 1008 "Invalid callSid or token"])).
Proof.
  apply (token_admits_one_connection
           (run [GET_sampark (Some "C1") (Some "+1") (Some "+2") "t1" 0] boot)
           7 "C1" "t1" 10 Scenario.call).
  - reflexivity.
  - discriminate.
  - discriminate.
  - vm_compute. reflexivity.
  - repeat constructor; intros H; exact H.
Defined.

(** ** Reachable states *)

(** Membership in a list given by its elements. *)
Ltac in_list := repeat first [apply list_elem_of_here | apply list_elem_of_further].

Lemma evolves_refl m : evolves m m.
Proof. by split. Qed.

Lemma evolves_insert m c d d' :
  m !! c = Some d → (well_formed d → well_formed d') → evolves m (<[c := d']> m).
Proof.
  intros Hd Hwf. split.
  - intros c' Hc'. apply lookup_insert_is_Some'. by right.
  - intros Hok c' d''. rewrite lookup_insert. case_decide as Hc.
    + intros [= <-]. apply Hwf. by eapply Hok.
    + apply Hok.
Qed.

Lemma well_formed_record_after m now d : well_formed d → well_formed (record_after m now d).
Proof.
  intros [Hs Ht]. unfold record_after, well_formed, statuses.
  destruct (negb (dispatched m)); [by split|].
  destruct (valid_start m); [split; [cbn; in_list|done]|].
  destruct (valid_media m); [by split|].
  destruct (valid_stop m); [split; [cbn; in_list|done]|].
  destruct (valid_xfer m); [split; [cbn; in_list|done]|].
  by split.
Qed.

Lemma on_message_evolves ws callSid data now σ :
  evolves (callStorage σ) (callStorage (server (on_message ws callSid data now σ))).
Proof.
  destruct (on_message_server ws callSid data now σ) as [-> | (d & m & Hd & ->)];
    [apply evolves_refl|].
  rewrite callStorage_store. eapply evolves_insert; [done|].
  apply well_formed_record_after.
Qed.

Lemma on_close_evolves callSid now σ :
  evolves (callStorage σ) (callStorage (on_close callSid now σ)).
Proof.
  unfold on_close. cbv zeta.
  change (callStorage (set_activeConnections _ σ)) with (callStorage σ).
  destruct (callStorage σ !! callSid) as [d|] eqn:Hd; [|apply evolves_refl].
  rewrite callStorage_store.
  change (callStorage (set_activeConnections _ σ)) with (callStorage σ).
  eapply evolves_insert; [done|]. intros [_ [t0 Ht]].
  cbn [startTime set_endTime set_status]. rewrite Ht.
  split; [unfold statuses; cbn; in_list|by exists t0].
Qed.

Lemma on_connection_evolves ws c t now σ :
  evolves (callStorage σ) (callStorage (on_connection ws c t now σ).1).
Proof.
  unfold on_connection.
  destruct c as [c|], t as [t|]; try apply evolves_refl.
  destruct (negb _ || negb _ || negb _); [apply evolves_refl|]. cbv zeta.
  change (callStorage (set_activeConnections _ (set_tokenStorage _ σ)))
    with (callStorage σ).
  destruct (callStorage σ !! c) as [d|] eqn:Hd; [|apply evolves_refl].
  cbn [fst]. rewrite callStorage_store.
  change (callStorage (set_activeConnections _ (set_tokenStorage _ σ)))
    with (callStorage σ).
  eapply evolves_insert; [done|]. intros [_ Ht].
  split; [unfold statuses; cbn; in_list|done].
Qed.

(** The connection handler closes the socket exactly when the admission
    check fails. *)
Lemma on_connection_passes ws c t now σ :
  (on_connection ws c t now σ).2 = [] ↔ passes_admission c t σ = true.
Proof.
  unfold on_connection, passes_admission.
  destruct c as [c|], t as [t|]; try done.
  destruct (qtruthy (Some c)), (qtruthy (Some t)),
    (bool_decide (tokenStorage σ !! t = Some c)); cbn [negb orb andb]; try done.
  cbv zeta.
  change (callStorage (set_activeConnections _ (set_tokenStorage _ σ)))
    with (callStorage σ).
  by destruct (callStorage σ !! c).
Qed.

Lemma sampark_maps c f t token now σ :
  (sampark c f t token now σ).1 = σ
  ∨ ∃ c0 d0,
      well_formed d0
      ∧ callStorage (sampark c f t token now σ).1 = <[c0 := d0]> (callStorage σ)
      ∧ tokenStorage (sampark c f t token now σ).1 = <[token := c0]> (tokenStorage σ).
Proof.
  unfold sampark.
  destruct c as [c|], f as [f|], t as [t|]; try by left.
  destruct (negb _ || negb _ || negb _); [by left|]. right.
  eexists c, _. split; [|by split].
  split; [unfold statuses; cbn; in_list|by eexists].
Qed.

Lemma on_connection_tokens ws c t now σ t' c' :
  tokenStorage (on_connection ws c t now σ).1 !! t' = Some c' →
  tokenStorage σ !! t' = Some c'.
Proof.
  unfold on_connection.
  destruct c as [c|], t as [t|]; try done.
  destruct (negb _ || negb _ || negb _); [done|]. cbv zeta.
  change (callStorage (set_activeConnections _ (set_tokenStorage _ σ)))
    with (callStorage σ).
  destruct (callStorage σ !! c);
    cbn [fst store set_callStorage set_activeConnections set_tokenStorage tokenStorage];
    by intros [_ ?]%lookup_delete_Some.
Qed.

Lemma passes_admission_token c t σ :
  passes_admission c t σ = true →
  ∃ c0 t0, c = Some c0 ∧ t = Some t0 ∧ tokenStorage σ !! t0 = Some c0.
Proof.
  unfold passes_admission. destruct c as [c|], t as [t|]; try done.
  intros [_ H]%andb_true_iff. apply bool_decide_eq_true in H. by exists c, t.
Qed.

Lemma consistent_boot : consistent boot.
Proof.
  unfold consistent, boot, empty_server. cbn [maps listeners tokenStorage callStorage].
  split; [|split]; intros x y; by rewrite lookup_empty.
Qed.

Lemma consistent_step i r : consistent r → consistent (step i r).
Proof.
  intros (Htok & Hlis & Hrec). unfold step.
  destruct (failure r); [done|].
  destruct i as [c f t token now|ws c t now|ws data now|ws now].
  - destruct (sampark_maps c f t token now (maps r))
      as [Heq | (c0 & d0 & Hwf & Hcalls & Htokens)].
    + unfold consistent. cbn [maps listeners]. by rewrite Heq.
    + unfold consistent. cbn [maps listeners]. rewrite Hcalls, Htokens.
      split; [|split].
      * intros t' c'. rewrite lookup_insert. case_decide.
        -- intros [= <-]. rewrite lookup_insert_eq. by eexists.
        -- intros H'. apply lookup_insert_is_Some'. right. by eapply Htok.
      * intros ws c' H'. apply lookup_insert_is_Some'. right. by eapply Hlis.
      * intros c' d'. rewrite lookup_insert. case_decide.
        -- by intros [= <-].
        -- apply Hrec.
  - pose proof (on_connection_evolves ws c t now (maps r)) as [Hmono Hwf].
    pose proof (on_connection_tokens ws c t now (maps r)) as Hsub.
    destruct (on_connection ws c t now (maps r)) as [σ' acts] eqn:Hconn.
    cbn [fst] in Hmono, Hwf, Hsub.
    unfold consistent. cbn [maps listeners]. split; [|split].
    + intros t' c' H'. apply Hmono. eapply Htok. by apply Hsub.
    + intros ws' c'. destruct (passes_admission c t (maps r)) eqn:Hpass.
      * apply passes_admission_token in Hpass as (c0 & t0 & -> & -> & Ht0).
        cbn [default]. rewrite lookup_insert. case_decide.
        -- intros [= <-]. apply Hmono. by eapply Htok.
        -- intros H'. apply Hmono. by eapply Hlis.
      * intros H'. apply Hmono. by eapply Hlis.
    + by apply Hwf.
  - destruct (listeners r !! ws) as [callSid|]; [|done].
    pose proof (on_message_evolves ws callSid data now (maps r)) as [Hmono Hwf].
    destruct (on_message_other_maps ws callSid data now (maps r)) as [Htokens _].
    unfold consistent. cbn [maps listeners]. rewrite Htokens. split; [|split].
    + intros t' c' H'. apply Hmono. by eapply Htok.
    + intros ws' c' H'. apply Hmono. by eapply Hlis.
    + by apply Hwf.
  - destruct (listeners r !! ws) as [callSid|]; [|done].
    pose proof (on_close_evolves callSid now (maps r)) as [Hmono Hwf].
    unfold consistent. cbn [maps listeners]. rewrite on_close_tokenStorage.
    split; [|split].
    + intros t' c' H'. apply Hmono. by eapply Htok.
    + intros ws' c' [_ H']%lookup_delete_Some. apply Hmono. by eapply Hlis.
    + by apply Hwf.
Qed.

(** Every state the server reaches from its start is consistent. *)
Lemma consistent_run inputs : ∀ r, consistent r → consistent (run inputs r).
Proof.
  induction inputs as [|i rest IH]; intros r Hr; [done|].
  rewrite run_cons. apply IH. by apply consistent_step.
Qed.

(** In particular a socket that carries listeners belongs to a session
    with a record: the hypothesis of the theorems on the [message]
    listener holds on every bound socket. *)
Lemma bound_socket_has_record inputs ws callSid :
  listeners (run inputs boot) !! ws = Some callSid →
  ∃ d, callStorage (maps (run inputs boot)) !! callSid = Some d ∧ well_formed d.
Proof.
  intros Hl.
  destruct (consistent_run inputs boot consistent_boot) as (_ & Hlis & Hrec).
  destruct (Hlis ws callSid Hl) as [d Hd]. exists d. split; [done|]. by eapply Hrec.
Qed.

(** ** The scenario of the specification *)

(** Set-up of [C1], connection, start with sequence number 0, one media
    chunk with sequence number 1, stop with sequence number 2: the
    acknowledgements carry 1, 1001 (echoing the payload) and 3, and the
    close of the socket is scheduled. *)
Example scenario_log :
  log (run (Scenario.setup ++ Scenario.call) boot) =
    [ws_send 7
       (JObj [("event", JStr "start"); ("sequence_number", JNum 1);
              ("stream_sid", JStr "S1");
              ("start",
               JObj [("stream_sid", JStr "S1"); ("call_sid", JStr "C1");
                     ("account_sid", JStr "A1"); ("from", JStr "+1"); ("to", JStr "+2");
                     ("custom_parameters", JObj []);
                     ("media_format", Scenario.format "pcmu")])]);
     ws_send 7
       (JObj [("event", JStr "media"); ("sequence_number", JNum 1001);
              ("stream_sid", JStr "C1");
              ("media",
               JObj [("chunk", JNum 1); ("timestamp", JStr "30");
                     ("payload", JStr "QQ==")])]);
     ws_send 7
       (JObj [("event", JStr "stop"); ("sequence_number", JNum 3);
              ("stream_sid", JStr "S1");
              ("stop",
               JObj [("call_sid", JStr "C1"); ("account_sid", JStr "A1");
                     ("reason", JStr "completed")])]);
     setTimeout_ws_close 7 1000 1000 "Call ended"].
Proof. vm_compute. reflexivity. Qed.

Example scenario_statuses :
  status_of "C1" (maps (run [GET_sampark (Some "C1") (Some "+1") (Some "+2") "t1" 0] boot))
    = Some "initiated"
  ∧ status_of "C1" (maps (run Scenario.setup boot)) = Some "connected"
  ∧ status_of "C1" (maps (run (Scenario.setup ++ take 1 Scenario.call) boot)) = Some "started"
  ∧ status_of "C1" (maps (run (Scenario.setup ++ take 2 Scenario.call) boot)) = Some "started"
  ∧ status_of "C1" (maps (run (Scenario.setup ++ Scenario.call) boot)) = Some "stopped".
Proof. repeat split; vm_compute; reflexivity. Qed.

(** * Further properties of the listeners and endpoints *)

(** ** What every envelope does *)

Lemma error_envelope_value m callSid error :
  converts (prop m "sequence_number") = true →
  error_envelope m callSid error = inr (value (error_envelope m callSid error)).
Proof. intros H. unfold error_envelope. by rewrite (plus_converts _ _ H). Qed.

Lemma start_response_no_error m :
  prop (JSON_stringify (value (start_response m))) "error" = JUndefined.
Proof.
  unfold start_response. cbv zeta.
  destruct (plus (prop m "sequence_number") 1) as [e|[]], (prop m "stream_sid");
    reflexivity.
Qed.

Lemma end_response_no_error kind m :
  kind = "stop" ∨ kind = "xfer" →
  prop (JSON_stringify (value (end_response kind m))) "error" = JUndefined.
Proof.
  intros [-> | ->]; unfold end_response; cbv zeta;
    destruct (plus (prop m "sequence_number") 1) as [e|[]], (prop m "stream_sid");
    reflexivity.
Qed.

Lemma echoResponse_no_error callSid m now :
  prop (JSON_stringify (value (echoResponse callSid m now))) "error" = JUndefined.
Proof.
  unfold echoResponse. cbv zeta.
  destruct (plus (prop m "sequence_number") 1000) as [e|[]]; reflexivity.
Qed.

Lemma error_envelope_error m callSid error :
  converts (prop m "sequence_number") = true →
  prop (JSON_stringify (value (error_envelope m callSid error))) "error" = JStr error.
Proof. intros H. by rewrite stringify_error_envelope. Qed.

Lemma scheduled_close_other ws m kind :
  prop m "event" = JStr kind → kind ≠ "stop" → kind ≠ "xfer" → scheduled_close ws m = [].
Proof.
  intros Hev H1 H2. unfold scheduled_close, valid_stop, valid_xfer. rewrite Hev.
  cbn [is_str].
  destruct (String.eqb_spec kind "stop") as [|_]; [done|].
  by destruct (String.eqb_spec kind "xfer") as [|_].
Qed.

(** What the listener does with a document other than [null], for a
    session with a record: either it is left by an exception, having sent
    nothing, or it returns, having sent one frame, which is not the "Call
    data not found" envelope, and scheduled the close of the socket when
    the document is a valid stop or xfer. *)
Lemma handleWebSocketEvent_cases ws callSid now σ d m :
  callStorage σ !! callSid = Some d →
  nullish m = false →
  let o := handleWebSocketEvent callSid m ws now σ in
  (uncaught o = Some TypeError ∧ actions o = [])
  ∨ (uncaught o = None
     ∧ ∃ e, actions o = ws_send ws e :: scheduled_close ws m
            ∧ prop e "error" ≠ JStr "Call data not found").
Proof.
  intros Hd Hm o. subst o.
  rewrite (handleWebSocketEvent_logged _ _ _ _ d Hd) by done. cbv zeta.
  destruct (dispatched m) eqn:Hdisp; cbn [negb]; [|by left].
  destruct (dispatched_inv m Hdisp) as [Hkind Hseq].
  assert (∀ error rest σ',
            error ≠ "Call data not found" →
            let o := send_then ws (error_envelope m callSid error) rest σ' in
            uncaught o = None
            ∧ ∃ e, actions o = ws_send ws e :: rest
                   ∧ prop e "error" ≠ JStr "Call data not found") as Herr.
  { intros error rest σ' Hne. cbv zeta. rewrite error_envelope_value by done.
    rewrite send_then_inr. cbn [uncaught actions]. split; [done|].
    eexists. split; [done|]. rewrite error_envelope_error by done. by intros [=]. }
  destruct (is_str (prop m "event") "start") eqn:E1.
  { apply is_str_true in E1. rewrite (scheduled_close_other ws m "start") by done.
    unfold handleStartEvent. rewrite lookup_store.
    destruct (invalid_start m); [right; by apply Herr|].
    destruct (console_log_raises _ _); [by left|]. right.
    rewrite start_response_converts by done. rewrite send_then_inr.
    cbn [uncaught actions]. split; [done|]. eexists. split; [done|].
    by rewrite start_response_no_error. }
  destruct (is_str (prop m "event") "media") eqn:E2.
  { apply is_str_true in E2. rewrite (scheduled_close_other ws m "media") by done.
    unfold handleMediaEvent. rewrite lookup_store.
    destruct (invalid_media m); [right; by apply Herr|].
    destruct (negb (converts _)); [by left|]. right.
    unfold media_try. destruct (Buffer_from_returns _); [|by apply Herr].
    rewrite echoResponse_converts by done. rewrite send_then_inr.
    cbn [uncaught actions]. split; [done|]. eexists. split; [done|].
    by rewrite echoResponse_no_error. }
  destruct (is_str (prop m "event") "stop") eqn:E3.
  { apply is_str_true in E3.
    unfold scheduled_close, valid_stop. rewrite E3. cbn [is_str String.eqb Ascii.eqb Bool.eqb andb].
    unfold handleStopEvent. rewrite lookup_store.
    destruct (invalid_stop m); cbn [negb].
    { right. unfold valid_xfer. rewrite E3. cbn [is_str String.eqb Ascii.eqb Bool.eqb andb].
      by apply Herr. }
    destruct (negb (converts _)); [by left|]. right.
    rewrite end_response_converts by done. rewrite send_then_inr.
    cbn [uncaught actions]. split; [done|]. eexists. split; [done|].
    rewrite end_response_no_error by auto. done. }
  destruct (is_str (prop m "event") "xfer") eqn:E4.
  { apply is_str_true in E4.
    unfold scheduled_close, valid_stop, valid_xfer. rewrite E4.
    cbn [is_str String.eqb Ascii.eqb Bool.eqb andb].
    unfold handleXferEvent. rewrite lookup_store.
    destruct (invalid_xfer m); cbn [negb]; [right; by apply Herr|].
    cbv zeta. destruct (negb (_ && _ && _)); [by left|]. right.
    rewrite end_response_converts by done. rewrite send_then_inr.
    cbn [uncaught actions]. split; [done|]. eexists. split; [done|].
    rewrite end_response_no_error by auto. done. }
  right. unfold scheduled_close, valid_stop, valid_xfer. rewrite E3, E4. cbn [andb].
  unfold unknown_event_envelope. destruct (converts_ToString _ Hkind) as [text ->].
  apply Herr. discriminate.
Qed.

Lemma on_message_cases ws callSid now σ d m :
  callStorage σ !! callSid = Some d →
  nullish m = false →
  let o := on_message ws callSid (JSONText m) now σ in
  (uncaught o = Some ReferenceError ∧ actions o = [])
  ∨ (uncaught o = None
     ∧ ∃ e, actions o = ws_send ws e :: scheduled_close ws m
            ∧ prop e "error" ≠ JStr "Call data not found").
Proof.
  intros Hd Hm o. subst o. rewrite on_message_parsed. cbv zeta. cbn [uncaught actions].
  destruct (handleWebSocketEvent_cases ws callSid now σ d m Hd Hm) as [[-> ->] | [-> H]];
    [by left|by right].
Qed.

(** A listener that is left by an exception has sent nothing. *)
Lemma raising_listener_sends_nothing ws callSid data now σ :
  uncaught (on_message ws callSid data now σ) ≠ None →
  actions (on_message ws callSid data now σ) = [].
Proof.
  destruct data as [text|m]; [done|]. rewrite on_message_parsed. cbv zeta.
  cbn [uncaught actions]. intros Hu.
  assert (uncaught (handleWebSocketEvent callSid m ws now σ) ≠ None) as Hu'.
  { by destruct (uncaught _). }
  clear Hu. revert Hu'. unfold handleWebSocketEvent.
  destruct (callStorage σ !! callSid) as [d|] eqn:Hd.
  - destruct (nullish m); [done|]. destruct (negb (_ && _)); [done|].
    destruct (is_str _ "start").
    { unfold handleStartEvent. rewrite lookup_store.
      destruct (invalid_start m); [apply send_then_raises|].
      destruct (console_log_raises _ _); [done|apply send_then_raises]. }
    destruct (is_str _ "media").
    { unfold handleMediaEvent. rewrite lookup_store.
      destruct (invalid_media m); [apply send_then_raises|].
      destruct (negb (converts _)); [done|].
      destruct (media_try _ _ _); apply send_then_raises. }
    destruct (is_str _ "stop").
    { unfold handleStopEvent. rewrite lookup_store.
      destruct (invalid_stop m); [apply send_then_raises|].
      destruct (negb (converts _)); [done|apply send_then_raises]. }
    destruct (is_str _ "xfer").
    { unfold handleXferEvent. rewrite lookup_store.
      destruct (invalid_xfer m); [apply send_then_raises|].
      cbv zeta. destruct (negb (_ && _ && _)); [done|apply send_then_raises]. }
    apply send_then_raises.
  - destruct (nullish m); [done|]. destruct (negb _); [done|]. apply send_then_raises.
Qed.

Lemma record_after_events m now d :
  events (record_after m now d) = events d ++ [log_entry m now].
Proof.
  unfold record_after. destruct (negb (dispatched m)); [done|].
  destruct (valid_start m); [done|]. destruct (valid_media m); [done|].
  destruct (valid_stop m); [done|]. by destruct (valid_xfer m).
Qed.

Lemma record_after_audioChunks m now d :
  audioChunks (record_after m now d)
  = audioChunks d ++ (if valid_media m && dispatched m then [audioChunk m now] else []).
Proof.
  unfold record_after.
  destruct (valid_kinds_exclusive m) as (Hstart & _).
  destruct (dispatched m); cbn [negb]; [|by rewrite andb_false_r, app_nil_r].
  rewrite andb_true_r.
  destruct (valid_start m); [by destruct (Hstart eq_refl) as (-> & _); rewrite app_nil_r|].
  destruct (valid_media m); [done|]. rewrite app_nil_r.
  destruct (valid_stop m); [done|]. by destruct (valid_xfer m).
Qed.

Lemma record_after_startTime m now d : startTime (record_after m now d) = startTime d.
Proof.
  unfold record_after. destruct (negb (dispatched m)); [done|].
  destruct (valid_start m); [done|]. destruct (valid_media m); [done|].
  destruct (valid_stop m); [done|]. by destruct (valid_xfer m).
Qed.

(** X1.  The event log is append-only and takes every document: for a
    session with a record, each JSON document other than [null] received on
    its socket, valid or not and whatever its kind, adds exactly one entry
    at the end of the log, holding the envelope's [event],
    [sequence_number], [stream_sid], the arrival time and a copy of the
    whole envelope; [null] and a frame that is not JSON add nothing. *)
Theorem every_document_logged ws callSid now σ d data :
  callStorage σ !! callSid = Some d →
  ∃ d', callStorage (server (on_message ws callSid data now σ)) !! callSid = Some d'
    ∧ events d' =
        events d ++ match data with
                    | JSONText m => if nullish m then [] else [log_entry m now]
                    | NotJSON _ => []
                    end.
Proof.
  intros Hd. eexists. split; [by apply on_message_lookup|].
  destruct data as [text|m]; [by rewrite app_nil_r|].
  destruct (nullish m); [by rewrite app_nil_r|]. apply record_after_events.
Qed.

Lemma every_document_logged_witness :
  ∃ d', callStorage
          (server (on_message 7 "C1" (JSONText (JNum 5)) 20 (maps (run Scenario.setup boot))))
          !! "C1" = Some d'
    ∧ events d' = events Scenario.connected_record ++ [log_entry (JNum 5) 20].
Proof.
  apply (every_document_logged 7 "C1" 20 (maps (run Scenario.setup boot))
           Scenario.connected_record (JSONText (JNum 5))).
  vm_compute. reflexivity.
Defined.

(** X2.  A chunk is recorded exactly for a media envelope that passes the
    field check and reaches its handler (the sequence number converts to
    text, so that the dispatcher gets past its log line): such an envelope
    adds one entry (chunk, timestamp, the [length] property of the payload,
    arrival time) at the end of [audioChunks]; every other frame leaves the
    list as it is. *)
Theorem chunk_recorded_iff_valid_media ws callSid now σ d data :
  callStorage σ !! callSid = Some d →
  ∃ d', callStorage (server (on_message ws callSid data now σ)) !! callSid = Some d'
    ∧ audioChunks d' =
        audioChunks d ++ match data with
                         | JSONText m =>
                             if valid_media m && dispatched m
                             then [audioChunk m now] else []
                         | NotJSON _ => []
                         end.
Proof.
  intros Hd. eexists. split; [by apply on_message_lookup|].
  destruct data as [text|m]; [by rewrite app_nil_r|].
  destruct (nullish m) eqn:Hm; [|apply record_after_audioChunks].
  destruct m; try discriminate; by rewrite app_nil_r.
Qed.

Lemma chunk_recorded_iff_valid_media_witness :
  ∃ d', callStorage
          (server (on_message 7 "C1" (JSONText (Scenario.media_event 1 1)) 30
                     (maps (run Scenario.setup boot))))
          !! "C1" = Some d'
    ∧ audioChunks d' =
        audioChunks Scenario.connected_record
          ++ (if valid_media (Scenario.media_event 1 1)
                 && dispatched (Scenario.media_event 1 1)
              then [audioChunk (Scenario.media_event 1 1) 30] else []).
Proof.
  apply (chunk_recorded_iff_valid_media 7 "C1" 30 (maps (run Scenario.setup boot))
           Scenario.connected_record (JSONText (Scenario.media_event 1 1))).
  vm_compute. reflexivity.
Defined.

(** X3.  A media envelope that passes the field check with a payload that
    is a number or a boolean (truthy, but not something [Buffer.from]
    decodes), whose chunk index converts to a number, is answered with the
    "Failed to process audio chunk" error envelope, whose sequence number
    is the inbound one plus 1, and is nevertheless recorded in
    [audioChunks], with an undefined payload size. *)
Theorem refused_payload_still_recorded ws callSid now σ d m S :
  callStorage σ !! callSid = Some d →
  valid_media m = true →
  converts (prop (prop m "media") "chunk") = true →
  (∃ n, prop (prop m "media") "payload" = JNum n)
  ∨ (∃ b, prop (prop m "media") "payload" = JBool b) →
  prop m "sequence_number" = JNum S →
  isSafeInteger (S + 1) →
  uncaught (on_message ws callSid (JSONText m) now σ) = None
  ∧ actions (on_message ws callSid (JSONText m) now σ)
    = [ws_send ws
         (JObj [("event", JStr "error");
                ("sequence_number", JNum (S + 1));
                ("stream_sid", JStr callSid);
                ("error", JStr "Failed to process audio chunk")])]
  ∧ ∃ d' c,
      callStorage (server (on_message ws callSid (JSONText m) now σ)) !! callSid = Some d'
      ∧ audioChunks d' = audioChunks d ++ [c]
      ∧ payloadSize c = JUndefined.
Proof.
  intros Hd Hv Hchunk Hpayload Hseq Hsafe.
  assert (converts (prop m "sequence_number") = true) as Hconv by (by rewrite Hseq).
  rewrite (on_message_media callSid ws now σ d Hd m Hv Hconv Hchunk).
  cbn [actions server uncaught].
  assert (Buffer_from_returns (prop (prop m "media") "payload") = false
          ∧ prop (prop (prop m "media") "payload") "length" = JUndefined) as [-> Hlen].
  { by destruct Hpayload as [[n ->] | [b ->]]. }
  rewrite stringify_error_envelope by done. rewrite Hseq, plus_safe by done.
  split; [done|]. split; [done|].
  eexists _, (audioChunk m now). rewrite lookup_store. split; [done|]. split; [done|].
  exact Hlen.
Qed.

Lemma refused_payload_still_recorded_witness :
  uncaught (on_message 7 "C1" (JSONText (Scenario.media_event_with (JNum 1) (JNum 5))) 30
              (maps (run Scenario.setup boot))) = None
  ∧ actions (on_message 7 "C1" (JSONText (Scenario.media_event_with (JNum 1) (JNum 5))) 30
               (maps (run Scenario.setup boot)))
    = [ws_send 7
         (JObj [("event", JStr "error");
                ("sequence_number", JNum (4 + 1));
                ("stream_sid", JStr "C1");
                ("error", JStr "Failed to process audio chunk")])]
  ∧ ∃ d' c,
      callStorage
        (server (on_message 7 "C1"
                   (JSONText (Scenario.media_event_with (JNum 1) (JNum 5))) 30
                   (maps (run Scenario.setup boot))))
        !! "C1" = Some d'
      ∧ audioChunks d' = audioChunks Scenario.connected_record ++ [c]
      ∧ payloadSize c = JUndefined.
Proof.
  apply (refused_payload_still_recorded 7 "C1" 30 (maps (run Scenario.setup boot))
           Scenario.connected_record _ 4).
  - vm_compute. reflexivity.
  - reflexivity.
  - reflexivity.
  - left. by exists 5.
  - reflexivity.
  - unfold isSafeInteger. simpl. lia.
Defined.

(** When the chunk index of such an envelope does not convert to a number,
    the chunk is recorded and the handler raises on [chunk % 100], before
    its [try] block: no frame is sent. *)
Example raising_chunk_unanswered :
  let m := Scenario.media_event_with (JObj [("toString", JNum 1)]) (JNum 5) in
  let o := on_message 7 "C1" (JSONText m) 30 (maps (run Scenario.setup boot)) in
  valid_media m = true
  ∧ uncaught o = Some ReferenceError
  ∧ actions o = []
  ∧ (length ∘ audioChunks <$> callStorage (server o) !! "C1") = Some 1%nat.
Proof. repeat split; vm_compute; reflexivity. Qed.

(** X4.  One reply per envelope: for a session with a record, every JSON
    document on which no conversion raises ([plain]) is answered by
    exactly one frame, and nothing else is done to the socket except that
    its close is scheduled, 1000 ms later with code 1000, exactly after a
    valid stop ("Call ended") or a valid xfer ("Call transferred").  The
    socket is never closed at once. *)
Theorem one_reply_per_envelope ws callSid now σ d m :
  callStorage σ !! callSid = Some d →
  plain m = true →
  uncaught (on_message ws callSid (JSONText m) now σ) = None
  ∧ ∃ e, actions (on_message ws callSid (JSONText m) now σ)
         = ws_send ws e :: scheduled_close ws m.
Proof.
  intros Hd Hplain.
  pose proof (on_message_returns callSid ws now σ d Hd m Hplain) as Hu.
  split; [done|].
  destruct (plain_inv m Hplain) as (Hm & _).
  destruct (on_message_cases ws callSid now σ d m Hd Hm) as [[Hr _] | (_ & e & He & _)].
  - congruence.
  - by exists e.
Qed.

Lemma one_reply_per_envelope_witness :
  uncaught (on_message 7 "C1" (JSONText (Scenario.end_event "xfer" 2)) 40
              (maps (run Scenario.setup boot))) = None
  ∧ ∃ e, actions (on_message 7 "C1" (JSONText (Scenario.end_event "xfer" 2)) 40
                    (maps (run Scenario.setup boot)))
         = ws_send 7 e :: scheduled_close 7 (Scenario.end_event "xfer" 2).
Proof.
  apply (one_reply_per_envelope 7 "C1" 40 (maps (run Scenario.setup boot))
           Scenario.connected_record (Scenario.end_event "xfer" 2)).
  - vm_compute. reflexivity.
  - reflexivity.
Defined.

(** A document whose [event] is an object with an own [toString] property
    is logged and gets no reply: the dispatcher raises on its log line. *)
Example raising_kind_unanswered :
  let m := JObj [("event", JObj [("toString", JNum 1)])] in
  let o := on_message 7 "C1" (JSONText m) 20 (maps (run Scenario.setup boot)) in
  plain m = false
  ∧ uncaught o = Some ReferenceError
  ∧ actions o = []
  ∧ (length ∘ events <$> callStorage (server o) !! "C1") = Some 1%nat.
Proof. repeat split; vm_compute; reflexivity. Qed.

(** X5.  An envelope whose [event] is none of [start], [media], [stop],
    [xfer] (a missing [event] included) and converts to the text [text],
    and whose sequence number plus 1 evaluates to [next], is logged and
    answered with one error envelope naming [text], with [next] as
    sequence number; the record is otherwise unchanged. *)
Theorem unknown_kind_reply ws callSid now σ d m text next :
  callStorage σ !! callSid = Some d →
  nullish m = false →
  (∀ kind, kind ∈ ["start"; "media"; "stop"; "xfer"] → prop m "event" ≠ JStr kind) →
  ToString (prop m "event") = inr text →
  plus (prop m "sequence_number") 1 = inr next →
  on_message ws callSid (JSONText m) now σ =
    {| server := store callSid (logged m now d) σ;
       actions :=
         [ws_send ws
            (JObj [("event", JStr "error");
                   ("sequence_number", JSON_stringify next);
                   ("stream_sid", JStr callSid);
                   ("error", JStr ("Unknown event type: " +:+ text))])];
       uncaught := None |}.
Proof.
  intros Hd Hm Hkind Htext Hnext.
  pose proof (plus_inr_converts _ _ _ Hnext) as Hseq.
  rewrite on_message_parsed.
  rewrite (handleWebSocketEvent_logged _ _ _ _ d Hd) by done. cbv zeta.
  assert (converts (prop m "event") = true) as Hev by (unfold converts; by rewrite Htext).
  unfold dispatched. rewrite Hev, Hseq. cbn [andb negb].
  assert (∀ kind, kind ∈ ["start"; "media"; "stop"; "xfer"] →
                  is_str (prop m "event") kind = false) as Hno.
  { intros kind Hin. destruct (is_str (prop m "event") kind) eqn:E; [|done].
    apply is_str_true in E. by apply Hkind in E. }
  rewrite !Hno by in_list.
  unfold unknown_event_envelope. rewrite Htext.
  rewrite error_envelope_value by done. rewrite send_then_inr.
  rewrite stringify_error_envelope by done. by rewrite Hnext.
Qed.

Lemma unknown_kind_reply_witness :
  on_message 7 "C1"
    (JSONText (JObj [("event", JNum (10 ^ 21)); ("sequence_number", JNum 9)])) 20
    (maps (run Scenario.setup boot)) =
    {| server := store "C1"
                   (logged (JObj [("event", JNum (10 ^ 21)); ("sequence_number", JNum 9)])
                      20 Scenario.connected_record)
                   (maps (run Scenario.setup boot));
       actions :=
         [ws_send 7
            (JObj [("event", JStr "error");
                   ("sequence_number", JSON_stringify (JNum 10));
                   ("stream_sid", JStr "C1");
                   ("error", JStr ("Unknown event type: " +:+ "1e+21"))])];
       uncaught := None |}.
Proof.
  apply (unknown_kind_reply 7 "C1" 20 (maps (run Scenario.setup boot))
           Scenario.connected_record
           (JObj [("event", JNum (10 ^ 21)); ("sequence_number", JNum 9)])).
  - vm_compute. reflexivity.
  - reflexivity.
  - intros kind _. discriminate.
  - vm_compute. reflexivity.
  - reflexivity.
Defined.

(** X6.  The [message] listener of a session changes no other session's
    record, no token and no registry entry, whatever the frame. *)
Theorem message_listener_isolation ws callSid data now σ :
  tokenStorage (server (on_message ws callSid data now σ)) = tokenStorage σ
  ∧ activeConnections (server (on_message ws callSid data now σ)) = activeConnections σ
  ∧ ∀ c, c ≠ callSid →
      callStorage (server (on_message ws callSid data now σ)) !! c = callStorage σ !! c.
Proof.
  destruct (on_message_other_maps ws callSid data now σ) as [Ht Ha].
  split; [done|]. split; [done|]. intros c Hc. by apply on_message_other_sessions.
Qed.

(** ** Histories *)

Lemma continues_refl d : continues d d.
Proof. by repeat split. Qed.

Lemma continues_trans d1 d2 d3 : continues d1 d2 → continues d2 d3 → continues d1 d3.
Proof.
  intros (He & Ha & Hs) (He' & Ha' & Hs'). repeat split.
  - by etrans.
  - by etrans.
  - congruence.
Qed.

Lemma continues_record_after m now d : continues d (record_after m now d).
Proof.
  repeat split.
  - rewrite record_after_events. by apply prefix_app_r.
  - rewrite record_after_audioChunks. by apply prefix_app_r.
  - apply record_after_startTime.
Qed.

(** The set-up handler writes the record of the session it sets up, and
    no other. *)
Lemma sampark_other_sessions c f t token now σ c' :
  c ≠ Some c' →
  callStorage (sampark c f t token now σ).1 !! c' = callStorage σ !! c'.
Proof.
  intros Hne. unfold sampark.
  destruct c as [c|], f as [f|], t as [t|]; try done.
  destruct (negb _ || negb _ || negb _); [done|].
  cbn [generateWebSocketEndpoint fst callStorage set_tokenStorage].
  apply lookup_store_ne. congruence.
Qed.

Lemma sampark_activeConnections c f t token now σ :
  activeConnections (sampark c f t token now σ).1 = activeConnections σ.
Proof.
  unfold sampark.
  destruct c as [c|], f as [f|], t as [t|]; try done.
  by destruct (negb _ || negb _ || negb _).
Qed.

(** The connection handler leaves every history as it is. *)
Lemma on_connection_continues ws c t now σ c' d :
  callStorage σ !! c' = Some d →
  ∃ d', callStorage (on_connection ws c t now σ).1 !! c' = Some d' ∧ continues d d'.
Proof.
  intros Hd. unfold on_connection.
  destruct c as [c|], t as [t|]; try (exists d; split; [done|apply continues_refl]).
  destruct (negb _ || negb _ || negb _); [exists d; split; [done|apply continues_refl]|].
  cbv zeta.
  change (callStorage (set_activeConnections _ (set_tokenStorage _ σ)))
    with (callStorage σ).
  destruct (callStorage σ !! c) as [d0|] eqn:Hd0; cbn [fst];
    [|exists d; split; [done|apply continues_refl]].
  rewrite callStorage_store.
  change (callStorage (set_activeConnections _ (set_tokenStorage _ σ)))
    with (callStorage σ).
  rewrite lookup_insert. case_decide as Hc.
  - subst c'. rewrite Hd0 in Hd. injection Hd as ->. eexists. split; [done|].
    by repeat split.
  - exists d. split; [done|apply continues_refl].
Qed.

Lemma on_close_other_sessions callSid now σ c :
  c ≠ callSid → callStorage (on_close callSid now σ) !! c = callStorage σ !! c.
Proof.
  intros Hne. unfold on_close. cbv zeta.
  change (callStorage (set_activeConnections _ σ)) with (callStorage σ).
  destruct (callStorage σ !! callSid); [|done].
  by rewrite lookup_store_ne.
Qed.

Lemma on_close_continues callSid now σ c d :
  callStorage σ !! c = Some d →
  ∃ d', callStorage (on_close callSid now σ) !! c = Some d' ∧ continues d d'.
Proof.
  intros Hd. destruct (decide (c = callSid)) as [->|Hne].
  - rewrite (on_close_record callSid now σ d Hd). eexists. split; [done|].
    cbv zeta. by destruct (startTime d); repeat split.
  - exists d. rewrite on_close_other_sessions by done. split; [done|apply continues_refl].
Qed.

Lemma on_message_continues ws callSid data now σ c d :
  callStorage σ !! c = Some d →
  ∃ d', callStorage (server (on_message ws callSid data now σ)) !! c = Some d'
        ∧ continues d d'.
Proof.
  intros Hd. destruct (decide (c = callSid)) as [->|Hne].
  - rewrite (on_message_lookup ws callSid data now σ d Hd). eexists. split; [done|].
    destruct data as [text|m]; [apply continues_refl|].
    destruct (nullish m); [apply continues_refl|apply continues_record_after].
  - exists d. rewrite on_message_other_sessions by done. split; [done|apply continues_refl].
Qed.

Lemma step_continues c i r d :
  ¬ sets_up c i →
  callStorage (maps r) !! c = Some d →
  ∃ d', callStorage (maps (step i r)) !! c = Some d' ∧ continues d d'.
Proof.
  intros Hi Hd. unfold step.
  destruct (failure r); [exists d; split; [done|apply continues_refl]|].
  destruct i as [c0 f t token now|ws c0 t now|ws data now|ws now].
  - exists d. cbn [maps]. split; [|apply continues_refl].
    rewrite sampark_other_sessions; [done|]. intros ->. by apply Hi.
  - destruct (on_connection_continues ws c0 t now (maps r) c d Hd) as (d' & Hd' & Hc).
    exists d'. split; [|done].
    by destruct (on_connection ws c0 t now (maps r)).
  - destruct (listeners r !! ws) as [callSid|];
      [|exists d; split; [done|apply continues_refl]].
    cbn [maps]. by apply on_message_continues.
  - destruct (listeners r !! ws) as [callSid|];
      [|exists d; split; [done|apply continues_refl]].
    cbn [maps]. by apply on_close_continues.
Qed.

(** X7.  Histories only grow.  Along every run of the server in which no
    set-up request names the session again, the session keeps a record,
    and the event log and the list of audio chunks it had at the beginning
    are the beginning of those it has at the end (entries are appended,
    never changed nor removed), with the same start time. *)
Theorem history_only_grows c inputs : ∀ r d,
  callStorage (maps r) !! c = Some d →
  Forall (λ i, ¬ sets_up c i) inputs →
  ∃ d', callStorage (maps (run inputs r)) !! c = Some d' ∧ continues d d'.
Proof.
  induction inputs as [|i rest IH]; intros r d Hd Hall.
  - exists d. split; [done|apply continues_refl].
  - apply Forall_cons in Hall as [Hi Hrest]. rewrite run_cons.
    destruct (step_continues c i r d Hi Hd) as (d1 & Hd1 & Hc1).
    destruct (IH (step i r) d1 Hd1 Hrest) as (d' & Hd' & Hc').
    exists d'. split; [done|]. by eapply continues_trans.
Qed.

Lemma history_only_grows_witness :
  ∃ d', callStorage (maps (run (Scenario.call ++ [WS_close 7 1040]) (run Scenario.setup boot)))
          !! "C1" = Some d'
        ∧ continues Scenario.connected_record d'.
Proof.
  apply (history_only_grows "C1" (Scenario.call ++ [WS_close 7 1040])
           (run Scenario.setup boot) Scenario.connected_record).
  - vm_compute. reflexivity.
  - repeat constructor; intros H; exact H.
Defined.

(** ** What holds in every reachable state *)

(** X8.  However the server is driven from its start, every token in
    [tokenStorage] and every socket carrying listeners refers to a session
    that has a record, and every record has a start time and one of the
    six statuses [initiated], [connected], [started], [stopped],
    [transferred], [disconnected]. *)
Theorem reachable_states_consistent inputs :
  (∀ t c, tokenStorage (maps (run inputs boot)) !! t = Some c →
          is_Some (callStorage (maps (run inputs boot)) !! c))
  ∧ (∀ ws c, listeners (run inputs boot) !! ws = Some c →
             is_Some (callStorage (maps (run inputs boot)) !! c))
  ∧ (∀ c d, callStorage (maps (run inputs boot)) !! c = Some d →
            status d ∈ statuses ∧ is_Some (startTime d)).
Proof. exact (consistent_run inputs boot consistent_boot). Qed.

Lemma sampark_evolves c f t token now σ :
  ∀ c', is_Some (callStorage σ !! c') →
        is_Some (callStorage (sampark c f t token now σ).1 !! c').
Proof.
  intros c' Hc'.
  destruct (sampark_maps c f t token now σ) as [-> | (c0 & d0 & _ & -> & _)]; [done|].
  apply lookup_insert_is_Some'. by right.
Qed.

Lemma step_keeps_records i r c :
  is_Some (callStorage (maps r) !! c) → is_Some (callStorage (maps (step i r)) !! c).
Proof.
  intros Hc. unfold step. destruct (failure r); [done|].
  destruct i as [c0 f t token now|ws c0 t now|ws data now|ws now].
  - cbn [maps]. by apply sampark_evolves.
  - pose proof (on_connection_evolves ws c0 t now (maps r)) as [Hmono _].
    destruct (on_connection ws c0 t now (maps r)) eqn:E. cbn [maps fst] in *. by apply Hmono.
  - destruct (listeners r !! ws) as [callSid|]; [|done]. cbn [maps].
    by apply on_message_evolves.
  - destruct (listeners r !! ws) as [callSid|]; [|done]. cbn [maps].
    by apply on_close_evolves.
Qed.

Lemma run_keeps_records inputs c : ∀ r,
  is_Some (callStorage (maps r) !! c) → is_Some (callStorage (maps (run inputs r)) !! c).
Proof.
  induction inputs as [|i rest IH]; intros r Hc; [done|].
  rewrite run_cons. apply IH. by apply step_keeps_records.
Qed.

(** X9.  No record is ever removed: along every run, a session that has a
    record keeps one, and the count [total_calls] reported by [/health]
    never decreases. *)
Theorem total_calls_never_decreases inputs r now now' :
  (∀ c, is_Some (callStorage (maps r) !! c) →
        is_Some (callStorage (maps (run inputs r)) !! c))
  ∧ (total_calls (health now (maps r)) ≤ total_calls (health now' (maps (run inputs r))))%nat.
Proof.
  split; [intros c; apply run_keeps_records|].
  cbn [total_calls health]. rewrite <- !size_dom. apply subseteq_size.
  intros c Hc. apply elem_of_dom. apply run_keeps_records. by apply elem_of_dom.
Qed.

(** ** The registry *)

Lemma on_connection_activeConnections ws c t now σ :
  activeConnections (on_connection ws c t now σ).1 =
    if passes_admission c t σ then <[default "" c := ws]> (activeConnections σ)
    else activeConnections σ.
Proof.
  unfold on_connection, passes_admission.
  destruct c as [c|], t as [t|]; try done.
  destruct (qtruthy (Some c)), (qtruthy (Some t)),
    (bool_decide (tokenStorage σ !! t = Some c)); cbn [negb orb andb]; try done.
  cbv zeta.
  change (callStorage (set_activeConnections _ (set_tokenStorage _ σ)))
    with (callStorage σ).
  by destruct (callStorage σ !! c).
Qed.

Lemma on_close_activeConnections callSid now σ :
  activeConnections (on_close callSid now σ) = delete callSid (activeConnections σ).
Proof.
  unfold on_close. cbv zeta.
  change (callStorage (set_activeConnections _ σ)) with (callStorage σ).
  by destruct (callStorage σ !! callSid).
Qed.

Lemma registry_bound_step i r :
  match i with
  | WS_connection ws _ _ _ => listeners r !! ws = None
  | _ => True
  end →
  registry_bound r → registry_bound (step i r).
Proof.
  intros Hfresh Hreg. unfold step. destruct (failure r); [done|].
  destruct i as [c0 f t token now|ws c0 t now|ws data now|ws now].
  - intros c ws. cbn [maps listeners]. rewrite sampark_activeConnections. apply Hreg.
  - pose proof (on_connection_activeConnections ws c0 t now (maps r)) as Hact.
    destruct (on_connection ws c0 t now (maps r)) as [σ' acts]. cbn [fst] in Hact.
    intros c ws'. cbn [maps listeners]. rewrite Hact.
    destruct (passes_admission c0 t (maps r)); [|apply Hreg].
    rewrite lookup_insert. case_decide as Hc.
    + intros [= <-]. subst c. apply lookup_insert_eq.
    + intros Hold. rewrite lookup_insert_ne; [by apply Hreg|].
      intros ->. apply Hreg in Hold. congruence.
  - destruct (listeners r !! ws) as [callSid|] eqn:Hl; [|done].
    intros c ws'. cbn [maps listeners].
    destruct (on_message_other_maps ws callSid data now (maps r)) as [_ ->]. apply Hreg.
  - destruct (listeners r !! ws) as [callSid|] eqn:Hl; [|done].
    intros c ws'. cbn [maps listeners]. rewrite on_close_activeConnections.
    intros [Hc Hold]%lookup_delete_Some. apply Hreg in Hold.
    rewrite lookup_delete_ne; [done|]. intros ->. congruence.
Qed.

Lemma registry_bound_run inputs : ∀ r,
  fresh_sockets inputs r → registry_bound r → registry_bound (run inputs r).
Proof.
  induction inputs as [|i rest IH]; intros r Hfresh Hreg; [done|].
  destruct Hfresh as [Hi Hrest]. rewrite run_cons.
  apply IH; [done|]. by apply registry_bound_step.
Qed.

(** X10.  No stale registry entry.  In every state reached from the start
    by inputs whose connections each come on a socket of their own, a
    socket found in [activeConnections] under a session id carries the
    listeners of that session: a socket that was closed, or never accepted,
    is not in the registry. *)
Theorem registry_holds_bound_sockets inputs c ws :
  fresh_sockets inputs boot →
  activeConnections (maps (run inputs boot)) !! c = Some ws →
  listeners (run inputs boot) !! ws = Some c.
Proof.
  intros Hfresh. apply (registry_bound_run inputs boot Hfresh).
  intros c' ws'. unfold boot, empty_server. cbn [maps activeConnections].
  by rewrite lookup_empty.
Qed.

Lemma registry_holds_bound_sockets_witness :
  listeners (run (Scenario.setup ++ Scenario.call) boot) !! 7%nat = Some "C1".
Proof.
  apply (registry_holds_bound_sockets (Scenario.setup ++ Scenario.call) "C1" 7).
  - vm_compute. repeat split; reflexivity.
  - vm_compute. reflexivity.
Defined.

(** X11.  The close of a socket releases the session of its listeners on
    every path: afterwards the session has no registry entry, whichever
    socket the entry was, the socket has no listeners, the record is
    [disconnected] with the close time as end time, and tokens, the other
    sessions' registry entries and the other sessions' records are as
    before. *)
Theorem close_releases_session r ws callSid now d :
  failure r = None →
  listeners r !! ws = Some callSid →
  callStorage (maps r) !! callSid = Some d →
  let r' := step (WS_close ws now) r in
  activeConnections (maps r') !! callSid = None
  ∧ listeners r' !! ws = None
  ∧ (∃ d', callStorage (maps r') !! callSid = Some d'
           ∧ status d' = "disconnected" ∧ endTime d' = Some now)
  ∧ tokenStorage (maps r') = tokenStorage (maps r)
  ∧ (∀ c, c ≠ callSid →
          activeConnections (maps r') !! c = activeConnections (maps r) !! c
          ∧ callStorage (maps r') !! c = callStorage (maps r) !! c).
Proof.
  intros Hf Hl Hd r'.
  assert (maps r' = on_close callSid now (maps r)) as Hmaps
    by (by apply step_WS_close).
  assert (listeners r' = delete ws (listeners r)) as Hlis
    by (subst r'; unfold step; by rewrite Hf, Hl).
  rewrite Hmaps, Hlis, on_close_activeConnections, on_close_tokenStorage.
  split; [apply lookup_delete_eq|]. split; [apply lookup_delete_eq|]. split; [|split].
  - rewrite (on_close_record callSid now (maps r) d Hd). eexists. split; [done|].
    cbv zeta. by destruct (startTime d).
  - done.
  - intros c Hc. split; [by apply lookup_delete_ne|by apply on_close_other_sessions].
Qed.

Lemma close_releases_session_witness :
  let r' := step (WS_close 7 1040) (run (Scenario.setup ++ Scenario.call) boot) in
  activeConnections (maps r') !! "C1" = None
  ∧ listeners r' !! 7%nat = None
  ∧ (∃ d', callStorage (maps r') !! "C1" = Some d'
           ∧ status d' = "disconnected" ∧ endTime d' = Some 1040)
  ∧ tokenStorage (maps r') = tokenStorage (maps (run (Scenario.setup ++ Scenario.call) boot))
  ∧ (∀ c, c ≠ "C1" →
          activeConnections (maps r') !! c
          = activeConnections (maps (run (Scenario.setup ++ Scenario.call) boot)) !! c
          ∧ callStorage (maps r') !! c
            = callStorage (maps (run (Scenario.setup ++ Scenario.call) boot)) !! c).
Proof.
  apply (close_releases_session (run (Scenario.setup ++ Scenario.call) boot) 7 "C1" 1040
           Scenario.stopped_record).
  - reflexivity.
  - vm_compute. reflexivity.
  - vm_compute. reflexivity.
Defined.

(** ** Duration and the floor *)

Lemma Math_round_div_floor x :
  Math_round_div x 1000 = x / 1000 + (if x mod 1000 <? 500 then 0 else 1).
Proof.
  unfold Math_round_div.
  pose proof (Z.div_mod x 1000 ltac:(lia)) as Hdiv.
  pose proof (Z.mod_pos_bound x 1000 ltac:(lia)) as Hmod.
  destruct (Z.ltb_spec (x mod 1000) 500).
  - symmetry. apply (Z.div_unique _ _ _ (2 * (x mod 1000) + 1000)); lia.
  - symmetry. apply (Z.div_unique _ _ _ (2 * (x mod 1000) - 1000)); lia.
Qed.

(** X12.  The duration recorded at the close of a socket is the floor of
    the elapsed seconds when the elapsed time has fewer than 500 ms beyond
    a whole second, and the floor plus one otherwise. *)
Theorem duration_floor_or_next callSid now σ d t0 :
  callStorage σ !! callSid = Some d →
  startTime d = Some t0 →
  duration <$> callStorage (on_close callSid now σ) !! callSid =
    Some (Some ((now - t0) / 1000 + (if (now - t0) mod 1000 <? 500 then 0 else 1))).
Proof.
  intros Hd Ht0. rewrite (on_close_record callSid now σ d Hd). cbv zeta.
  rewrite Ht0. cbn [fmap option_fmap option_map duration set_duration].
  by rewrite Math_round_div_floor.
Qed.

Lemma duration_floor_or_next_witness :
  duration <$> callStorage
                 (on_close "C1" 1499 (maps (run (Scenario.setup ++ Scenario.call) boot)))
                 !! "C1" =
    Some (Some ((1499 - 0) / 1000 + (if (1499 - 0) mod 1000 <? 500 then 0 else 1))).
Proof.
  apply (duration_floor_or_next "C1" 1499
           (maps (run (Scenario.setup ++ Scenario.call) boot)) Scenario.stopped_record 0).
  - vm_compute. reflexivity.
  - reflexivity.
Defined.

(** ** Set-up, then connection *)

Lemma sampark_accepts c f t token now σ :
  c ≠ "" → f ≠ "" → t ≠ "" →
  sampark (Some c) (Some f) (Some t) token now σ =
    (set_tokenStorage (<[token := c]> (tokenStorage σ))
       (store c
          {| callSid := JStr c; from := JStr f; to := JStr t;
             startTime := Some now; status := "initiated";
             events := []; audioChunks := [];
             wsConnectedTime := None; mediaFormat := JUndefined;
             accountSid := JUndefined; stopReason := JUndefined;
             transferReason := JUndefined; endTime := None; duration := None |} σ),
     res_json 200
       (JObj [("websocket_url",
               JStr ("wss://localhost:3000/connection?token=" +:+ token
                       +:+ "&callSid=" +:+ c))])).
Proof.
  intros Hc Hf Ht. unfold sampark.
  by rewrite (qtruthy_Some c Hc), (qtruthy_Some f Hf), (qtruthy_Some t Ht).
Qed.

(** X13.  Issue, then consume.  After a set-up request with non-empty
    [CallSid], [From] and [To], whatever the server held before, the
    connection that presents the issued token with that session id is
    accepted: nothing is closed, the socket is the session's registry
    entry, the token is gone, and the session's record is a new one,
    [connected], with the set-up time as start time, the connection time
    recorded, and an empty history. *)
Theorem issued_token_admits c f t token now now' ws σ :
  c ≠ "" → f ≠ "" → t ≠ "" → token ≠ "" →
  let σ1 := (sampark (Some c) (Some f) (Some t) token now σ).1 in
  let σ2 := (on_connection ws (Some c) (Some token) now' σ1).1 in
  (on_connection ws (Some c) (Some token) now' σ1).2 = []
  ∧ activeConnections σ2 !! c = Some ws
  ∧ tokenStorage σ2 !! token = None
  ∧ ∃ d, callStorage σ2 !! c = Some d
       ∧ status d = "connected"
       ∧ startTime d = Some now
       ∧ wsConnectedTime d = Some now'
       ∧ events d = [] ∧ audioChunks d = [] ∧ (endTime d = None ∧ duration d = None).
Proof.
  intros Hc Hf Ht Htoken σ1 σ2. subst σ2 σ1.
  rewrite (sampark_accepts c f t token now σ Hc Hf Ht). cbn [fst].
  set (σ1 := set_tokenStorage _ _).
  assert (tokenStorage σ1 !! token = Some c) as Htok by apply lookup_insert_eq.
  destruct (on_connection_accepts ws c token now' σ1 Hc Htoken Htok) as (Ha & Hr & Hg).
  split; [done|]. split; [done|]. split; [done|].
  unfold on_connection.
  rewrite (qtruthy_Some c Hc), (qtruthy_Some token Htoken), (bool_decide_eq_true_2 _ Htok).
  cbn [negb orb]. cbv zeta.
  change (callStorage (set_activeConnections _ (set_tokenStorage _ σ1)))
    with (callStorage σ1).
  assert (callStorage σ1 !! c = Some
            {| callSid := JStr c; from := JStr f; to := JStr t;
               startTime := Some now; status := "initiated";
               events := []; audioChunks := [];
               wsConnectedTime := None; mediaFormat := JUndefined;
               accountSid := JUndefined; stopReason := JUndefined;
               transferReason := JUndefined; endTime := None; duration := None |}) as ->
    by apply lookup_store.
  cbn [fst]. rewrite lookup_store. eexists. split; [done|]. by repeat split.
Qed.

Lemma issued_token_admits_witness :
  let σ1 := (sampark (Some "C1") (Some "+1") (Some "+2") "t9" 0 empty_server).1 in
  let σ2 := (on_connection 7 (Some "C1") (Some "t9") 10 σ1).1 in
  (on_connection 7 (Some "C1") (Some "t9") 10 σ1).2 = []
  ∧ activeConnections σ2 !! "C1" = Some 7%nat
  ∧ tokenStorage σ2 !! "t9" = None
  ∧ ∃ d, callStorage σ2 !! "C1" = Some d
       ∧ status d = "connected"
       ∧ startTime d = Some 0
       ∧ wsConnectedTime d = Some 10
       ∧ events d = [] ∧ audioChunks d = [] ∧ (endTime d = None ∧ duration d = None).
Proof.
  apply (issued_token_admits "C1" "+1" "+2" "t9" 0 10 7 empty_server); discriminate.
Defined.

(** ** The summary and the details of a call *)

Lemma prop_CallSid_not_nullish body c : prop body "CallSid" = JStr c → nullish body = false.
Proof. by destruct body. Qed.

Lemma call_summary_found body now σ c d :
  prop body "CallSid" = JStr c → c ≠ "" →
  callStorage σ !! c = Some d →
  call_summary body now σ =
    summary_success
      {| call_sid := JStr c;
         summary_from := from d;
         summary_to := to d;
         start_time := startTime d;
         end_time := default now (endTime d);
         summary_duration := default 0 (duration d);
         total_events := length (events d);
         audio_chunks_received := length (audioChunks d);
         final_status := status d;
         events_summary :=
           map (fun e =>
                  {| summary_event := event e;
                     summary_timestamp := timestamp e;
                     summary_sequence_number := sequence_number e;
                     summary_payload := payload e |})
               (events d) |}.
Proof.
  intros Hb Hc Hd. unfold call_summary.
  rewrite (prop_CallSid_not_nullish body c Hb), Hb.
  unfold falsy. cbn [truthy callStorage_get]. rewrite Hd.
  by destruct (String.eqb_spec c "").
Qed.

(** X14.  [POST /call-summary] with a parsed body answers 400 when
    [CallSid] is missing or falsy, 404 when it is truthy but is not a
    string that names a stored record (a number or an array never names
    one), and otherwise the summary of that record: its status, its
    counts of logged events and recorded chunks, its duration or 0, its
    end time or the time of the request. *)
Theorem call_summary_answers body now σ :
  nullish body = false →
  match call_summary body now σ with
  | summary_error code _ =>
      (code = 400 ∧ truthy (prop body "CallSid") = false)
      ∨ (code = 404 ∧ truthy (prop body "CallSid") = true
         ∧ ∀ c, prop body "CallSid" = JStr c → callStorage σ !! c = None)
  | summary_success s =>
      ∃ c d, prop body "CallSid" = JStr c ∧ c ≠ "" ∧ callStorage σ !! c = Some d
             ∧ final_status s = status d
             ∧ total_events s = length (events d)
             ∧ audio_chunks_received s = length (audioChunks d)
             ∧ summary_duration s = default 0 (duration d)
             ∧ end_time s = default now (endTime d)
  end.
Proof.
  intros Hb. unfold call_summary. rewrite Hb. unfold falsy.
  destruct (truthy (prop body "CallSid")) eqn:Ht; cbn [negb]; [|by left].
  destruct (prop body "CallSid") as [| | | | |c| |] eqn:Hc; cbn [callStorage_get];
    try (right; split; [done|]; split; [done|]; by intros c' [=]).
  destruct (callStorage σ !! c) as [d|] eqn:Hd.
  - exists c, d. repeat split; try done. intros ->. discriminate.
  - right. split; [done|]. split; [done|]. by intros c' [= <-].
Qed.

Lemma call_summary_answers_witness :
  match call_summary (JObj [("CallSid", JNum 7)]) 50
          (maps (run (Scenario.setup ++ Scenario.call) boot)) with
  | summary_error code _ =>
      (code = 400 ∧ truthy (prop (JObj [("CallSid", JNum 7)]) "CallSid") = false)
      ∨ (code = 404 ∧ truthy (prop (JObj [("CallSid", JNum 7)]) "CallSid") = true
         ∧ ∀ c, prop (JObj [("CallSid", JNum 7)]) "CallSid" = JStr c →
                callStorage (maps (run (Scenario.setup ++ Scenario.call) boot)) !! c = None)
  | summary_success s =>
      ∃ c d, prop (JObj [("CallSid", JNum 7)]) "CallSid" = JStr c ∧ c ≠ ""
             ∧ callStorage (maps (run (Scenario.setup ++ Scenario.call) boot)) !! c = Some d
             ∧ final_status s = status d
             ∧ total_events s = length (events d)
             ∧ audio_chunks_received s = length (audioChunks d)
             ∧ summary_duration s = default 0 (duration d)
             ∧ end_time s = default 50 (endTime d)
  end.
Proof.
  apply (call_summary_answers (JObj [("CallSid", JNum 7)]) 50
           (maps (run (Scenario.setup ++ Scenario.call) boot))).
  reflexivity.
Defined.

(** The record after a list of plain envelopes has been delivered. *)
Lemma deliver_record ws c envelopes : ∀ r d,
  failure r = None →
  listeners r !! ws = Some c →
  callStorage (maps r) !! c = Some d →
  Forall (λ e, plain e.1 = true) envelopes →
  failure (run (deliver ws envelopes) r) = None
  ∧ ∃ d', callStorage (maps (run (deliver ws envelopes) r)) !! c = Some d'
    ∧ events d' = events d ++ map (λ e, log_entry e.1 e.2) envelopes
    ∧ length (audioChunks d') =
        (length (audioChunks d)
         + length (filter (λ e, valid_media e.1 = true) envelopes))%nat.
Proof.
  induction envelopes as [|[m t] rest IH]; intros r d Hf Hl Hd Hall.
  - split; [done|]. exists d. by rewrite app_nil_r, Nat.add_0_r.
  - apply Forall_cons in Hall as [Hm Hrest]. cbn [fst] in Hm.
    destruct (plain_inv m Hm) as (Hnn & Hdisp & _).
    cbn [deliver map]. rewrite run_cons. fold (deliver ws rest).
    rewrite (step_WS_message r ws c _ _ Hf Hl). cbv zeta. cbn [fst snd].
    pose proof (on_message_returns c ws t (maps r) d Hd m Hm) as Hu.
    pose proof (on_message_lookup ws c (JSONText m) t (maps r) d Hd) as Hs.
    cbv beta iota in Hs. rewrite Hnn in Hs.
    set (r1 := {| maps := _; listeners := _; log := _; failure := _ |}).
    destruct (IH r1 (record_after m t d)) as (Hf' & d' & Hd' & He' & Ha');
      [exact Hu | exact Hl | exact Hs | exact Hrest |].
    split; [exact Hf'|].
    exists d'. split; [exact Hd'|]. split.
    + rewrite He', record_after_events. by rewrite <- app_assoc.
    + rewrite Ha', record_after_audioChunks, length_app, filter_cons, Hdisp, andb_true_r.
      cbn [fst].
      destruct (valid_media m); case_decide; try done; cbn [length]; lia.
Qed.

(** X15.  The summary counts what the socket received.  On a bound socket
    of a session with a record, after any list of JSON documents on which
    no conversion raises ([plain]) has been delivered, the server is still
    running and the summary of the session reports as [total_events] the
    former number of log entries plus the number of documents, as
    [audio_chunks_received] the former number of chunks plus the number of
    documents that are valid media envelopes, and lists in
    [events_summary] a copy of every document, in arrival order. *)
Theorem summary_counts_deliveries r ws c d envelopes body now :
  failure r = None →
  listeners r !! ws = Some c →
  callStorage (maps r) !! c = Some d →
  Forall (λ e, plain e.1 = true) envelopes →
  prop body "CallSid" = JStr c →
  c ≠ "" →
  failure (run (deliver ws envelopes) r) = None
  ∧ ∃ s, call_summary body now (maps (run (deliver ws envelopes) r)) = summary_success s
    ∧ total_events s = (length (events d) + length envelopes)%nat
    ∧ audio_chunks_received s =
        (length (audioChunks d)
         + length (filter (λ e, valid_media e.1 = true) envelopes))%nat
    ∧ map summary_payload (events_summary s) =
        map payload (events d) ++ map (λ e, spread e.1) envelopes.
Proof.
  intros Hf Hl Hd Hall Hb Hc.
  destruct (deliver_record ws c envelopes r d Hf Hl Hd Hall)
    as (Hf' & d' & Hd' & He' & Ha').
  split; [exact Hf'|].
  rewrite (call_summary_found body now _ c d' Hb Hc Hd'). eexists. split; [done|].
  cbn [total_events audio_chunks_received events_summary].
  split; [by rewrite He', length_app, length_map|]. split; [done|].
  rewrite map_map. cbn [summary_payload]. rewrite He', map_app, map_map. done.
Qed.

Lemma summary_counts_deliveries_witness :
  failure (run (deliver 7 Scenario.mixed) (run Scenario.setup boot)) = None
  ∧ ∃ s, call_summary (JObj [("CallSid", JStr "C1")]) 50
         (maps (run (deliver 7 Scenario.mixed) (run Scenario.setup boot)))
       = summary_success s
    ∧ total_events s = (length (events Scenario.connected_record) + length Scenario.mixed)%nat
    ∧ audio_chunks_received s =
        (length (audioChunks Scenario.connected_record)
         + length (filter (λ e : JsVal * Z, valid_media e.1 = true) Scenario.mixed))%nat
    ∧ map summary_payload (events_summary s) =
        map payload (events Scenario.connected_record)
          ++ map (λ e : JsVal * Z, spread e.1) Scenario.mixed.
Proof.
  apply (summary_counts_deliveries (run Scenario.setup boot) 7 "C1"
           Scenario.connected_record).
  - reflexivity.
  - vm_compute. reflexivity.
  - vm_compute. reflexivity.
  - repeat constructor.
  - reflexivity.
  - discriminate.
Defined.

(** After a document on which the listener raises, the process has ended:
    a valid media envelope that follows is not received. *)
Example nothing_received_after_a_raise :
  let raising := JObj [("event", JStr "media");
                       ("sequence_number", JObj [("toString", JNum 1)])] in
  let r := run (deliver 7 [(raising, 20); (Scenario.media_event 2 1, 30)])
             (run Scenario.setup boot) in
  failure r = Some ReferenceError
  ∧ (length ∘ events <$> callStorage (maps r) !! "C1") = Some 1%nat
  ∧ (length ∘ audioChunks <$> callStorage (maps r) !! "C1") = Some 0%nat.
Proof. repeat split; vm_compute; reflexivity. Qed.

(** X16.  The summary after the close.  Once the socket of a session whose
    record has a start time has closed at time [now], the summary of the
    session, whenever it is requested, reports the status [disconnected],
    [now] as end time (the end time a stop or xfer had stamped is
    replaced) and [Math.round((now - start) / 1000)] as duration. *)
Theorem summary_after_close r ws c d t0 now body now' :
  failure r = None →
  listeners r !! ws = Some c →
  callStorage (maps r) !! c = Some d →
  startTime d = Some t0 →
  prop body "CallSid" = JStr c →
  c ≠ "" →
  ∃ s, call_summary body now' (maps (step (WS_close ws now) r)) = summary_success s
    ∧ final_status s = "disconnected"
    ∧ start_time s = Some t0
    ∧ end_time s = now
    ∧ summary_duration s = Math_round_div (now - t0) 1000
    ∧ total_events s = length (events d)
    ∧ audio_chunks_received s = length (audioChunks d).
Proof.
  intros Hf Hl Hd Ht0 Hb Hc.
  rewrite (step_WS_close r ws c now Hf Hl).
  pose proof (on_close_record c now (maps r) d Hd) as Hclosed.
  cbv zeta in Hclosed. rewrite Ht0 in Hclosed.
  rewrite (call_summary_found body now' _ c _ Hb Hc Hclosed).
  eexists. split; [done|]. by repeat split.
Qed.

Lemma summary_after_close_witness :
  ∃ s, call_summary (JObj [("CallSid", JStr "C1")]) 5000
         (maps (step (WS_close 7 1540) (run (Scenario.setup ++ Scenario.call) boot)))
       = summary_success s
    ∧ final_status s = "disconnected"
    ∧ start_time s = Some 0
    ∧ end_time s = 1540
    ∧ summary_duration s = Math_round_div (1540 - 0) 1000
    ∧ total_events s = length (events Scenario.stopped_record)
    ∧ audio_chunks_received s = length (audioChunks Scenario.stopped_record).
Proof.
  apply (summary_after_close (run (Scenario.setup ++ Scenario.call) boot) 7 "C1"
           Scenario.stopped_record 0 1540 (JObj [("CallSid", JStr "C1")]) 5000).
  - reflexivity.
  - vm_compute. reflexivity.
  - vm_compute. reflexivity.
  - reflexivity.
  - reflexivity.
  - discriminate.
Defined.

(** X17.  A repeated set-up discards the history.  When a set-up request
    with non-empty parameters names a session whose socket is bound, the
    socket keeps its listeners and the registry is unchanged, the tokens
    issued before remain, and the session's record is replaced by a new
    one: [initiated], started at the time of the request, with an empty
    event log, no audio chunk, no media format and no end time. *)
Theorem repeated_setup_discards_history r ws c f t token now :
  failure r = None →
  listeners r !! ws = Some c →
  c ≠ "" → f ≠ "" → t ≠ "" →
  let r' := step (GET_sampark (Some c) (Some f) (Some t) token now) r in
  failure r' = None
  ∧ listeners r' !! ws = Some c
  ∧ activeConnections (maps r') = activeConnections (maps r)
  ∧ tokenStorage (maps r') = <[token := c]> (tokenStorage (maps r))
  ∧ ∃ d', callStorage (maps r') !! c = Some d'
       ∧ status d' = "initiated"
       ∧ startTime d' = Some now
       ∧ events d' = [] ∧ audioChunks d' = []
       ∧ mediaFormat d' = JUndefined ∧ endTime d' = None.
Proof.
  intros Hf Hl Hc Hfrom Hto r'. subst r'. unfold step. rewrite Hf.
  rewrite (sampark_accepts c f t token now (maps r) Hc Hfrom Hto).
  cbn [fst maps failure listeners].
  split; [done|]. split; [done|]. split; [done|]. split; [done|].
  eexists. split; [apply lookup_store|]. by repeat split.
Qed.

Lemma repeated_setup_discards_history_witness :
  let r' := step (GET_sampark (Some "C1") (Some "+1") (Some "+2") "t2" 60)
              (run (Scenario.setup ++ Scenario.call) boot) in
  failure r' = None
  ∧ listeners r' !! 7%nat = Some "C1"
  ∧ activeConnections (maps r')
    = activeConnections (maps (run (Scenario.setup ++ Scenario.call) boot))
  ∧ tokenStorage (maps r')
    = <["t2" := "C1"]> (tokenStorage (maps (run (Scenario.setup ++ Scenario.call) boot)))
  ∧ ∃ d', callStorage (maps r') !! "C1" = Some d'
       ∧ status d' = "initiated"
       ∧ startTime d' = Some 60
       ∧ events d' = [] ∧ audioChunks d' = []
       ∧ mediaFormat d' = JUndefined ∧ endTime d' = None.
Proof.
  apply (repeated_setup_discards_history (run (Scenario.setup ++ Scenario.call) boot)
           7 "C1" "+1" "+2" "t2" 60).
  - reflexivity.
  - vm_compute. reflexivity.
  - discriminate.
  - discriminate.
  - discriminate.
Defined.

(** X18.  The details of a call return the envelopes in full.  After an
    envelope that is a JSON object, on which no conversion raises
    ([plain]), has been received for a session with a record, the listener
    has returned and [GET /call/:callSid] answers with the record's
    properties, a text giving the number of recorded chunks, and the event
    log, whose last entry holds the envelope itself as payload (for a
    media envelope, its [media.payload] included). *)
Theorem details_return_envelopes ws callSid now σ d fields :
  callStorage σ !! callSid = Some d →
  plain (JObj fields) = true →
  uncaught (on_message ws callSid (JSONText (JObj fields)) now σ) = None
  ∧ ∃ s, call_details callSid (server (on_message ws callSid (JSONText (JObj fields)) now σ))
       = details_json s
    ∧ details_events s = events d ++ [log_entry (JObj fields) now]
    ∧ payload (log_entry (JObj fields) now) = JObj fields
    ∧ details_audioChunks s =
        pretty (Z.of_nat (length (audioChunks d)
                          + (if valid_media (JObj fields) then 1 else 0))%nat)
          +:+ " chunks received".
Proof.
  intros Hd Hplain. split; [by apply (on_message_returns _ _ _ _ d)|].
  destruct (plain_inv _ Hplain) as (_ & Hdisp & _).
  unfold call_details.
  rewrite (on_message_lookup ws callSid (JSONText (JObj fields)) now σ d Hd).
  cbn [nullish]. eexists. split; [done|].
  cbn [details_events details_audioChunks].
  rewrite record_after_events, record_after_audioChunks, length_app, Hdisp, andb_true_r.
  split; [|split; [done|]].
  - set (l := events d ++ _). clearbody l.
    induction l as [|[] l IH]; [done|]. cbn [map]. by rewrite IH.
  - by destruct (valid_media (JObj fields)).
Qed.

Lemma details_return_envelopes_witness :
  uncaught (on_message 7 "C1" (JSONText (JObj Scenario.media_fields)) 30
              (maps (run Scenario.setup boot))) = None
  ∧ ∃ s, call_details "C1"
         (server (on_message 7 "C1" (JSONText (JObj Scenario.media_fields)) 30
                    (maps (run Scenario.setup boot))))
       = details_json s
    ∧ details_events s =
        events Scenario.connected_record ++ [log_entry (JObj Scenario.media_fields) 30]
    ∧ payload (log_entry (JObj Scenario.media_fields) 30) = JObj Scenario.media_fields
    ∧ details_audioChunks s =
        pretty (Z.of_nat (length (audioChunks Scenario.connected_record)
                          + (if valid_media (JObj Scenario.media_fields)
                             then 1 else 0))%nat)
          +:+ " chunks received".
Proof.
  apply (details_return_envelopes 7 "C1" 30 (maps (run Scenario.setup boot))
           Scenario.connected_record Scenario.media_fields).
  - vm_compute. reflexivity.
  - reflexivity.
Defined.

(** ** More edges of the [message] listener *)

(** X19.  The JSON document [null], arriving on a bound socket of a
    running server: [handleWebSocketEvent] raises on [message.event] before
    it logs or sends anything, and the [catch] block raises in turn, so the
    listener is left by a [ReferenceError]; nothing is sent, nothing is
    logged, the maps are as before. *)
Theorem null_document_raises r ws callSid now :
  failure r = None →
  listeners r !! ws = Some callSid →
  failure (step (WS_message ws (JSONText JNull) now) r) = Some ReferenceError
  ∧ log (step (WS_message ws (JSONText JNull) now) r) = log r
  ∧ maps (step (WS_message ws (JSONText JNull) now) r) = maps r.
Proof.
  intros Hf Hl. rewrite (step_WS_message r ws callSid _ _ Hf Hl). cbv zeta.
  rewrite null_frame_raises. cbn [failure log maps server actions uncaught].
  by rewrite app_nil_r.
Qed.

Lemma null_document_raises_witness :
  failure (step (WS_message 7 (JSONText JNull) 20) (run Scenario.setup boot))
    = Some ReferenceError
  ∧ log (step (WS_message 7 (JSONText JNull) 20) (run Scenario.setup boot))
    = log (run Scenario.setup boot)
  ∧ maps (step (WS_message 7 (JSONText JNull) 20) (run Scenario.setup boot))
    = maps (run Scenario.setup boot).
Proof.
  apply (null_document_raises (run Scenario.setup boot) 7 "C1" 20).
  - reflexivity.
  - vm_compute. reflexivity.
Defined.

(** X20.  The [callSid] property of the record.  For an envelope that
    reaches its handler (its kind and sequence number convert to text):
    a valid start replaces [from], [to], [accountSid] and [mediaFormat] of
    the record by the values of its payload and leaves [callSid] as it is,
    whatever [start.call_sid] says; a valid stop or xfer replaces
    [callSid] by the [call_sid] of its payload.  In each case the record
    stays stored under the session id of the socket. *)
Theorem callSid_property_updates ws sid now σ d m :
  callStorage σ !! sid = Some d →
  dispatched m = true →
  ∃ d', callStorage (server (on_message ws sid (JSONText m) now σ)) !! sid = Some d'
    ∧ (valid_start m = true →
         callSid d' = callSid d
         ∧ from d' = prop (prop m "start") "from"
         ∧ to d' = prop (prop m "start") "to"
         ∧ accountSid d' = prop (prop m "start") "account_sid"
         ∧ mediaFormat d' = prop (prop m "start") "media_format")
    ∧ (valid_stop m = true →
         callSid d' = prop (prop m "stop") "call_sid"
         ∧ stopReason d' = prop (prop m "stop") "reason"
         ∧ endTime d' = Some now)
    ∧ (valid_xfer m = true →
         callSid d' = prop (prop m "xfer") "call_sid"
         ∧ transferReason d' = prop (prop m "xfer") "reason"
         ∧ endTime d' = Some now).
Proof.
  intros Hd Hdisp. eexists. split; [by apply on_message_lookup|].
  destruct (valid_kinds_exclusive m) as (_ & _ & Hstop & Hxfer).
  split; [|split]; intros Hv.
  - assert (nullish m = false) as -> by (by destruct m).
    unfold record_after. by rewrite Hdisp, Hv.
  - assert (nullish m = false) as -> by (by destruct m).
    destruct (Hstop Hv) as (H1 & H2 & _).
    unfold record_after. by rewrite Hdisp, H1, H2, Hv.
  - assert (nullish m = false) as -> by (by destruct m).
    destruct (Hxfer Hv) as (H1 & H2 & H3).
    unfold record_after. by rewrite Hdisp, H1, H2, H3, Hv.
Qed.

Lemma callSid_property_updates_witness :
  ∃ d', callStorage
          (server (on_message 7 "C1"
                     (JSONText (Scenario.start_event 0 (Scenario.format "pcmu"))) 20
                     (maps (run Scenario.setup boot))))
          !! "C1" = Some d'
    ∧ (valid_start (Scenario.start_event 0 (Scenario.format "pcmu")) = true →
         callSid d' = callSid Scenario.connected_record
         ∧ from d' = prop (prop (Scenario.start_event 0 (Scenario.format "pcmu")) "start") "from"
         ∧ to d' = prop (prop (Scenario.start_event 0 (Scenario.format "pcmu")) "start") "to"
         ∧ accountSid d'
           = prop (prop (Scenario.start_event 0 (Scenario.format "pcmu")) "start") "account_sid"
         ∧ mediaFormat d'
           = prop (prop (Scenario.start_event 0 (Scenario.format "pcmu")) "start")
               "media_format")
    ∧ (valid_stop (Scenario.start_event 0 (Scenario.format "pcmu")) = true →
         callSid d'
         = prop (prop (Scenario.start_event 0 (Scenario.format "pcmu")) "stop") "call_sid"
         ∧ stopReason d'
           = prop (prop (Scenario.start_event 0 (Scenario.format "pcmu")) "stop") "reason"
         ∧ endTime d' = Some 20)
    ∧ (valid_xfer (Scenario.start_event 0 (Scenario.format "pcmu")) = true →
         callSid d'
         = prop (prop (Scenario.start_event 0 (Scenario.format "pcmu")) "xfer") "call_sid"
         ∧ transferReason d'
           = prop (prop (Scenario.start_event 0 (Scenario.format "pcmu")) "xfer") "reason"
         ∧ endTime d' = Some 20).
Proof.
  apply (callSid_property_updates 7 "C1" 20 (maps (run Scenario.setup boot))
           Scenario.connected_record (Scenario.start_event 0 (Scenario.format "pcmu"))).
  - vm_compute. reflexivity.
  - reflexivity.
Defined.

(** ** A branch that is never taken *)

Lemma scheduled_close_finds_record ws m :
  Forall (λ a, ¬ reports_missing_record a) (scheduled_close ws m).
Proof.
  unfold scheduled_close.
  destruct (valid_stop m); [repeat constructor; tauto|].
  destruct (valid_xfer m); [repeat constructor; tauto|constructor].
Qed.

(** With a record in place, no action of the [message] listener is the
    "Call data not found" envelope. *)
Lemma on_message_finds_record ws callSid data now σ d :
  callStorage σ !! callSid = Some d →
  Forall (λ a, ¬ reports_missing_record a) (actions (on_message ws callSid data now σ)).
Proof.
  intros Hd. destruct data as [text|m]; [by constructor|].
  destruct (nullish m) eqn:Hm.
  { rewrite nullish_frame_raises by done. by constructor. }
  destruct (on_message_cases ws callSid now σ d m Hd Hm)
    as [[_ ->] | (_ & e & -> & He)]; [by constructor|].
  constructor; [|apply scheduled_close_finds_record].
  cbn [reports_missing_record]. exact He.
Qed.

Lemma on_connection_closes_only ws c t now σ :
  Forall (λ a, ¬ reports_missing_record a) (on_connection ws c t now σ).2.
Proof.
  unfold on_connection.
  destruct c as [c|], t as [t|]; try (repeat constructor; tauto).
  destruct (negb _ || negb _ || negb _); [repeat constructor; tauto|]. cbv zeta.
  change (callStorage (set_activeConnections _ (set_tokenStorage _ σ)))
    with (callStorage σ).
  destruct (callStorage σ !! c); constructor.
Qed.

Lemma step_finds_record i r :
  consistent r →
  Forall (λ a, ¬ reports_missing_record a) (log r) →
  Forall (λ a, ¬ reports_missing_record a) (log (step i r)).
Proof.
  intros (_ & Hlis & _) Hlog. unfold step. destruct (failure r); [done|].
  destruct i as [c f t token now|ws c t now|ws data now|ws now].
  - done.
  - pose proof (on_connection_closes_only ws c t now (maps r)) as Hacts.
    destruct (on_connection ws c t now (maps r)). cbn [log snd] in *.
    by apply Forall_app.
  - destruct (listeners r !! ws) as [callSid|] eqn:Hl; [|done].
    destruct (Hlis ws callSid Hl) as [d Hd]. cbn [log].
    apply Forall_app. split; [done|]. by eapply on_message_finds_record.
  - by destruct (listeners r !! ws).
Qed.

Lemma run_finds_record inputs : ∀ r,
  consistent r →
  Forall (λ a, ¬ reports_missing_record a) (log r) →
  Forall (λ a, ¬ reports_missing_record a) (log (run inputs r)).
Proof.
  induction inputs as [|i rest IH]; intros r Hc Hlog; [done|].
  rewrite run_cons. apply IH; [by apply consistent_step|by apply step_finds_record].
Qed.

(** X21.  The first branch of [handleWebSocketEvent] is never taken: however
    the server is driven from its start, the error envelope "Call data not
    found" is never sent, because a socket gets its listeners only for a
    session that has a record and records are never removed. *)
Theorem call_data_always_found inputs a :
  a ∈ log (run inputs boot) → ¬ reports_missing_record a.
Proof.
  intros Ha.
  assert (Forall (λ a, ¬ reports_missing_record a) (log (run inputs boot))) as Hall.
  { apply run_finds_record; [apply consistent_boot|constructor]. }
  rewrite Forall_forall in Hall. by apply Hall.
Qed.

Lemma call_data_always_found_witness :
  ¬ reports_missing_record
      (ws_send 7
         (JObj [("event", JStr "stop"); ("sequence_number", JNum 3);
                ("stream_sid", JStr "S1");
                ("stop",
                 JObj [("call_sid", JStr "C1"); ("account_sid", JStr "A1");
                       ("reason", JStr "completed")])])).
Proof.
  apply (call_data_always_found (Scenario.setup ++ Scenario.call)).
  vm_compute. in_list.
Defined.

(** ** A set-up request that is refused *)

(** X22.  A set-up request in which [CallSid], [From] or [To] is absent or
    empty is answered 400 and changes nothing: no record is created and the
    drawn token is not stored, so a connection presenting that token is
    rejected unless the token was already bound. *)
Theorem refused_setup_issues_nothing c f t token now σ :
  qtruthy c && qtruthy f && qtruthy t = false →
  sampark c f t token now σ =
    (σ, res_json 400
          (JObj [("error", JStr "Missing required parameters: CallSid, From, To")]))
  ∧ (tokenStorage σ !! token = None →
     ∀ ws c' now',
       on_connection ws c' (Some token) now' (sampark c f t token now σ).1
       = ((sampark c f t token now σ).1, [ws_close ws 1008 "Invalid callSid or token"])).
Proof.
  intros Hq.
  assert (sampark c f t token now σ =
            (σ, res_json 400
                  (JObj [("error", JStr "Missing required parameters: CallSid, From, To")])))
    as Hrefused.
  { unfold sampark. destruct c as [c|], f as [f|], t as [t|]; try done.
    destruct (qtruthy (Some c)), (qtruthy (Some f)), (qtruthy (Some t)); done. }
  split; [done|]. rewrite Hrefused. cbn [fst]. intros Hnone ws c' now'.
  destruct c' as [c'|]; [|done].
  apply on_connection_rejects. by rewrite Hnone.
Qed.

Lemma refused_setup_issues_nothing_witness :
  sampark (Some "C1") (Some "") (Some "+2") "t5" 0 empty_server =
    (empty_server,
     res_json 400
       (JObj [("error", JStr "Missing required parameters: CallSid, From, To")]))
  ∧ (tokenStorage empty_server !! "t5" = None →
     ∀ ws c' now',
       on_connection ws c' (Some "t5") now'
         (sampark (Some "C1") (Some "") (Some "+2") "t5" 0 empty_server).1
       = ((sampark (Some "C1") (Some "") (Some "+2") "t5" 0 empty_server).1,
          [ws_close ws 1008 "Invalid callSid or token"])).
Proof.
  apply (refused_setup_issues_nothing (Some "C1") (Some "") (Some "+2") "t5" 0 empty_server).
  reflexivity.
Defined.
